(** * Match statistics: aggregation, derived metrics, duels and team balancing

    A shallow embedding of the computational core of [src/index.tsx]
    (the first of the two revisions the file holds: the one with trade
    kills, clutches and playstyle scores), and the properties its
    specification states about it.

    Modelling conventions.
    - A number of the language is a binary64 number.  A finite one is
      modelled by the rational it is: counting statistics ([kills],
      [deaths], [rounds_played], ...) and timestamps are integers ([N],
      [Z]; below 2^53 every integer is a binary64 number), the per-match
      rating [hltv_3_0_score] is a rational ([Q]).  Optional fields
      ([trade_kills?: number]) are [option N].
    - The result of a JavaScript arithmetic expression is a [JS.number]:
      a rational or one of the three special values of IEEE 754.  The
      sum, difference, product and quotient of two finite numbers, where
      the language computes them on fractions ([+=] on the rating, the
      averages, the rates, the scores), are the exact result rounded to
      the nearest binary64 number, a tie going to the even one
      ([JS.binary64]); sums of counts are sums of integers.  Division by
      zero behaves as in the source (NaN or an infinity).  The exponent
      range of binary64 is not modelled (no overflow to an infinity, no
      subnormal numbers: the statistics of a match file are nowhere near
      2^1024 or 2^-1022), and zero carries no sign.
    - A JavaScript object that is only read and written by key ([duels],
      [manualAssignments]) is a [gmap string _]; the dictionary that
      [aggregatePlayerStats] builds and then lists with [Object.values]
      is an insertion-ordered association list, listed in the order of
      the language (array-index keys first, ascending).  Steam ids are
      assumed not to collide with the property names of
      [Object.prototype].
    - React state is passed explicitly: [generateTeams] maps the state of
      the team builder to its next state and the message it alerts. *)

From stdpp Require Import gmap strings pretty sorting.
From Stdlib Require Import Ascii String QArith Qround Qabs Qpower Lqa.

Local Open Scope string_scope.
Local Open Scope list_scope.

(* ===================================================================== *)
(** * JavaScript numbers *)
(* ===================================================================== *)

Module JS.

Inductive number : Type :=
| Fin (q : Q)
| PosInf
| NegInf
| NaN.

(** An integer as a number (exact below 2^53). *)
Definition of_Z (z : Z) : number := Fin (inject_Z z).
Definition of_N (n : N) : number := of_Z (Z.of_N n).

(** ** Rounding to binary64 *)

(** [floor (log2 q)] for a positive [q]. *)
Definition ilog2 (q : Q) : Z :=
  let k := (Z.log2 (Qnum q) - Z.log2 (Z.pos (Qden q)))%Z in
  if Qle_bool (2 ^ k) q then k else (k - 1)%Z.

(** The nearest integer, a tie going to the even one. *)
Definition nearest_even (q : Q) : Z :=
  let f := Qfloor q in
  match (q - inject_Z f ?= 1 # 2)%Q with
  | Lt => f
  | Gt => (f + 1)%Z
  | Eq => if Z.even f then f else (f + 1)%Z
  end.

(** A positive rational rounded to 53 significant bits: with
    [2^(e+52) <= q < 2^(e+53)], the nearest multiple of [2^e]. *)
Definition round53 (q : Q) : Q :=
  let e := (ilog2 q - 52)%Z in
  (inject_Z (nearest_even (q / 2 ^ e)) * 2 ^ e)%Q.

(** The binary64 number nearest to a rational (round to nearest, ties to
    even), in lowest terms. *)
Definition binary64 (q : Q) : Q :=
  match (q ?= 0)%Q with
  | Eq => 0%Q
  | Gt => Qred (round53 q)
  | Lt => Qred (- round53 (- q))
  end.

(** A decimal literal of the source ([0.6], [0.95]). *)
Definition lit (q : Q) : number := Fin (binary64 q).

(** The sign of a number that is not NaN ([Eq] for zero). *)
Definition sgn (x : number) : comparison :=
  match x with
  | Fin q => (q ?= 0)%Q
  | PosInf => Gt
  | NegInf => Lt
  | NaN => Eq
  end.

(** The infinity of a given sign; a zero sign stands for an undefined
    result ([0/0], [0 * Infinity]). *)
Definition inf_of (c : comparison) : number :=
  match c with
  | Gt => PosInf
  | Lt => NegInf
  | Eq => NaN
  end.

Definition sign_mul (c1 c2 : comparison) : comparison :=
  match c1, c2 with
  | Eq, _ | _, Eq => Eq
  | Gt, Gt | Lt, Lt => Gt
  | _, _ => Lt
  end.

Definition opp (x : number) : number :=
  match x with
  | Fin q => Fin (- q)
  | PosInf => NegInf
  | NegInf => PosInf
  | NaN => NaN
  end.

Definition add (x y : number) : number :=
  match x, y with
  | NaN, _ | _, NaN => NaN
  | Fin a, Fin b => Fin (binary64 (a + b))
  | PosInf, NegInf | NegInf, PosInf => NaN
  | PosInf, _ | _, PosInf => PosInf
  | NegInf, _ | _, NegInf => NegInf
  end.

Definition sub (x y : number) : number := add x (opp y).

Definition mul (x y : number) : number :=
  match x, y with
  | NaN, _ | _, NaN => NaN
  | Fin a, Fin b => Fin (binary64 (a * b))
  | _, _ => inf_of (sign_mul (sgn x) (sgn y))
  end.

(** [x / y].  A finite numerator over zero gives NaN when it is zero and
    an infinity of its sign otherwise. *)
Definition div (x y : number) : number :=
  match x, y with
  | NaN, _ | _, NaN => NaN
  | Fin a, Fin b =>
      if Qeq_bool b 0 then inf_of (a ?= 0)%Q else Fin (binary64 (a / b))
  | Fin _, _ => Fin 0
  | _, Fin b =>
      inf_of (sign_mul (sgn x) (if Qeq_bool b 0 then Gt else (b ?= 0)%Q))
  | _, _ => NaN
  end.

(** Comparisons: every comparison with NaN is false. *)
Definition ltb (x y : number) : bool :=
  match x, y with
  | NaN, _ | _, NaN => false
  | Fin a, Fin b => negb (Qle_bool b a)
  | NegInf, NegInf => false
  | NegInf, _ => true
  | _, PosInf => match x with PosInf => false | _ => true end
  | _, _ => false
  end.

Definition eqb (x y : number) : bool :=
  match x, y with
  | Fin a, Fin b => Qeq_bool a b
  | PosInf, PosInf | NegInf, NegInf => true
  | _, _ => false
  end.

Definition leb (x y : number) : bool := ltb x y || eqb x y.
Definition gtb (x y : number) : bool := ltb y x.

(** [Math.round]: the nearest integer, halves towards +Infinity (the
    result of rounding a binary64 number is one). *)
Definition round (x : number) : number :=
  match x with
  | Fin q => of_Z (Qfloor (q + (1 # 2)))
  | _ => x
  end.

(** [Math.min] of two arguments: NaN as soon as one of them is. *)
Definition min (x y : number) : number :=
  match x, y with
  | NaN, _ | _, NaN => NaN
  | _, _ => if ltb y x then y else x
  end.

(** [Number.prototype.toFixed]: the magnitude of the number (the exact
    value of the binary64 number, not of the decimal it was computed from)
    is rounded to [digits] decimals, a tie going to the larger integer,
    and printed with exactly [digits] decimals (magnitudes below 1e21). *)
Definition fixed_digits (q : Q) (digits : nat) : N :=
  Z.to_N (Qfloor (Qabs q * inject_Z (10 ^ Z.of_nat digits) + (1 # 2))).

Fixpoint zeros (n : nat) : string :=
  match n with
  | O => ""
  | S n' => String "0"%char (zeros n')
  end.

Definition pad_left (width : nat) (s : string) : string :=
  zeros (width - String.length s) ++ s.

Definition toFixed (x : number) (digits : nat) : string :=
  match x with
  | NaN => "NaN"
  | PosInf => "Infinity"
  | NegInf => "-Infinity"
  | Fin q =>
      let s := pad_left (S digits) (pretty (fixed_digits q digits)) in
      let k := (String.length s - digits)%nat in
      (if negb (Qle_bool 0 q) then "-" else "")
        ++ substring 0 k s
        ++ (if Nat.eqb digits 0 then "" else "." ++ substring k digits s)
  end.

(** [parseFloat] on the strings this program gives it, the results of
    [toFixed]: an optional sign, digits, and an optional fraction; the
    number nearest to the decimal. *)
Fixpoint digits_value (s : string) (acc : N) : option N :=
  match s with
  | EmptyString => Some acc
  | String c s' =>
      let n := N_of_ascii c in
      if (48 <=? n)%N && (n <=? 57)%N
      then digits_value s' (acc * 10 + (n - 48))%N
      else None
  end.

Fixpoint split_at_dot (s : string) : string * option string :=
  match s with
  | EmptyString => (EmptyString, None)
  | String c s' =>
      if Ascii.eqb c "."%char then (EmptyString, Some s')
      else let '(a, b) := split_at_dot s' in (String c a, b)
  end.

Definition parse_unsigned (s : string) : number :=
  let '(int, frac) := split_at_dot s in
  match int, digits_value int 0 with
  | EmptyString, _ | _, None => NaN
  | _, Some i =>
      match frac with
      | None => Fin (binary64 (inject_Z (Z.of_N i)))
      | Some f =>
          match digits_value f 0 with
          | Some j =>
              Fin (binary64
                     (inject_Z (Z.of_N i)
                      + inject_Z (Z.of_N j)
                        / inject_Z (10 ^ Z.of_nat (String.length f))))
          | None => NaN
          end
      end
  end.

Definition parseFloat (s : string) : number :=
  match s with
  | "Infinity" => PosInf
  | "-Infinity" => NegInf
  | String "-"%char s' => opp (parse_unsigned s')
  | _ => parse_unsigned s
  end.

(** [Number.prototype.toString] on a non-negative integer of a data file.
    The number read from the file is the binary64 number [x] nearest to
    the integer; its string is the decimal with the fewest significant
    digits that reads back as [x], the closest to [x] if there are
    several, the one with the even last digit in a tie.  The candidates
    with [k] significant digits are the two multiples of [10^(n-k)] around
    [x], [n] being the number of digits of [x]. *)
Definition reads_as (x v : N) : bool :=
  Qeq_bool (binary64 (inject_Z (Z.of_N v))) (inject_Z (Z.of_N x)).

Fixpoint shortest (fuel : nat) (x unit : N) : N :=
  match fuel with
  | O => x
  | S fuel' =>
      let lo := (x / unit * unit)%N in
      let hi := (lo + unit)%N in
      match reads_as x lo, reads_as x hi with
      | true, true =>
          if (x - lo <? hi - x)%N then lo
          else if (hi - x <? x - lo)%N then hi
          else if N.even (lo / unit) then lo else hi
      | true, false => lo
      | false, true => hi
      | false, false => shortest fuel' x (unit / 10)
      end
  end.

Fixpoint strip_zeros (digits : list ascii) : list ascii :=
  match digits with
  | [] => []
  | c :: rest =>
      match strip_zeros rest with
      | [] => if Ascii.eqb c "0"%char then [] else [c]
      | rest' => c :: rest'
      end
  end.

(** Below 1e21 the digits are written out; from 1e21 on the string is in
    exponent notation; from 2^1024 on the number is [Infinity]. *)
Definition integer_toString (n : N) : string :=
  let xq := binary64 (inject_Z (Z.of_N n)) in
  if Qle_bool (2 ^ 1024) xq then "Infinity"
  else
    let x := Z.to_N (Qfloor xq) in
    let len := String.length (pretty x) in
    let v := shortest len x (10 ^ N.of_nat (len - 1)) in
    let s := pretty v in
    if (String.length s <=? 21)%nat then s
    else
      match strip_zeros (list_ascii_of_string s) with
      | [] => s
      | d :: ds =>
          String d (match ds with
                    | [] => ""
                    | _ => String "."%char (string_of_list_ascii ds)
                    end)
          ++ "e+" ++ pretty (N.of_nat (String.length s - 1))
      end.

End JS.

#[global] Arguments JS.ltb : simpl never.
#[global] Arguments JS.gtb : simpl never.
#[global] Arguments JS.leb : simpl never.
#[global] Arguments JS.eqb : simpl never.
#[global] Arguments JS.add : simpl never.
#[global] Arguments JS.sub : simpl never.
#[global] Arguments JS.mul : simpl never.
#[global] Arguments JS.div : simpl never.
#[global] Arguments JS.of_N : simpl never.
#[global] Arguments JS.of_Z : simpl never.
#[global] Arguments JS.binary64 : simpl never.
#[global] Arguments JS.lit : simpl never.

(* ===================================================================== *)
(** * Arrays and dictionaries of the language *)
(* ===================================================================== *)

(** [Array.prototype.sort] with a comparison function.  The sort of the
    language is stable, and a positive [compareFn a b] (NaN counts as
    zero) asks for [a] after [b]; the model is the stable insertion sort.
    For a comparison function that is a consistent ordering every engine
    returns this list. *)
Section Array_sort.
Context {A : Type} (compareFn : A -> A -> JS.number).

Fixpoint sort_insert (x : A) (l : list A) : list A :=
  match l with
  | [] => [x]
  | y :: l' =>
      if JS.gtb (compareFn x y) (JS.of_N 0)
      then y :: sort_insert x l'
      else x :: y :: l'
  end.

Definition Array_sort (l : list A) : list A :=
  fold_right sort_insert [] l.
End Array_sort.

(** A JavaScript object used as a dictionary with string keys: the
    entries in insertion order, a key at most once. *)
Module Dict.
Section Dict.
Context {V : Type}.

Definition t : Type := list (string * V).

(** [d[k]] *)
Fixpoint get (k : string) (d : t) : option V :=
  match d with
  | [] => None
  | (k', v) :: d' => if String.eqb k' k then Some v else get k d'
  end.

(** [d[k] = v]: an existing key keeps its place, a new one goes last. *)
Fixpoint set (k : string) (v : V) (d : t) : t :=
  match d with
  | [] => [(k, v)]
  | (k', v') :: d' =>
      if String.eqb k' k then (k', v) :: d' else (k', v') :: set k v d'
  end.

(** A key is an array index when it is the canonical decimal writing of
    an integer below 2^32 - 1. *)
Definition array_index (k : string) : option N :=
  match JS.digits_value k 0 with
  | Some n =>
      if String.eqb (pretty n) k && (n <=? 4294967294)%N then Some n else None
  | None => None
  end.

Definition is_index (e : string * V) : bool :=
  match array_index (fst e) with Some _ => true | None => false end.

Definition compare_index (a b : string * V) : JS.number :=
  JS.sub (JS.of_N (default 0%N (array_index (fst a))))
         (JS.of_N (default 0%N (array_index (fst b)))).

(** The order in which the own properties are listed: array indices in
    ascending order, then the other keys in insertion order. *)
Definition own_properties (d : t) : t :=
  Array_sort compare_index (List.filter is_index d)
    ++ List.filter (fun e => negb (is_index e)) d.

(** [Object.values(d)] *)
Definition values (d : t) : list V := List.map snd (own_properties d).
End Dict.
Arguments t : clear implicits.
End Dict.

(* ===================================================================== *)
(** * Data model *)
(* ===================================================================== *)

(** [steam_id: number | string], and its [toString()].  [IdNumber n] is
    the id a data file writes as the integer [n] without quotes: the
    program holds the binary64 number nearest to [n] and prints that one
    (a 17-digit steam id is above 2^53: 76561198000000010 is held as
    76561198000000016 and printed as "76561198000000020"). *)
Inductive SteamId : Type :=
| IdNumber (n : N)
| IdString (s : string).

Definition toString (i : SteamId) : string :=
  match i with
  | IdNumber n => JS.integer_toString n
  | IdString s => s
  end.

Module DuelData.
Record t : Type := mk {
  opponent_name : string;
  kills : N;
  deaths : N;
  diff : Z
}.
End DuelData.

Module PlayerStats.
Record t : Type := mk {
  name : string;
  steam_id : SteamId;
  last_team_name : string;
  last_side : string;
  duels : gmap string DuelData.t;
  kills : N;
  deaths : N;
  assists : N;
  rounds_played : N;
  damage_total : N;
  opening_kills : N;
  opening_deaths : N;
  opening_attempts : N;
  sniper_kills : N;
  utility_damage : N;
  flashes_thrown : N;
  hltv_3_0_score : Q;
  trade_kills : option N;
  clutches_won_1v1 : option N;
  clutches_won_1v2 : option N;
  clutches_won_1v3 : option N;
  clutches_won_1v4 : option N;
  clutches_won_1v5 : option N
}.
End PlayerStats.

Module Match.
Record t : Type := mk {
  id : string;
  filename : string;
  timestamp : Z;
  data : list PlayerStats.t
}.
End Match.

Module AggregatedPlayerStats.
Record t : Type := mk {
  steam_id : string;
  name : string;
  matches : N;
  kills : N;
  deaths : N;
  assists : N;
  rounds_played : N;
  damage_total : N;
  hltv_3_0_score : Q;
  sniper_kills : N;
  utility_damage : N;
  flashes_thrown : N;
  opening_kills : N;
  opening_deaths : N;
  opening_attempts : N;
  trade_kills : N;
  clutches_won : N
}.
End AggregatedPlayerStats.

(** [x || 0] on an optional count. *)
Definition or_zero (x : option N) : N := default 0%N x.

(* ===================================================================== *)
(** * Aggregation *)
(* ===================================================================== *)

(** The object a player gets on the first occurrence. *)
Definition new_entry (steamIdStr : string) (player : PlayerStats.t)
  : AggregatedPlayerStats.t :=
  {| AggregatedPlayerStats.steam_id := steamIdStr;
     AggregatedPlayerStats.name := PlayerStats.name player;
     AggregatedPlayerStats.matches := 0;
     AggregatedPlayerStats.kills := 0;
     AggregatedPlayerStats.deaths := 0;
     AggregatedPlayerStats.assists := 0;
     AggregatedPlayerStats.rounds_played := 0;
     AggregatedPlayerStats.damage_total := 0;
     AggregatedPlayerStats.hltv_3_0_score := 0;
     AggregatedPlayerStats.sniper_kills := 0;
     AggregatedPlayerStats.utility_damage := 0;
     AggregatedPlayerStats.flashes_thrown := 0;
     AggregatedPlayerStats.opening_kills := 0;
     AggregatedPlayerStats.opening_deaths := 0;
     AggregatedPlayerStats.opening_attempts := 0;
     AggregatedPlayerStats.trade_kills := 0;
     AggregatedPlayerStats.clutches_won := 0 |}.

Definition clutches (player : PlayerStats.t) : N :=
  (or_zero (PlayerStats.clutches_won_1v1 player)
   + or_zero (PlayerStats.clutches_won_1v2 player)
   + or_zero (PlayerStats.clutches_won_1v3 player)
   + or_zero (PlayerStats.clutches_won_1v4 player)
   + or_zero (PlayerStats.clutches_won_1v5 player))%N.

(** The assignments [p.name = ...; p.matches += 1; p.kills += ...].  The
    counts are added as integers; the rating is a fraction, and its [+=]
    rounds the sum. *)
Definition accumulate (p : AggregatedPlayerStats.t) (player : PlayerStats.t)
  : AggregatedPlayerStats.t :=
  {| AggregatedPlayerStats.steam_id := AggregatedPlayerStats.steam_id p;
     AggregatedPlayerStats.name := PlayerStats.name player;
     AggregatedPlayerStats.matches := AggregatedPlayerStats.matches p + 1;
     AggregatedPlayerStats.kills :=
       AggregatedPlayerStats.kills p + PlayerStats.kills player;
     AggregatedPlayerStats.deaths :=
       AggregatedPlayerStats.deaths p + PlayerStats.deaths player;
     AggregatedPlayerStats.assists :=
       AggregatedPlayerStats.assists p + PlayerStats.assists player;
     AggregatedPlayerStats.rounds_played :=
       AggregatedPlayerStats.rounds_played p + PlayerStats.rounds_played player;
     AggregatedPlayerStats.damage_total :=
       AggregatedPlayerStats.damage_total p + PlayerStats.damage_total player;
     AggregatedPlayerStats.hltv_3_0_score :=
       JS.binary64 (AggregatedPlayerStats.hltv_3_0_score p
                    + PlayerStats.hltv_3_0_score player);
     AggregatedPlayerStats.sniper_kills :=
       AggregatedPlayerStats.sniper_kills p + PlayerStats.sniper_kills player;
     AggregatedPlayerStats.utility_damage :=
       AggregatedPlayerStats.utility_damage p + PlayerStats.utility_damage player;
     AggregatedPlayerStats.flashes_thrown :=
       AggregatedPlayerStats.flashes_thrown p + PlayerStats.flashes_thrown player;
     AggregatedPlayerStats.opening_kills :=
       AggregatedPlayerStats.opening_kills p + PlayerStats.opening_kills player;
     AggregatedPlayerStats.opening_deaths :=
       AggregatedPlayerStats.opening_deaths p + PlayerStats.opening_deaths player;
     AggregatedPlayerStats.opening_attempts :=
       AggregatedPlayerStats.opening_attempts p
       + PlayerStats.opening_attempts player;
     AggregatedPlayerStats.trade_kills :=
       AggregatedPlayerStats.trade_kills p
       + or_zero (PlayerStats.trade_kills player);
     AggregatedPlayerStats.clutches_won :=
       AggregatedPlayerStats.clutches_won p + clutches player |}.

(** The body of the inner [forEach]: one participant of one match. *)
Definition fold_player (playerMap : Dict.t AggregatedPlayerStats.t)
    (player : PlayerStats.t) : Dict.t AggregatedPlayerStats.t :=
  let steamIdStr := toString (PlayerStats.steam_id player) in
  let playerMap :=
    match Dict.get steamIdStr playerMap with
    | None => Dict.set steamIdStr (new_entry steamIdStr player) playerMap
    | Some _ => playerMap
    end in
  match Dict.get steamIdStr playerMap with
  | Some p => Dict.set steamIdStr (accumulate p player) playerMap
  | None => playerMap
  end.

Definition fold_match (playerMap : Dict.t AggregatedPlayerStats.t)
    (m : Match.t) : Dict.t AggregatedPlayerStats.t :=
  fold_left fold_player (Match.data m) playerMap.

Definition playerMap_of (matches : list Match.t) : Dict.t AggregatedPlayerStats.t :=
  fold_left fold_match matches [].

Definition aggregatePlayerStats (matches : list Match.t)
  : list AggregatedPlayerStats.t :=
  Dict.values (playerMap_of matches).

(* ===================================================================== *)
(** * Derived metrics *)
(* ===================================================================== *)

Inductive Role : Type := Sniper | Rifler.

(** [getWeaponRole] takes a [PlayerStats | AggregatedPlayerStats]: what it
    reads of either is the two kill counts. *)
Class KillCounts (A : Type) : Type := {
  total_kills : A -> N;
  total_sniper_kills : A -> N
}.

#[export] Instance PlayerStats_KillCounts : KillCounts PlayerStats.t := {|
  total_kills := PlayerStats.kills;
  total_sniper_kills := PlayerStats.sniper_kills
|}.

#[export] Instance AggregatedPlayerStats_KillCounts
  : KillCounts AggregatedPlayerStats.t := {|
  total_kills := AggregatedPlayerStats.kills;
  total_sniper_kills := AggregatedPlayerStats.sniper_kills
|}.

Definition getWeaponRole {A : Type} `{KillCounts A} (player : A) : Role :=
  let totalKills := total_kills player in
  let sniperKills := total_sniper_kills player in
  if (totalKills =? 0)%N then Rifler
  else
    let sniperPercentage :=
      JS.mul (JS.div (JS.of_N sniperKills) (JS.of_N totalKills)) (JS.of_N 100) in
    if JS.gtb sniperPercentage (JS.of_N 40) then Sniper else Rifler.

(** The player list of the leaderboard ([SortableTable]). *)
Module SortableTable.
Section Row.
Variable player : AggregatedPlayerStats.t.

Definition kpr : JS.number :=
  if (AggregatedPlayerStats.rounds_played player =? 0)%N then JS.of_N 0
  else JS.div (JS.of_N (AggregatedPlayerStats.kills player))
              (JS.of_N (AggregatedPlayerStats.rounds_played player)).

Definition adr : JS.number :=
  if (AggregatedPlayerStats.rounds_played player =? 0)%N then JS.of_N 0
  else JS.div (JS.of_N (AggregatedPlayerStats.damage_total player))
              (JS.of_N (AggregatedPlayerStats.rounds_played player)).

Definition rating : JS.number :=
  if (AggregatedPlayerStats.matches player =? 0)%N then JS.of_N 0
  else JS.div (JS.Fin (AggregatedPlayerStats.hltv_3_0_score player))
              (JS.of_N (AggregatedPlayerStats.matches player)).

Definition kd : JS.number :=
  if (0 <? AggregatedPlayerStats.deaths player)%N
  then JS.div (JS.of_N (AggregatedPlayerStats.kills player))
              (JS.of_N (AggregatedPlayerStats.deaths player))
  else JS.of_N (AggregatedPlayerStats.kills player).
End Row.
End SortableTable.

(** The profile page of one player ([PlayerProfile]). *)
Module PlayerProfile.

(** The aggregate shown: the matches of the player, aggregated, and the
    entry of the player among the result. *)
Definition playerAggregatedStats (matches : list Match.t) (steamId : string)
  : option AggregatedPlayerStats.t :=
  let playerMatches :=
    List.filter
      (fun m => existsb
         (fun p => String.eqb (toString (PlayerStats.steam_id p)) steamId)
         (Match.data m))
      matches in
  let aggregated := aggregatePlayerStats playerMatches in
  List.find (fun p => String.eqb (AggregatedPlayerStats.steam_id p) steamId)
            aggregated.

Definition calcScore (val target : JS.number) : JS.number :=
  JS.min (JS.of_N 100) (JS.round (JS.mul (JS.div val target) (JS.of_N 100))).

Section Profile.
Variable stats : AggregatedPlayerStats.t.

Let kills := AggregatedPlayerStats.kills stats.
Let deaths := AggregatedPlayerStats.deaths stats.
Let assists := AggregatedPlayerStats.assists stats.
Let rounds_played := AggregatedPlayerStats.rounds_played stats.
Let damage_total := AggregatedPlayerStats.damage_total stats.
Let matchCount := AggregatedPlayerStats.matches stats.
Let hltv_3_0_score := AggregatedPlayerStats.hltv_3_0_score stats.
Let sniper_kills := AggregatedPlayerStats.sniper_kills stats.
Let utility_damage := AggregatedPlayerStats.utility_damage stats.
Let opening_kills := AggregatedPlayerStats.opening_kills stats.
Let opening_attempts := AggregatedPlayerStats.opening_attempts stats.
Let trade_kills := AggregatedPlayerStats.trade_kills stats.
Let clutches_won := AggregatedPlayerStats.clutches_won stats.

Definition rating : string :=
  if (0 <? matchCount)%N
  then JS.toFixed (JS.div (JS.Fin hltv_3_0_score) (JS.of_N matchCount)) 2
  else "0.00".

Definition kd : string :=
  if (0 <? deaths)%N
  then JS.toFixed (JS.div (JS.of_N kills) (JS.of_N deaths)) 2
  else JS.toFixed (JS.of_N kills) 2.

Definition adr : string :=
  if (0 <? rounds_played)%N
  then JS.toFixed (JS.div (JS.of_N damage_total) (JS.of_N rounds_played)) 1
  else "0.0".

Definition kpr : string :=
  if (0 <? rounds_played)%N
  then JS.toFixed (JS.div (JS.of_N kills) (JS.of_N rounds_played)) 2
  else "0.00".

Definition apr : string :=
  if (0 <? rounds_played)%N
  then JS.toFixed (JS.div (JS.of_N assists) (JS.of_N rounds_played)) 2
  else "0.00".

Definition dpr : string :=
  if (0 <? rounds_played)%N
  then JS.toFixed (JS.div (JS.of_N deaths) (JS.of_N rounds_played)) 2
  else "0.00".

Definition impactRating : string :=
  JS.toFixed (JS.mul (JS.parseFloat rating) (JS.lit (95 # 100))) 2.

Definition firepowerScore : JS.number :=
  calcScore (JS.parseFloat adr) (JS.of_N 100).

Definition entryScore : JS.number :=
  if (0 <? opening_attempts)%N
  then calcScore (JS.div (JS.of_N opening_kills) (JS.of_N opening_attempts))
                 (JS.lit (6 # 10))
  else JS.of_N 0.

Definition openingScore : JS.number :=
  calcScore (JS.div (JS.of_N opening_kills) (JS.of_N matchCount))
            (JS.lit (35 # 10)).

Definition tradingScore : JS.number :=
  calcScore (JS.div (JS.of_N trade_kills) (JS.of_N matchCount)) (JS.of_N 3).

Definition clutchingScore : JS.number :=
  calcScore (JS.div (JS.of_N clutches_won) (JS.of_N matchCount)) (JS.of_N 1).

Definition snipingScore : JS.number :=
  calcScore (JS.div (JS.of_N sniper_kills) (JS.of_N kills)) (JS.lit (5 # 10)).

Definition utilityScore : JS.number :=
  calcScore (JS.div (JS.of_N utility_damage) (JS.of_N matchCount))
            (JS.of_N 300).

Definition utilDmgPerRound : string :=
  if (0 <? rounds_played)%N
  then JS.toFixed (JS.div (JS.of_N utility_damage) (JS.of_N rounds_played)) 1
  else "0.0".
End Profile.
End PlayerProfile.

(** The scoreboard of one match ([MatchViewer]). *)
Module MatchViewer.
(** The ADR cell of a row. *)
Definition adr (p : PlayerStats.t) : string :=
  JS.toFixed (JS.div (JS.of_N (PlayerStats.damage_total p))
                     (JS.of_N (PlayerStats.rounds_played p))) 1.
End MatchViewer.

(* ===================================================================== *)
(** * Team builder *)
(* ===================================================================== *)

Inductive Assignment : Type := Team1 | Team2 | Bench.

#[export] Instance Assignment_eq_dec : EqDecision Assignment.
Proof. solve_decision. Defined.

Module TeamBuilder.

Record teams : Type := mkTeams {
  team1 : list AggregatedPlayerStats.t;
  team2 : list AggregatedPlayerStats.t
}.

(** The React state of the component. *)
Record state : Type := mkState {
  lobbyPlayers : list string;
  manualAssignments : gmap string Assignment;
  generatedTeams : option teams
}.

Definition initial : state :=
  {| lobbyPlayers := []; manualAssignments := ∅; generatedTeams := None |}.

Definition includes (steamId : string) (l : list string) : bool :=
  existsb (String.eqb steamId) l.

Definition addPlayerToLobby (steamId : string) (st : state) : state :=
  if negb (includes steamId (lobbyPlayers st))
     && (List.length (lobbyPlayers st) <? 10)%nat
  then {| lobbyPlayers := lobbyPlayers st ++ [steamId];
          manualAssignments := manualAssignments st;
          generatedTeams := generatedTeams st |}
  else st.

Definition removePlayerFromLobby (steamId : string) (st : state) : state :=
  {| lobbyPlayers :=
       List.filter (fun id => negb (String.eqb id steamId)) (lobbyPlayers st);
     manualAssignments := delete steamId (manualAssignments st);
     generatedTeams := generatedTeams st |}.

Definition assignPlayer (steamId : string) (team : option Assignment)
    (st : state) : state :=
  {| lobbyPlayers := lobbyPlayers st;
     manualAssignments :=
       match team with
       | None => delete steamId (manualAssignments st)
       | Some a => <[steamId := a]> (manualAssignments st)
       end;
     generatedTeams := generatedTeams st |}.

Definition clearAll (st : state) : state := initial.

(** [p.hltv_3_0_score / p.matches] *)
Definition averageRating (p : AggregatedPlayerStats.t) : JS.number :=
  JS.div (JS.Fin (AggregatedPlayerStats.hltv_3_0_score p))
         (JS.of_N (AggregatedPlayerStats.matches p)).

(** [team.reduce((sum, p) => sum + p.hltv_3_0_score / p.matches, 0)] *)
Definition teamRating (team : list AggregatedPlayerStats.t) : JS.number :=
  fold_left (fun sum p => JS.add sum (averageRating p)) team (JS.of_N 0).

Definition defined {A : Type} (l : list (option A)) : list A :=
  flat_map (fun o => match o with Some x => [x] | None => [] end) l.

Definition alert_message : string :=
  "Please select an even number of active (not benched) players.".

Section Generate.
Variable allPlayers : list AggregatedPlayerStats.t.

Definition findPlayer (id : string) : option AggregatedPlayerStats.t :=
  List.find (fun p => String.eqb (AggregatedPlayerStats.steam_id p) id)
            allPlayers.

Definition activePlayers (st : state) : list AggregatedPlayerStats.t :=
  defined
    (List.map findPlayer
       (List.filter
          (fun id => negb (bool_decide (manualAssignments st !! id = Some Bench)))
          (lobbyPlayers st))).

Definition assignment_of (st : state) (p : AggregatedPlayerStats.t)
  : option Assignment :=
  manualAssignments st !! AggregatedPlayerStats.steam_id p.

Definition pool (st : state) : list AggregatedPlayerStats.t :=
  Array_sort (fun a b => JS.sub (averageRating b) (averageRating a))
    (List.filter (fun p => bool_decide (assignment_of st p = None))
                 (activePlayers st)).

(** The body of [pool.forEach]. *)
Definition place (teamSize : nat) (t : teams)
    (player : AggregatedPlayerStats.t) : teams :=
  let team1Rating := teamRating (team1 t) in
  let team2Rating := teamRating (team2 t) in
  if (List.length (team1 t) <? teamSize)%nat
     && (JS.leb team1Rating team2Rating
         || (teamSize <=? List.length (team2 t))%nat)
  then {| team1 := team1 t ++ [player]; team2 := team2 t |}
  else if (List.length (team2 t) <? teamSize)%nat
  then {| team1 := team1 t; team2 := team2 t ++ [player] |}
  else t.

(** [generateTeams]: the next state, and the message alerted if any. *)
Definition generateTeams (st : state) : state * option string :=
  let active := activePlayers st in
  if negb (List.length active mod 2 =? 0)%nat || (List.length active <? 2)%nat
  then (st, Some alert_message)
  else
    let teamSize := (List.length active / 2)%nat in
    let pinned :=
      {| team1 := List.filter
           (fun p => bool_decide (assignment_of st p = Some Team1)) active;
         team2 := List.filter
           (fun p => bool_decide (assignment_of st p = Some Team2)) active |} in
    let result := fold_left (place teamSize) (pool st) pinned in
    ({| lobbyPlayers := lobbyPlayers st;
        manualAssignments := manualAssignments st;
        generatedTeams := Some result |}, None).
End Generate.
End TeamBuilder.

(* ===================================================================== *)
(** * Duels *)
(* ===================================================================== *)

Module HistoryEntry.
Record t : Type := mk {
  match_ : Match.t;
  p1Role : Role;
  p2Role : Role;
  p1Team : string;
  p2Team : string;
  p1Kills : N;
  p2Kills : N
}.
End HistoryEntry.

Module Duels.

Record result : Type := mkResult {
  p1 : AggregatedPlayerStats.t;
  p2 : AggregatedPlayerStats.t;
  p1Kills : N;
  p2Kills : N;
  history : list HistoryEntry.t
}.

(** The three variables the loop over the matches updates. *)
Record totals : Type := mkTotals {
  acc_p1Kills : N;
  acc_p2Kills : N;
  acc_history : list HistoryEntry.t
}.

(** [!id] on a [string | null]: null and the empty string. *)
Definition unset (id : option string) : bool :=
  match id with
  | None | Some EmptyString => true
  | Some _ => false
  end.

Definition findData (id : string) (m : Match.t) : option PlayerStats.t :=
  List.find (fun p => String.eqb (toString (PlayerStats.steam_id p)) id)
            (Match.data m).

Section Pair.
Variables player1Id player2Id : string.

(** The body of [matches.forEach]. *)
Definition visit (acc : totals) (m : Match.t) : totals :=
  match findData player1Id m, findData player2Id m with
  | Some p1Data, Some p2Data =>
      let p1Duel := PlayerStats.duels p1Data !! player2Id in
      let p2Duel := PlayerStats.duels p2Data !! player1Id in
      let commonData k1 k2 :=
        {| HistoryEntry.match_ := m;
           HistoryEntry.p1Role := getWeaponRole p1Data;
           HistoryEntry.p2Role := getWeaponRole p2Data;
           HistoryEntry.p1Team := PlayerStats.last_team_name p1Data;
           HistoryEntry.p2Team := PlayerStats.last_team_name p2Data;
           HistoryEntry.p1Kills := k1;
           HistoryEntry.p2Kills := k2 |} in
      match p1Duel, p2Duel with
      | Some d, _ =>
          {| acc_p1Kills := acc_p1Kills acc + DuelData.kills d;
             acc_p2Kills := acc_p2Kills acc + DuelData.deaths d;
             acc_history :=
               acc_history acc
               ++ [commonData (DuelData.kills d) (DuelData.deaths d)] |}
      | None, Some d =>
          {| acc_p1Kills := acc_p1Kills acc + DuelData.deaths d;
             acc_p2Kills := acc_p2Kills acc + DuelData.kills d;
             acc_history :=
               acc_history acc
               ++ [commonData (DuelData.deaths d) (DuelData.kills d)] |}
      | None, None => acc
      end
  | _, _ => acc
  end.
End Pair.

Definition by_timestamp_desc (a b : HistoryEntry.t) : JS.number :=
  JS.sub (JS.of_Z (Match.timestamp (HistoryEntry.match_ b)))
         (JS.of_Z (Match.timestamp (HistoryEntry.match_ a))).

Definition duelStats (allPlayers : list AggregatedPlayerStats.t)
    (matches : list Match.t) (player1Id player2Id : option string)
  : option result :=
  if unset player1Id || unset player2Id then None
  else
    match player1Id, player2Id with
    | Some id1, Some id2 =>
        match TeamBuilder.findPlayer allPlayers id1,
              TeamBuilder.findPlayer allPlayers id2 with
        | Some p1, Some p2 =>
            let acc :=
              fold_left (visit id1 id2) matches
                {| acc_p1Kills := 0; acc_p2Kills := 0; acc_history := [] |} in
            Some {| p1 := p1; p2 := p2;
                    p1Kills := acc_p1Kills acc;
                    p2Kills := acc_p2Kills acc;
                    history := Array_sort by_timestamp_desc (acc_history acc) |}
        | _, _ => None
        end
    | _, _ => None
    end.

End Duels.

(* ===================================================================== *)
(** * What the specification says, in its own terms *)
(* ===================================================================== *)

(** ** Aggregation *)

(** Every participant record of every match, in fold order. *)
Definition participants (matches : list Match.t) : list PlayerStats.t :=
  flat_map Match.data matches.

Definition plays_as (k : string) (p : PlayerStats.t) : bool :=
  String.eqb (toString (PlayerStats.steam_id p)) k.

(** The occurrences of the player with normalized id [k]. *)
Definition occurrences (k : string) (matches : list Match.t)
  : list PlayerStats.t :=
  List.filter (plays_as k) (participants matches).

Definition sum_N (l : list N) : N := fold_left N.add l 0%N.

(** The sum of fractions as the language computes it: from 0, left to
    right, every partial sum rounded to binary64. *)
Definition sum_Q (l : list Q) : Q :=
  fold_left (fun sum x => JS.binary64 (sum + x)) l 0%Q.

(** The aggregate of a player with the given occurrences: the counter,
    the sums, and the name of the last occurrence. *)
Definition aggregate_of (k : string) (occs : list PlayerStats.t)
  : AggregatedPlayerStats.t :=
  {| AggregatedPlayerStats.steam_id := k;
     AggregatedPlayerStats.name := List.last (List.map PlayerStats.name occs) "";
     AggregatedPlayerStats.matches := N.of_nat (List.length occs);
     AggregatedPlayerStats.kills := sum_N (List.map PlayerStats.kills occs);
     AggregatedPlayerStats.deaths := sum_N (List.map PlayerStats.deaths occs);
     AggregatedPlayerStats.assists := sum_N (List.map PlayerStats.assists occs);
     AggregatedPlayerStats.rounds_played :=
       sum_N (List.map PlayerStats.rounds_played occs);
     AggregatedPlayerStats.damage_total :=
       sum_N (List.map PlayerStats.damage_total occs);
     AggregatedPlayerStats.hltv_3_0_score :=
       sum_Q (List.map PlayerStats.hltv_3_0_score occs);
     AggregatedPlayerStats.sniper_kills :=
       sum_N (List.map PlayerStats.sniper_kills occs);
     AggregatedPlayerStats.utility_damage :=
       sum_N (List.map PlayerStats.utility_damage occs);
     AggregatedPlayerStats.flashes_thrown :=
       sum_N (List.map PlayerStats.flashes_thrown occs);
     AggregatedPlayerStats.opening_kills :=
       sum_N (List.map PlayerStats.opening_kills occs);
     AggregatedPlayerStats.opening_deaths :=
       sum_N (List.map PlayerStats.opening_deaths occs);
     AggregatedPlayerStats.opening_attempts :=
       sum_N (List.map PlayerStats.opening_attempts occs);
     AggregatedPlayerStats.trade_kills :=
       sum_N (List.map (fun p => default 0%N (PlayerStats.trade_kills p)) occs);
     AggregatedPlayerStats.clutches_won :=
       sum_N (List.map
         (fun p => (default 0 (PlayerStats.clutches_won_1v1 p)
                    + default 0 (PlayerStats.clutches_won_1v2 p)
                    + default 0 (PlayerStats.clutches_won_1v3 p)
                    + default 0 (PlayerStats.clutches_won_1v4 p)
                    + default 0 (PlayerStats.clutches_won_1v5 p))%N) occs) |}.

(** The entry of the player with id [k] among a list of aggregates. *)
Definition lookup_player (k : string) (l : list AggregatedPlayerStats.t)
  : option AggregatedPlayerStats.t :=
  List.find (fun a => String.eqb (AggregatedPlayerStats.steam_id a) k) l.

(** An aggregate without its display name and its summed rating: the
    counter and the sums of the counts. *)
Definition counters (a : AggregatedPlayerStats.t) : AggregatedPlayerStats.t :=
  {| AggregatedPlayerStats.steam_id := AggregatedPlayerStats.steam_id a;
     AggregatedPlayerStats.name := "";
     AggregatedPlayerStats.matches := AggregatedPlayerStats.matches a;
     AggregatedPlayerStats.kills := AggregatedPlayerStats.kills a;
     AggregatedPlayerStats.deaths := AggregatedPlayerStats.deaths a;
     AggregatedPlayerStats.assists := AggregatedPlayerStats.assists a;
     AggregatedPlayerStats.rounds_played := AggregatedPlayerStats.rounds_played a;
     AggregatedPlayerStats.damage_total := AggregatedPlayerStats.damage_total a;
     AggregatedPlayerStats.hltv_3_0_score := 0;
     AggregatedPlayerStats.sniper_kills := AggregatedPlayerStats.sniper_kills a;
     AggregatedPlayerStats.utility_damage :=
       AggregatedPlayerStats.utility_damage a;
     AggregatedPlayerStats.flashes_thrown :=
       AggregatedPlayerStats.flashes_thrown a;
     AggregatedPlayerStats.opening_kills := AggregatedPlayerStats.opening_kills a;
     AggregatedPlayerStats.opening_deaths :=
       AggregatedPlayerStats.opening_deaths a;
     AggregatedPlayerStats.opening_attempts :=
       AggregatedPlayerStats.opening_attempts a;
     AggregatedPlayerStats.trade_kills := AggregatedPlayerStats.trade_kills a;
     AggregatedPlayerStats.clutches_won := AggregatedPlayerStats.clutches_won a |}.

(** ** Duel reconciliation *)

(** Which side recorded the duel of A against B in a match. *)
Inductive DuelRecord : Type :=
| PreferA (d : DuelData.t)
| FallbackB (d : DuelData.t)
| NoRecord.

Definition duel_record (idA idB : string) (a b : PlayerStats.t) : DuelRecord :=
  match PlayerStats.duels a !! idB with
  | Some d => PreferA d
  | None =>
      match PlayerStats.duels b !! idA with
      | Some d => FallbackB d
      | None => NoRecord
      end
  end.

(** A appears as a participant of the match. *)
Definition participant (k : string) (m : Match.t) : bool :=
  existsb (plays_as k) (Match.data m).

(** The record of A in a match: that of the first participant with the id. *)
Definition record_of (k : string) (m : Match.t) : option PlayerStats.t :=
  List.find (plays_as k) (Match.data m).

(** What one match contributes: (A-kills, B-kills), or nothing. *)
Definition contribution (idA idB : string) (m : Match.t) : option (N * N) :=
  if participant idA m && participant idB m then
    match record_of idA m, record_of idB m with
    | Some a, Some b =>
        match duel_record idA idB a b with
        | PreferA d => Some (DuelData.kills d, DuelData.deaths d)
        | FallbackB d => Some (DuelData.deaths d, DuelData.kills d)
        | NoRecord => None
        end
    | _, _ => None
    end
  else None.

(** The matches that contribute, each with its contribution. *)
Definition contributing (idA idB : string) (matches : list Match.t)
  : list (Match.t * N * N) :=
  flat_map
    (fun m =>
       match contribution idA idB m with
       | Some (ka, kb) => [(m, ka, kb)]
       | None => []
       end)
    matches.

Definition entry_score (e : HistoryEntry.t) : Match.t * N * N :=
  (HistoryEntry.match_ e, HistoryEntry.p1Kills e, HistoryEntry.p2Kills e).

(** ** Team balancing *)

(** The average rating of a player: summed rating score over matches,
    as a number of the language (the quotient, rounded to binary64). *)
Definition average_rating (p : AggregatedPlayerStats.t) : Q :=
  JS.binary64 (AggregatedPlayerStats.hltv_3_0_score p
               / inject_Z (Z.of_N (AggregatedPlayerStats.matches p))).

(** The summed average rating of a team: the averages of its members
    added up in team order, as numbers of the language. *)
Definition summed_rating (team : list AggregatedPlayerStats.t) : Q :=
  sum_Q (List.map average_rating team).

(** [sorted] is [l] sorted descending by [key], ties in original order. *)
Definition stable_descending {A : Type} (key : A -> Q) (l sorted : list A)
  : Prop :=
  Permutation sorted l
  /\ StronglySorted (fun a b => (key b <= key a)%Q) sorted
  /\ forall q : Q,
       List.filter (fun a => Qeq_bool (key a) q) sorted
       = List.filter (fun a => Qeq_bool (key a) q) l.

(** The greedy pass over the candidates, in order: a candidate joins
    team1 exactly when team1 has room and either its summed rating is at
    most that of team2 or team2 is full; otherwise it joins team2, which
    then has room. *)
Inductive greedy (teamSize : nat)
  : list AggregatedPlayerStats.t -> TeamBuilder.teams -> TeamBuilder.teams -> Prop :=
| greedy_done t : greedy teamSize [] t t
| greedy_team1 c candidates t1 t2 t' :
    (List.length t1 < teamSize)%nat ->
    ((summed_rating t1 <= summed_rating t2)%Q \/ (teamSize <= List.length t2)%nat) ->
    greedy teamSize candidates (TeamBuilder.mkTeams (t1 ++ [c]) t2) t' ->
    greedy teamSize (c :: candidates) (TeamBuilder.mkTeams t1 t2) t'
| greedy_team2 c candidates t1 t2 t' :
    ~ ((List.length t1 < teamSize)%nat
       /\ ((summed_rating t1 <= summed_rating t2)%Q
           \/ (teamSize <= List.length t2)%nat)) ->
    (List.length t2 < teamSize)%nat ->
    greedy teamSize candidates (TeamBuilder.mkTeams t1 (t2 ++ [c])) t' ->
    greedy teamSize (c :: candidates) (TeamBuilder.mkTeams t1 t2) t'.

Definition pinned_to (st : TeamBuilder.state) (a : Assignment)
    (p : AggregatedPlayerStats.t) : Prop :=
  TeamBuilder.manualAssignments st !! AggregatedPlayerStats.steam_id p = Some a.

Definition unpinned (st : TeamBuilder.state) (p : AggregatedPlayerStats.t)
  : Prop :=
  TeamBuilder.manualAssignments st !! AggregatedPlayerStats.steam_id p = None.

(** The state after a successful [generateTeams]. *)
Definition with_teams (st : TeamBuilder.state) (t : TeamBuilder.teams)
  : TeamBuilder.state :=
  {| TeamBuilder.lobbyPlayers := TeamBuilder.lobbyPlayers st;
     TeamBuilder.manualAssignments := TeamBuilder.manualAssignments st;
     TeamBuilder.generatedTeams := Some t |}.

(** The states the component can be in: from the initial state by the
    handlers, whatever the aggregated players at each step. *)
Inductive step : TeamBuilder.state -> TeamBuilder.state -> Prop :=
| step_add id st : step st (TeamBuilder.addPlayerToLobby id st)
| step_remove id st : step st (TeamBuilder.removePlayerFromLobby id st)
| step_assign id team st : step st (TeamBuilder.assignPlayer id team st)
| step_clear st : step st (TeamBuilder.clearAll st)
| step_generate allPlayers st :
    step st (fst (TeamBuilder.generateTeams allPlayers st)).

Definition reachable (st : TeamBuilder.state) : Prop :=
  rtc step TeamBuilder.initial st.

(** ** Auxiliary notions *)

(** A count as a rational. *)
Definition Qof (n : N) : Q := inject_Z (Z.of_N n).

(** The quotient of two numbers as the language computes it: the exact
    quotient rounded to binary64. *)
Definition quotient (a b : Q) : Q := JS.binary64 (a / b).

(** The comparison function [fun a b => key b - key a] of a sort by a
    rational key, largest first. *)
Definition descending {A : Type} (key : A -> Q) (a b : A) : JS.number :=
  JS.sub (JS.Fin (key b)) (JS.Fin (key a)).

(** The keys of a dictionary, in insertion order. *)
Definition keys {V : Type} (d : Dict.t V) : list string := List.map fst d.

(** Every entry of the dictionary is filed under its own [steam_id]. *)
Definition keyed (d : Dict.t AggregatedPlayerStats.t) : Prop :=
  Forall (fun e => AggregatedPlayerStats.steam_id (snd e) = fst e) d.

(** ** Derived metrics *)


(** ** Sample records *)

(** A participant record as a match file gives it: the rating is the
    binary64 number read from the decimal of the file. *)
Definition sample_player (name : string) (steam_id : SteamId)
    (kills deaths sniper_kills rounds_played : N) (hltv_3_0_score : Q)
    (duels : gmap string DuelData.t) : PlayerStats.t :=
  {| PlayerStats.name := name;
     PlayerStats.steam_id := steam_id;
     PlayerStats.last_team_name := "Team " ++ name;
     PlayerStats.last_side := "CT";
     PlayerStats.duels := duels;
     PlayerStats.kills := kills;
     PlayerStats.deaths := deaths;
     PlayerStats.assists := 2;
     PlayerStats.rounds_played := rounds_played;
     PlayerStats.damage_total := 90 * rounds_played;
     PlayerStats.opening_kills := 1;
     PlayerStats.opening_deaths := 1;
     PlayerStats.opening_attempts := 2;
     PlayerStats.sniper_kills := sniper_kills;
     PlayerStats.utility_damage := 40;
     PlayerStats.flashes_thrown := 5;
     PlayerStats.hltv_3_0_score := JS.binary64 hltv_3_0_score;
     PlayerStats.trade_kills := None;
     PlayerStats.clutches_won_1v1 := Some 2%N;
     PlayerStats.clutches_won_1v2 := Some 1%N;
     PlayerStats.clutches_won_1v3 := Some 0%N;
     PlayerStats.clutches_won_1v4 := None;
     PlayerStats.clutches_won_1v5 := None |}.

(** A player who made no kill in a match of 24 rounds, and one whose
    record has no round at all. *)
Definition idle_player : PlayerStats.t :=
  sample_player "idle" (IdString "76561198000000001") 0 12 0 24 (31 # 100) ∅.

Definition absent_player : PlayerStats.t :=
  sample_player "absent" (IdString "76561198000000002") 0 0 0 0 0 ∅.

Definition idle_match : Match.t :=
  {| Match.id := "m0"; Match.filename := "2401011200.json";
     Match.timestamp := 1704110400000;
     Match.data := [idle_player; absent_player] |}.


(** The player a selected id resolves to, if any. *)
Definition resolve (allPlayers : list AggregatedPlayerStats.t)
    (selected : option string) : option AggregatedPlayerStats.t :=
  match selected with
  | Some k => lookup_player k allPlayers
  | None => None
  end.

(** A match of two players in which only the second recorded their duel:
    3 kills and 1 death against the first. *)
Definition duel_A : PlayerStats.t :=
  sample_player "A" (IdString "76561198000000010") 14 11 2 22 (104 # 100) ∅.

Definition duel_B : PlayerStats.t :=
  sample_player "B" (IdString "76561198000000011") 17 9 8 22 (127 # 100)
    {[ "76561198000000010" :=
         {| DuelData.opponent_name := "A"; DuelData.kills := 3;
            DuelData.deaths := 1; DuelData.diff := 2 |} ]}.

Definition duel_match : Match.t :=
  {| Match.id := "m1"; Match.filename := "2401021200.json";
     Match.timestamp := 1704196800000;
     Match.data := [duel_A; duel_B] |}.


#[export] Instance pinned_to_dec (st : TeamBuilder.state) (a : Assignment)
    (p : AggregatedPlayerStats.t) : Decision (pinned_to st a p).
Proof. unfold pinned_to. apply _. Defined.

#[export] Instance unpinned_dec (st : TeamBuilder.state)
    (p : AggregatedPlayerStats.t) : Decision (unpinned st p).
Proof. unfold unpinned. apply _. Defined.

(** The members of a roster pinned to a team, and those left to the
    balancer, in roster order. *)
Definition pinned_members (st : TeamBuilder.state) (a : Assignment)
    (roster : list AggregatedPlayerStats.t) : list AggregatedPlayerStats.t :=
  List.filter (fun p => bool_decide (pinned_to st a p)) roster.

Definition unpinned_members (st : TeamBuilder.state)
    (roster : list AggregatedPlayerStats.t) : list AggregatedPlayerStats.t :=
  List.filter (fun p => bool_decide (unpinned st p)) roster.

(** A player with at least one match. *)
Definition played (p : AggregatedPlayerStats.t) : Prop :=
  (0 < AggregatedPlayerStats.matches p)%N.


(** Two records with 100 kills, 40 and 41 of them with a sniper rifle,
    and one with 10 kills and no death. *)
Definition rifler_100 : PlayerStats.t :=
  sample_player "rifler" (IdString "76561198000000030") 100 80 40 120 (99 # 100) ∅.


Definition flawless_player : PlayerStats.t :=
  sample_player "flawless" (IdString "76561198000000020") 10 0 4 16 (152 # 100) ∅.

Definition flawless_stats : AggregatedPlayerStats.t :=
  aggregate_of "76561198000000020" [flawless_player].

Definition regular_stats : AggregatedPlayerStats.t :=
  aggregate_of "76561198000000030" [rifler_100; rifler_100].

Definition absent_stats : AggregatedPlayerStats.t :=
  aggregate_of "76561198000000002" [absent_player].

(** A match of eight players, two of them with the same rating, and
    lobbies made of them by the handlers of the team builder. *)
Definition roster_ids : list string :=
  ["76561198000000101"; "76561198000000102"; "76561198000000103";
   "76561198000000104"; "76561198000000105"; "76561198000000106";
   "76561198000000107"; "76561198000000108"].

Definition roster_match : Match.t :=
  {| Match.id := "m2"; Match.filename := "2401031200.json";
     Match.timestamp := 1704283200000;
     Match.data :=
       [sample_player "P1" (IdString "76561198000000101") 18 15 2 24 (98 # 100) ∅;
        sample_player "P2" (IdString "76561198000000102") 25 12 9 24 (131 # 100) ∅;
        sample_player "P3" (IdString "76561198000000103") 20 16 0 24 (105 # 100) ∅;
        sample_player "P4" (IdString "76561198000000104") 12 19 1 24 (74 # 100) ∅;
        sample_player "P5" (IdString "76561198000000105") 21 17 3 24 (105 # 100) ∅;
        sample_player "P6" (IdString "76561198000000106") 16 18 0 24 (91 # 100) ∅;
        sample_player "P7" (IdString "76561198000000107") 22 14 5 24 (112 # 100) ∅;
        sample_player "P8" (IdString "76561198000000108") 14 17 0 24 (87 # 100) ∅] |}.

Definition lobby_of (ids : list string) : TeamBuilder.state :=
  fold_left (fun st id => TeamBuilder.addPlayerToLobby id st) ids
            TeamBuilder.initial.

Definition full_lobby : TeamBuilder.state := lobby_of roster_ids.

(** Seven active players: the eighth is benched. *)
Definition benched_lobby : TeamBuilder.state :=
  TeamBuilder.assignPlayer "76561198000000108" (Some Bench) full_lobby.

(** The full lobby with one player pinned to each team. *)
Definition pinned_lobby : TeamBuilder.state :=
  TeamBuilder.assignPlayer "76561198000000102" (Some Team2)
    (TeamBuilder.assignPlayer "76561198000000104" (Some Team1) full_lobby).

(** Four players, three of them pinned to team1: more than half. *)
Definition crowded_lobby : TeamBuilder.state :=
  TeamBuilder.assignPlayer "76561198000000103" (Some Team1)
    (TeamBuilder.assignPlayer "76561198000000102" (Some Team1)
       (TeamBuilder.assignPlayer "76561198000000101" (Some Team1)
          (lobby_of ["76561198000000101"; "76561198000000102";
                     "76561198000000103"; "76561198000000104"]))).


(* ===================================================================== *)
(** * The rest of the program: store, leaderboard, dashboard, views *)
(* ===================================================================== *)

(** ** The match store ([StatsProvider])

    The state updates of the provider, as functions of the previous list
    of matches; the writes to the database are left out. *)
Module StatsProvider.

(** [setMatches(prev => [...prev.filter(m => m.id !== match.id), match])] *)
Definition addMatch (m : Match.t) (prev : list Match.t) : list Match.t :=
  List.filter (fun x => negb (String.eqb (Match.id x) (Match.id m))) prev ++ [m].

(** [new Map(...)] and [map.set]: a [Map] lists its keys in insertion
    order, a key set again keeps its place. *)
Definition map_of (entries : list Match.t) (map : Dict.t Match.t)
  : Dict.t Match.t :=
  fold_left (fun d m => Dict.set (Match.id m) m d) entries map.

Definition addMatches (newMatches prev : list Match.t) : list Match.t :=
  let map := map_of prev [] in
  let map := map_of newMatches map in
  List.map snd map.

Definition deleteMatch (matchId : string) (prev : list Match.t) : list Match.t :=
  List.filter (fun m => negb (String.eqb (Match.id m) matchId)) prev.

Definition deleteMatches (matchIds : list string) (prev : list Match.t)
  : list Match.t :=
  List.filter (fun m => negb (TeamBuilder.includes (Match.id m) matchIds)) prev.

Definition restoreData (data prev : list Match.t) : list Match.t := data.

End StatsProvider.

(** The match stored under an id: the first one in the list. *)
Definition stored (matchId : string) (store : list Match.t) : option Match.t :=
  List.find (fun m => String.eqb (Match.id m) matchId) store.

Definition match_ids (store : list Match.t) : list string :=
  List.map Match.id store.

(** ** The dashboard *)
Module Dashboard.

(** [matches.reduce((sum, m) => sum + (m.data[0]?.rounds_played || 0), 0)] *)
Definition totalRounds (matches : list Match.t) : N :=
  fold_left
    (fun sum m =>
       (sum + or_zero (PlayerStats.rounds_played <$> head (Match.data m)))%N)
    matches 0%N.

(** [allPlayers.reduce((sum, p) => sum + p.kills, 0)] *)
Definition totalKills (allPlayers : list AggregatedPlayerStats.t) : N :=
  fold_left (fun sum p => (sum + AggregatedPlayerStats.kills p)%N) allPlayers 0%N.

Definition topPlayer (allPlayers : list AggregatedPlayerStats.t)
  : option AggregatedPlayerStats.t :=
  if (List.length allPlayers =? 0)%nat then None
  else
    head (Array_sort
            (fun a b => JS.sub (TeamBuilder.averageRating b)
                               (TeamBuilder.averageRating a))
            allPlayers).

Definition by_timestamp_desc (a b : Match.t) : JS.number :=
  JS.sub (JS.of_Z (Match.timestamp b)) (JS.of_Z (Match.timestamp a)).

(** [[...matches].sort((a, b) => b.timestamp - a.timestamp).slice(0, 5)] *)
Definition recentMatches (matches : list Match.t) : list Match.t :=
  firstn 5 (Array_sort by_timestamp_desc matches).

End Dashboard.

(** ** The leaderboard: sorting *)

Inductive SortKey : Type := key_hltv_3_0_score | key_adr | key_matches.
Inductive Direction : Type := asc | desc.

#[export] Instance SortKey_eq_dec : EqDecision SortKey.
Proof. solve_decision. Defined.

(** The value [a[sortConfig.key]] as the comparisons see it.  The keys
    are those of the three headers; an aggregate has no [adr] property,
    so that value is [undefined], which [<] and [>] read as NaN. *)
Definition sort_value (key : SortKey) (a : AggregatedPlayerStats.t)
  : JS.number :=
  match key with
  | key_hltv_3_0_score =>
      if (0 <? AggregatedPlayerStats.matches a)%N
      then JS.div (JS.Fin (AggregatedPlayerStats.hltv_3_0_score a))
                  (JS.of_N (AggregatedPlayerStats.matches a))
      else JS.of_N 0
  | key_adr => JS.NaN
  | key_matches => JS.of_N (AggregatedPlayerStats.matches a)
  end.

Definition compare_players (key : SortKey) (direction : Direction)
    (a b : AggregatedPlayerStats.t) : JS.number :=
  let aValue := sort_value key a in
  let bValue := sort_value key b in
  if JS.ltb aValue bValue
  then match direction with asc => JS.of_Z (-1) | desc => JS.of_Z 1 end
  else if JS.gtb aValue bValue
  then match direction with asc => JS.of_Z 1 | desc => JS.of_Z (-1) end
  else JS.of_Z 0.

Definition sortedPlayers (sortConfig : option (SortKey * Direction))
    (players : list AggregatedPlayerStats.t) : list AggregatedPlayerStats.t :=
  match sortConfig with
  | Some (key, direction) => Array_sort (compare_players key direction) players
  | None => players
  end.

Definition requestSort (key : SortKey) (sortConfig : option (SortKey * Direction))
  : option (SortKey * Direction) :=
  let direction :=
    match sortConfig with
    | Some (key', desc) => if bool_decide (key' = key) then asc else desc
    | _ => desc
    end in
  Some (key, direction).

(** ** The views of a player and of a match *)

(** [playerMatchHistory] of the profile page: the matches with the record
    of the player in each, those without one dropped, newest first. *)
Definition history_by_timestamp_desc (a b : Match.t * option PlayerStats.t)
  : JS.number :=
  JS.sub (JS.of_Z (Match.timestamp (fst b))) (JS.of_Z (Match.timestamp (fst a))).

Definition playerMatchHistory (matches : list Match.t) (steamId : string)
  : list (Match.t * option PlayerStats.t) :=
  Array_sort history_by_timestamp_desc
    (List.filter (fun item => bool_decide (is_Some (snd item)))
       (List.map (fun m => (m, Duels.findData steamId m)) matches)).

(** [[...match.data].sort((a, b) => b.kills - a.kills)] *)
Definition sortedScoreboard (m : Match.t) : list PlayerStats.t :=
  Array_sort
    (fun a b => JS.sub (JS.of_N (PlayerStats.kills b)) (JS.of_N (PlayerStats.kills a)))
    (Match.data m).

(** ** The selection of the data manager *)
Definition toggleSelection (id : string) (prev : list string) : list string :=
  if TeamBuilder.includes id prev
  then List.filter (fun x => negb (String.eqb x id)) prev
  else prev ++ [id].


(** ** Notions used to state the properties of the rest of the program *)

(** The counter and the counting sums of an aggregate, as a list. *)
Definition tallies (a : AggregatedPlayerStats.t) : list N :=
  [AggregatedPlayerStats.matches a; AggregatedPlayerStats.kills a;
   AggregatedPlayerStats.deaths a; AggregatedPlayerStats.assists a;
   AggregatedPlayerStats.rounds_played a; AggregatedPlayerStats.damage_total a;
   AggregatedPlayerStats.sniper_kills a; AggregatedPlayerStats.utility_damage a;
   AggregatedPlayerStats.flashes_thrown a; AggregatedPlayerStats.opening_kills a;
   AggregatedPlayerStats.opening_deaths a;
   AggregatedPlayerStats.opening_attempts a;
   AggregatedPlayerStats.trade_kills a; AggregatedPlayerStats.clutches_won a].

(** A score that is an integer from 0 to 100. *)
Definition percent_score (x : JS.number) : Prop :=
  exists z : Z, x = JS.of_Z z /\ (0 <= z <= 100)%Z.

(** Newest first. *)
Definition newest_first (l : list Match.t) : Prop :=
  StronglySorted (fun a b => (Match.timestamp b <= Match.timestamp a)%Z) l.

(** In every match where both players recorded their duel, the two
    records mirror each other. *)
Definition mirrored (idA idB : string) (matches : list Match.t) : Prop :=
  forall m a b dA dB,
    In m matches ->
    record_of idA m = Some a -> record_of idB m = Some b ->
    PlayerStats.duels a !! idB = Some dA ->
    PlayerStats.duels b !! idA = Some dB ->
    DuelData.kills dA = DuelData.deaths dB
    /\ DuelData.deaths dA = DuelData.kills dB.

(** No match lists a player twice. *)
Definition distinct_participants (m : Match.t) : Prop :=
  NoDup (List.map (fun p => toString (PlayerStats.steam_id p)) (Match.data m)).


(** Every entry of the [Map] of matches is filed under the id of its
    match. *)
Definition map_keyed (d : Dict.t Match.t) : Prop :=
  Forall (fun e => Match.id (snd e) = fst e) d.


(** The rating the leaderboard sorts by: the average rating, 0 for an
    aggregate without matches. *)
Definition leaderboard_rating (p : AggregatedPlayerStats.t) : Q :=
  if (0 <? AggregatedPlayerStats.matches p)%N then average_rating p else 0.

(** The key of a sort in a direction: ascending is descending by the
    opposite. *)
Definition directed (direction : Direction) (q : Q) : Q :=
  match direction with desc => q | asc => (- q)%Q end.

(** [sorted] is [l] sorted descending by an integer key, ties in original
    order. *)
Definition stable_descending_Z {A : Type} (key : A -> Z) (l sorted : list A)
  : Prop :=
  Permutation sorted l
  /\ StronglySorted (fun a b => (key b <= key a)%Z) sorted
  /\ forall z : Z,
       List.filter (fun a => Z.eqb (key a) z) sorted
       = List.filter (fun a => Z.eqb (key a) z) l.


(** The result of the face-off seen from the other side: the two
    players, their totals, and in every match of the history their roles,
    teams and kills change places. *)
Definition swap_entry (e : HistoryEntry.t) : HistoryEntry.t :=
  {| HistoryEntry.match_ := HistoryEntry.match_ e;
     HistoryEntry.p1Role := HistoryEntry.p2Role e;
     HistoryEntry.p2Role := HistoryEntry.p1Role e;
     HistoryEntry.p1Team := HistoryEntry.p2Team e;
     HistoryEntry.p2Team := HistoryEntry.p1Team e;
     HistoryEntry.p1Kills := HistoryEntry.p2Kills e;
     HistoryEntry.p2Kills := HistoryEntry.p1Kills e |}.

Definition swap_totals (acc : Duels.totals) : Duels.totals :=
  {| Duels.acc_p1Kills := Duels.acc_p2Kills acc;
     Duels.acc_p2Kills := Duels.acc_p1Kills acc;
     Duels.acc_history := List.map swap_entry (Duels.acc_history acc) |}.

Definition swap_result (r : Duels.result) : Duels.result :=
  {| Duels.p1 := Duels.p2 r;
     Duels.p2 := Duels.p1 r;
     Duels.p1Kills := Duels.p2Kills r;
     Duels.p2Kills := Duels.p1Kills r;
     Duels.history := List.map swap_entry (Duels.history r) |}.

(** A later match of the same two players in which both recorded their
    duel, the two records agreeing: 5 kills to 2. *)
Definition rematch_A : PlayerStats.t :=
  sample_player "A" (IdString "76561198000000010") 19 13 4 24 (118 # 100)
    {[ "76561198000000011" :=
         {| DuelData.opponent_name := "B"; DuelData.kills := 5;
            DuelData.deaths := 2; DuelData.diff := 3 |} ]}.

Definition rematch_B : PlayerStats.t :=
  sample_player "B" (IdString "76561198000000011") 15 16 6 24 (96 # 100)
    {[ "76561198000000010" :=
         {| DuelData.opponent_name := "A"; DuelData.kills := 2;
            DuelData.deaths := 5; DuelData.diff := (-3) |} ]}.

Definition rematch : Match.t :=
  {| Match.id := "m3"; Match.filename := "2401041200.json";
     Match.timestamp := 1704369600000;
     Match.data := [rematch_B; rematch_A] |}.


(** The full lobby with two players benched: six active players. *)
Definition benched_pair : TeamBuilder.state :=
  TeamBuilder.assignPlayer "76561198000000107" (Some Bench) benched_lobby.


(** Three matches of one player, rated 0.1, 0.2 and 0.3. *)
Definition rated_match (matchId : string) (timestamp : Z) (rating : Q)
  : Match.t :=
  {| Match.id := matchId; Match.filename := matchId ++ ".json";
     Match.timestamp := timestamp;
     Match.data :=
       [sample_player "R" (IdString "76561198000000040") 10 10 0 20 rating ∅] |}.

Definition rated_01 : Match.t := rated_match "r1" 1704456000000 (1 # 10).
Definition rated_02 : Match.t := rated_match "r2" 1704542400000 (2 # 10).
Definition rated_03 : Match.t := rated_match "r3" 1704628800000 (3 # 10).

(** A player with 3 deaths over 40 rounds. *)
Definition sparse_stats : AggregatedPlayerStats.t :=
  aggregate_of "76561198000000050"
    [sample_player "S" (IdString "76561198000000050") 5 3 0 40 (80 # 100) ∅].


(** Six players in five matches: their ratings in the first match are 1,
    2, 3, 5, 4.5 and 4 and they are rated 0 in the other four, so that
    their averages are 0.2, 0.4, 0.6, 1, 0.9 and 0.8.  In the lobby the
    first two are pinned to team1 and the third to team2. *)
Definition squad_ids : list string :=
  ["76561198000000201"; "76561198000000202"; "76561198000000203";
   "76561198000000204"; "76561198000000205"; "76561198000000206"].

Definition squad_match (matchId : string) (ratings : list Q) : Match.t :=
  {| Match.id := matchId; Match.filename := matchId ++ ".json";
     Match.timestamp := 1704715200000;
     Match.data :=
       zip_with (fun id rating => sample_player id (IdString id) 10 10 0 20 rating ∅)
                squad_ids ratings |}.

Definition squad_matches : list Match.t :=
  [squad_match "s1" [1; 2; 3; 5; 45 # 10; 4]%Q;
   squad_match "s2" [0; 0; 0; 0; 0; 0]%Q;
   squad_match "s3" [0; 0; 0; 0; 0; 0]%Q;
   squad_match "s4" [0; 0; 0; 0; 0; 0]%Q;
   squad_match "s5" [0; 0; 0; 0; 0; 0]%Q].

Definition squad_lobby : TeamBuilder.state :=
  TeamBuilder.assignPlayer "76561198000000203" (Some Team2)
    (TeamBuilder.assignPlayer "76561198000000202" (Some Team1)
       (TeamBuilder.assignPlayer "76561198000000201" (Some Team1)
          (lobby_of squad_ids))).

(** A match in which one player is filed under a numeric steam id and
    another under the string the language prints for that number. *)
Definition numeric_id_match : Match.t :=
  {| Match.id := "n1"; Match.filename := "n1.json";
     Match.timestamp := 1704801600000;
     Match.data :=
       [sample_player "N" (IdNumber 76561198000000010) 12 9 1 20 (101 # 100) ∅;
        sample_player "M" (IdString "76561198000000020") 7 14 0 20 (83 # 100) ∅] |}.


(** Two aggregates whose summed ratings, 6.72 over 6 matches and 7.84
    over 7, have different exact quotients and the same binary64 one. *)
Definition sample_aggregate (steam_id : string) (rating : Q) (matches : N)
  : AggregatedPlayerStats.t :=
  {| AggregatedPlayerStats.steam_id := steam_id;
     AggregatedPlayerStats.name := steam_id;
     AggregatedPlayerStats.matches := matches;
     AggregatedPlayerStats.kills := 0;
     AggregatedPlayerStats.deaths := 0;
     AggregatedPlayerStats.assists := 0;
     AggregatedPlayerStats.rounds_played := 0;
     AggregatedPlayerStats.damage_total := 0;
     AggregatedPlayerStats.hltv_3_0_score := JS.binary64 rating;
     AggregatedPlayerStats.sniper_kills := 0;
     AggregatedPlayerStats.utility_damage := 0;
     AggregatedPlayerStats.flashes_thrown := 0;
     AggregatedPlayerStats.opening_kills := 0;
     AggregatedPlayerStats.opening_deaths := 0;
     AggregatedPlayerStats.opening_attempts := 0;
     AggregatedPlayerStats.trade_kills := 0;
     AggregatedPlayerStats.clutches_won := 0 |}.

Definition tied_a : AggregatedPlayerStats.t := sample_aggregate "a" (672 # 100) 6.
Definition tied_b : AggregatedPlayerStats.t := sample_aggregate "b" (784 # 100) 7.


(* ===================================================================== *)
(** * Sums *)
(* ===================================================================== *)

Lemma fold_left_swap_perm {A B : Type} (f : A -> B -> A) :
  (forall a x y, f (f a x) y = f (f a y) x) ->
  forall l l', Permutation l l' -> forall a, fold_left f l a = fold_left f l' a.
Proof.
  intros Hswap l l' Hperm.
  induction Hperm as [|x l l' _ IH|x y l|l l' l'' _ IH1 _ IH2]; intros a; simpl.
  - reflexivity.
  - apply IH.
  - now rewrite Hswap.
  - now rewrite IH1.
Qed.

Lemma sum_N_perm (l l' : list N) : Permutation l l' -> sum_N l = sum_N l'.
Proof.
  intros Hperm. unfold sum_N. apply fold_left_swap_perm; [|exact Hperm].
  intros; lia.
Qed.

Lemma sum_N_snoc (l : list N) (x : N) : sum_N (l ++ [x]) = (sum_N l + x)%N.
Proof. unfold sum_N. now rewrite fold_left_app. Qed.

Lemma sum_Q_snoc (l : list Q) (x : Q) :
  sum_Q (l ++ [x]) = JS.binary64 (sum_Q l + x).
Proof. unfold sum_Q. now rewrite fold_left_app. Qed.

(* ===================================================================== *)
(** * Rounding to binary64 *)
(* ===================================================================== *)

Section Binary64_facts.
Local Open Scope Q_scope.

Lemma two_pos (e : Z) : 0 < 2 ^ e.
Proof. apply Qpower_0_lt. reflexivity. Qed.

Lemma two_plus (a b : Z) : 2 ^ (a + b) == 2 ^ a * 2 ^ b.
Proof. apply Qpower_plus. discriminate. Qed.

Lemma two_le (a b : Z) : (a <= b)%Z -> 2 ^ a <= 2 ^ b.
Proof. intros H. apply Qpower_le_compat_l; [exact H|discriminate]. Qed.

Lemma two_lt_inv (a b : Z) : 2 ^ a < 2 ^ b -> (a < b)%Z.
Proof. intros H. apply (Qpower_lt_compat_l_inv 2); [exact H|reflexivity]. Qed.

Lemma ilog2_spec (q : Q) :
  0 < q -> 2 ^ JS.ilog2 q <= q /\ q < 2 ^ (JS.ilog2 q + 1).
Proof.
  intros Hq. unfold JS.ilog2.
  destruct q as [n d]. cbn [Qnum Qden].
  assert (0 < n)%Z as Hn by (unfold Qlt in Hq; simpl in Hq; lia).
  set (a := Z.log2 n). set (b := Z.log2 (Z.pos d)).
  destruct (Z.log2_spec n Hn) as [Ha1 Ha2].
  destruct (Z.log2_spec (Z.pos d) (Pos2Z.is_pos d)) as [Hb1 Hb2].
  fold a in Ha1, Ha2. fold b in Hb1, Hb2.
  assert (0 <= a)%Z as Ha0 by apply Z.log2_nonneg.
  assert (0 <= b)%Z as Hb0 by apply Z.log2_nonneg.
  assert (inject_Z (2 ^ a) == 2 ^ a) as Ea by (now apply Zpower_Qpower).
  assert (inject_Z (2 ^ Z.succ a) == 2 ^ (a + 1)) as Ea'
    by (rewrite Zpower_Qpower by lia; now rewrite <- Z.add_1_r).
  assert (inject_Z (2 ^ b) == 2 ^ b) as Eb by (now apply Zpower_Qpower).
  assert (inject_Z (2 ^ Z.succ b) == 2 ^ (b + 1)) as Eb'
    by (rewrite Zpower_Qpower by lia; now rewrite <- Z.add_1_r).
  assert (n # d == inject_Z n / inject_Z (Z.pos d)) as Eq by apply Qmake_Qdiv.
  assert (0 < inject_Z (Z.pos d)) as Hd
    by (change 0 with (inject_Z 0); rewrite <- Zlt_Qlt; lia).
  assert (2 ^ a <= inject_Z n) as La by (rewrite <- Ea, <- Zle_Qle; exact Ha1).
  assert (inject_Z n < 2 ^ (a + 1)) as Ua by (rewrite <- Ea', <- Zlt_Qlt; exact Ha2).
  assert (2 ^ b <= inject_Z (Z.pos d)) as Lb by (rewrite <- Eb, <- Zle_Qle; exact Hb1).
  assert (inject_Z (Z.pos d) < 2 ^ (b + 1)) as Ub
    by (rewrite <- Eb', <- Zlt_Qlt; exact Hb2).
  pose proof (two_pos a) as Pa. pose proof (two_pos b) as Pb.
  pose proof (two_pos (a - b)) as Pab.
  assert (2 ^ a == 2 ^ (a - b) * 2 ^ b) as Esplit
    by (rewrite <- two_plus; now replace (a - b + b)%Z with a by lia).
  assert (2 ^ (a + 1) == 2 * 2 ^ a) as Ea1
    by (rewrite two_plus; change (2 ^ 1) with 2; ring).
  assert (2 ^ (b + 1) == 2 * 2 ^ b) as Eb1
    by (rewrite two_plus; change (2 ^ 1) with 2; ring).
  assert (2 ^ (a - b + 1) == 2 * 2 ^ (a - b)) as Eab1
    by (rewrite two_plus; change (2 ^ 1) with 2; ring).
  assert (2 ^ (a - b) == 2 * 2 ^ (a - b - 1)) as Eab2.
  { replace (a - b)%Z with ((a - b - 1) + 1)%Z at 1 by lia.
    rewrite two_plus; change (2 ^ 1) with 2; ring. }
  pose proof (two_pos (a - b - 1)) as Pab1.
  set (x := inject_Z n) in *. set (y := inject_Z (Z.pos d)) in *.
  assert (2 ^ (a - b - 1) < x / y) as Hlow.
  { apply Qlt_shift_div_l; [exact Hd|]. nra. }
  assert (x / y < 2 ^ (a - b + 1)) as Hhigh.
  { apply Qlt_shift_div_r; [exact Hd|]. nra. }
  destruct (Qle_bool (2 ^ (a - b)) (n # d)) eqn:Hcmp.
  - apply Qle_bool_iff in Hcmp. split; [exact Hcmp|]. rewrite Eq. exact Hhigh.
  - assert (~ 2 ^ (a - b) <= n # d) as Hnot
      by (rewrite <- Qle_bool_iff; congruence).
    apply Qnot_le_lt in Hnot. split.
    + rewrite Eq. apply Qlt_le_weak. exact Hlow.
    + replace (a - b - 1 + 1)%Z with (a - b)%Z by lia. exact Hnot.
Qed.

Lemma ilog2_unique (q : Q) (k : Z) :
  2 ^ k <= q -> q < 2 ^ (k + 1) -> JS.ilog2 q = k.
Proof.
  intros Hl Hu.
  assert (0 < q) as Hq by (pose proof (two_pos k); lra).
  destruct (ilog2_spec q Hq) as [Hl' Hu'].
  assert (JS.ilog2 q < k + 1)%Z by (apply two_lt_inv; lra).
  assert (k < JS.ilog2 q + 1)%Z by (apply two_lt_inv; lra).
  lia.
Qed.

Lemma ilog2_mono (a b : Q) : 0 < a -> a <= b -> (JS.ilog2 a <= JS.ilog2 b)%Z.
Proof.
  intros Ha Hab.
  destruct (ilog2_spec a Ha) as [Hl _].
  destruct (ilog2_spec b) as [_ Hu]; [lra|].
  assert (JS.ilog2 a < JS.ilog2 b + 1)%Z by (apply two_lt_inv; lra).
  lia.
Qed.

Lemma ilog2_comp (a b : Q) : 0 < a -> a == b -> JS.ilog2 a = JS.ilog2 b.
Proof.
  intros Ha Hab. symmetry.
  destruct (ilog2_spec a Ha) as [Hl Hu].
  apply ilog2_unique; lra.
Qed.

(** ** Rounding to the nearest integer *)

Lemma nearest_even_bounds (q : Q) :
  (Qfloor q <= JS.nearest_even q <= Qfloor q + 1)%Z.
Proof.
  unfold JS.nearest_even.
  destruct (q - inject_Z (Qfloor q) ?= 1 # 2); [|lia|lia].
  destruct (Z.even (Qfloor q)); lia.
Qed.

Lemma nearest_even_Z (z : Z) : JS.nearest_even (inject_Z z) = z.
Proof.
  unfold JS.nearest_even. rewrite Qfloor_Z.
  assert ((inject_Z z - inject_Z z ?= 1 # 2) = Lt) as ->; [|reflexivity].
  apply (proj1 (Qlt_alt _ _)). unfold Qminus. rewrite Qplus_opp_r. reflexivity.
Qed.

Lemma nearest_even_mono (a b : Q) :
  a <= b -> (JS.nearest_even a <= JS.nearest_even b)%Z.
Proof.
  intros Hab.
  pose proof (Qfloor_resp_le _ _ Hab) as Hfl.
  pose proof (nearest_even_bounds a) as Ba.
  pose proof (nearest_even_bounds b) as Bb.
  destruct (Z.eq_dec (Qfloor a) (Qfloor b)) as [Heq|Hne]; [|lia].
  unfold JS.nearest_even in *. rewrite <- Heq in *.
  set (f := Qfloor a) in *.
  destruct (a - inject_Z f ?= 1 # 2) eqn:Ca;
    destruct (b - inject_Z f ?= 1 # 2) eqn:Cb;
    try (destruct (Z.even f)); try lia;
    first [apply (proj2 (Qeq_alt _ _)) in Ca|apply (proj2 (Qlt_alt _ _)) in Ca|apply (proj2 (Qgt_alt _ _)) in Ca];
    first [apply (proj2 (Qeq_alt _ _)) in Cb|apply (proj2 (Qlt_alt _ _)) in Cb|apply (proj2 (Qgt_alt _ _)) in Cb];
    unfold f in *; lra.
Qed.

Lemma nearest_even_comp (a b : Q) :
  a == b -> JS.nearest_even a = JS.nearest_even b.
Proof.
  intros Hab. apply Z.le_antisymm; apply nearest_even_mono; lra.
Qed.

Lemma nearest_even_le (q : Q) (z : Z) :
  q <= inject_Z z -> (JS.nearest_even q <= z)%Z.
Proof.
  intros H. rewrite <- (nearest_even_Z z). now apply nearest_even_mono.
Qed.

Lemma nearest_even_ge (q : Q) (z : Z) :
  inject_Z z <= q -> (z <= JS.nearest_even q)%Z.
Proof.
  intros H. rewrite <- (nearest_even_Z z). now apply nearest_even_mono.
Qed.

(** ** Rounding to 53 bits *)

Lemma mantissa_range (q : Q) :
  0 < q ->
  let e := (JS.ilog2 q - 52)%Z in
  2 ^ 52 <= q / 2 ^ e /\ q / 2 ^ e < 2 ^ 53.
Proof.
  intros Hq e. destruct (ilog2_spec q Hq) as [Hl Hu].
  pose proof (two_pos e) as Pe.
  assert (2 ^ JS.ilog2 q == 2 ^ 52 * 2 ^ e) as E1.
  { rewrite <- two_plus. now replace (52 + e)%Z with (JS.ilog2 q) by (unfold e; lia). }
  assert (2 ^ (JS.ilog2 q + 1) == 2 ^ 53 * 2 ^ e) as E2.
  { rewrite <- two_plus.
    now replace (53 + e)%Z with (JS.ilog2 q + 1)%Z by (unfold e; lia). }
  split.
  - apply Qle_shift_div_l; [exact Pe|]. lra.
  - apply Qlt_shift_div_r; [exact Pe|]. lra.
Qed.

Lemma round53_range (q : Q) :
  0 < q ->
  2 ^ JS.ilog2 q <= JS.round53 q /\ JS.round53 q <= 2 ^ (JS.ilog2 q + 1).
Proof.
  intros Hq. unfold JS.round53.
  destruct (mantissa_range q Hq) as [Hl Hu]. cbn zeta in Hl, Hu.
  set (e := (JS.ilog2 q - 52)%Z) in *.
  pose proof (two_pos e) as Pe.
  assert (2 ^ JS.ilog2 q == 2 ^ 52 * 2 ^ e) as E1.
  { rewrite <- two_plus. now replace (52 + e)%Z with (JS.ilog2 q) by (unfold e; lia). }
  assert (2 ^ (JS.ilog2 q + 1) == 2 ^ 53 * 2 ^ e) as E2.
  { rewrite <- two_plus.
    now replace (53 + e)%Z with (JS.ilog2 q + 1)%Z by (unfold e; lia). }
  assert (2 ^ 52 <= JS.nearest_even (q / 2 ^ e))%Z as Hm1.
  { apply nearest_even_ge. rewrite Zpower_Qpower by lia. exact Hl. }
  assert (JS.nearest_even (q / 2 ^ e) <= 2 ^ 53)%Z as Hm2.
  { apply nearest_even_le. rewrite Zpower_Qpower by lia.
    apply Qlt_le_weak. exact Hu. }
  rewrite Zle_Qle, Zpower_Qpower in Hm1 by lia.
  rewrite Zle_Qle, Zpower_Qpower in Hm2 by lia.
  change (inject_Z 2) with 2 in *.
  rewrite E1, E2. split; apply Qmult_le_compat_r; lra.
Qed.

Lemma round53_pos (q : Q) : 0 < q -> 0 < JS.round53 q.
Proof.
  intros Hq. destruct (round53_range q Hq) as [Hl _].
  pose proof (two_pos (JS.ilog2 q)). lra.
Qed.

Lemma round53_mono (a b : Q) :
  0 < a -> a <= b -> JS.round53 a <= JS.round53 b.
Proof.
  intros Ha Hab. assert (0 < b) as Hb by lra.
  pose proof (ilog2_mono a b Ha Hab) as Hlog.
  destruct (Z.eq_dec (JS.ilog2 a) (JS.ilog2 b)) as [Heq|Hne].
  - unfold JS.round53. rewrite Heq. set (e := (JS.ilog2 b - 52)%Z).
    pose proof (two_pos e) as Pe.
    apply Qmult_le_compat_r; [|lra].
    rewrite <- Zle_Qle. apply nearest_even_mono.
    apply Qmult_le_compat_r; [exact Hab|].
    apply Qlt_le_weak, Qinv_lt_0_compat, Pe.
  - destruct (round53_range a Ha) as [_ Hu].
    destruct (round53_range b Hb) as [Hl _].
    assert (2 ^ (JS.ilog2 a + 1) <= 2 ^ JS.ilog2 b) by (apply two_le; lia).
    lra.
Qed.

Lemma round53_comp (a b : Q) : 0 < a -> a == b -> JS.round53 a == JS.round53 b.
Proof.
  intros Ha Hab. unfold JS.round53. rewrite (ilog2_comp a b Ha Hab).
  rewrite (nearest_even_comp (a / 2 ^ (JS.ilog2 b - 52)) (b / 2 ^ (JS.ilog2 b - 52)));
    [reflexivity|]. now rewrite Hab.
Qed.

(** ** The nearest binary64 number *)

Lemma binary64_sign (q : Q) :
  (0 < q -> 0 < JS.binary64 q) /\ (q < 0 -> JS.binary64 q < 0)
  /\ (q == 0 -> JS.binary64 q = 0).
Proof.
  unfold JS.binary64. repeat split; intros Hq.
  - assert ((q ?= 0) = Gt) as -> by (now apply (proj1 (Qgt_alt _ _))).
    rewrite Qred_correct. now apply round53_pos.
  - assert ((q ?= 0) = Lt) as -> by (now apply (proj1 (Qlt_alt _ _))).
    rewrite Qred_correct.
    assert (0 < JS.round53 (- q)) by (apply round53_pos; lra). lra.
  - assert ((q ?= 0) = Eq) as -> by (now apply (proj1 (Qeq_alt _ _))). reflexivity.
Qed.

Lemma binary64_pos (q : Q) : 0 < JS.binary64 q <-> 0 < q.
Proof.
  destruct (binary64_sign q) as (Hp & Hn & Hz). split; [|exact Hp].
  intros H. destruct (Qlt_le_dec 0 q) as [|Hle]; [assumption|].
  destruct (Qle_lt_or_eq _ _ Hle) as [Hlt|Heq].
  - specialize (Hn Hlt). lra.
  - rewrite (Hz Heq) in H. lra.
Qed.

Lemma binary64_nonneg (q : Q) : 0 <= q -> 0 <= JS.binary64 q.
Proof.
  intros Hq. destruct (binary64_sign q) as (Hp & _ & Hz).
  destruct (Qle_lt_or_eq _ _ Hq) as [Hlt|Heq].
  - apply Qlt_le_weak. now apply Hp.
  - rewrite Hz by (symmetry; exact Heq). lra.
Qed.

Lemma binary64_mono (a b : Q) : a <= b -> JS.binary64 a <= JS.binary64 b.
Proof.
  intros Hab.
  destruct (binary64_sign a) as (Pa & Na & Za).
  destruct (binary64_sign b) as (Pb & Nb & Zb).
  destruct (Qlt_le_dec 0 a) as [Ha|Ha].
  - unfold JS.binary64.
    assert ((a ?= 0) = Gt) as -> by (now apply (proj1 (Qgt_alt _ _))).
    assert ((b ?= 0) = Gt) as -> by (apply (proj1 (Qgt_alt _ _)); lra).
    rewrite !Qred_correct. now apply round53_mono.
  - destruct (Qlt_le_dec 0 b) as [Hb|Hb].
    + specialize (Pb Hb).
      destruct (Qle_lt_or_eq _ _ Ha) as [Hlt|Heq];
        [specialize (Na Hlt); lra|rewrite (Za Heq); lra].
    + destruct (Qle_lt_or_eq _ _ Hb) as [Hblt|Hbeq].
      * unfold JS.binary64.
        assert ((a ?= 0) = Lt) as -> by (apply (proj1 (Qlt_alt _ _)); lra).
        assert ((b ?= 0) = Lt) as -> by (now apply (proj1 (Qlt_alt _ _))).
        rewrite !Qred_correct.
        assert (JS.round53 (- b) <= JS.round53 (- a))
          by (apply round53_mono; lra).
        lra.
      * rewrite (Zb Hbeq).
        destruct (Qle_lt_or_eq _ _ Hab) as [Hlt|Heq].
        -- assert (a < 0) as Hneg by lra. specialize (Na Hneg). lra.
        -- rewrite Za by lra. lra.
Qed.

Lemma binary64_comp (a b : Q) : a == b -> JS.binary64 a = JS.binary64 b.
Proof.
  intros Hab. unfold JS.binary64.
  assert ((a ?= 0) = (b ?= 0)) as -> by (now rewrite Hab).
  destruct (b ?= 0) eqn:Hb; [reflexivity| |].
  - apply Qred_complete. apply Qopp_comp.
    apply (proj2 (Qlt_alt _ _)) in Hb. apply round53_comp; lra.
  - apply Qred_complete. apply (proj2 (Qgt_alt _ _)) in Hb. apply round53_comp; lra.
Qed.

Lemma binary64_lt_inv (a b : Q) : JS.binary64 a < JS.binary64 b -> a < b.
Proof.
  intros H. apply Qnot_le_lt. intros Hba. apply binary64_mono in Hba. lra.
Qed.

Lemma binary64_opp (q : Q) : JS.binary64 (- q) == - JS.binary64 q.
Proof.
  unfold JS.binary64.
  destruct (q ?= 0) eqn:Hq.
  - apply (proj2 (Qeq_alt _ _)) in Hq.
    assert ((- q ?= 0) = Eq) as -> by (apply (proj1 (Qeq_alt _ _)); lra). reflexivity.
  - apply (proj2 (Qlt_alt _ _)) in Hq.
    assert ((- q ?= 0) = Gt) as -> by (apply (proj1 (Qgt_alt _ _)); lra).
    rewrite !Qred_correct. lra.
  - apply (proj2 (Qgt_alt _ _)) in Hq.
    assert ((- q ?= 0) = Lt) as -> by (apply (proj1 (Qlt_alt _ _)); lra).
    rewrite !Qred_correct.
    rewrite (round53_comp (- - q) q); lra.
Qed.
End Binary64_facts.

(* ===================================================================== *)
(** * Facts about sorting and dictionaries *)
(* ===================================================================== *)

Section Array_sort_facts.
Context {A : Type}.
Implicit Types (compareFn : A -> A -> JS.number) (l : list A).

Lemma sort_insert_perm compareFn x l :
  Permutation (sort_insert compareFn x l) (x :: l).
Proof.
  induction l as [|y l IH]; simpl; [reflexivity|].
  destruct (JS.gtb (compareFn x y) (JS.of_N 0)); [|reflexivity].
  rewrite IH. apply perm_swap.
Qed.

Lemma Array_sort_perm compareFn l : Permutation (Array_sort compareFn l) l.
Proof.
  induction l as [|x l IH]; simpl; [reflexivity|].
  rewrite sort_insert_perm. now constructor.
Qed.

(** The sort only looks at the comparison of the elements it is given. *)
Lemma sort_insert_ext compareFn compareFn' x l :
  (forall y, In y l ->
     JS.gtb (compareFn x y) (JS.of_N 0) = JS.gtb (compareFn' x y) (JS.of_N 0)) ->
  sort_insert compareFn x l = sort_insert compareFn' x l.
Proof.
  induction l as [|y l IH]; intros Hext; simpl; [reflexivity|].
  rewrite (Hext y) by now left.
  rewrite IH by (intros; apply Hext; now right). reflexivity.
Qed.

Lemma Array_sort_ext compareFn compareFn' l :
  (forall x y, In x l -> In y l ->
     JS.gtb (compareFn x y) (JS.of_N 0) = JS.gtb (compareFn' x y) (JS.of_N 0)) ->
  Array_sort compareFn l = Array_sort compareFn' l.
Proof.
  induction l as [|x l IH]; intros Hext; simpl; [reflexivity|].
  rewrite IH by (intros; apply Hext; now right).
  apply sort_insert_ext. intros y Hy. apply Hext; [now left|right].
  eapply Permutation_in; [apply Array_sort_perm|exact Hy].
Qed.
End Array_sort_facts.

(** Sorting by a rational key, largest first. *)
Section Descending.
Context {A : Type} (key : A -> Q).

Lemma descending_after (x y : A) :
  JS.gtb (descending key x y) (JS.of_N 0) = true <-> (key x < key y)%Q.
Proof.
  unfold descending, JS.gtb, JS.sub, JS.of_N, JS.of_Z, JS.ltb, JS.add, JS.opp.
  change (inject_Z (Z.of_N 0)) with 0%Q.
  rewrite negb_true_iff, <- not_true_iff_false, Qle_bool_iff.
  pose proof (binary64_pos (key y + - key x)) as Hsign. split.
  - intros Hle. apply Qnot_le_lt in Hle. apply Hsign in Hle. lra.
  - intros Hlt Hle. assert (0 < key y + - key x)%Q as Hpos by lra.
    apply Hsign in Hpos. lra.
Qed.

Lemma descending_not_after (x y : A) :
  JS.gtb (descending key x y) (JS.of_N 0) = false <-> (key y <= key x)%Q.
Proof.
  rewrite <- not_true_iff_false, descending_after. split.
  - apply Qnot_lt_le.
  - intros Hle Hlt. lra.
Qed.

Lemma sort_insert_descending x l :
  StronglySorted (fun a b => (key b <= key a)%Q) l ->
  StronglySorted (fun a b => (key b <= key a)%Q) (sort_insert (descending key) x l).
Proof.
  induction 1 as [|y l Hsorted IH Hall]; simpl.
  - repeat constructor.
  - destruct (JS.gtb (descending key x y) (JS.of_N 0)) eqn:Hcmp.
    + apply descending_after in Hcmp.
      constructor; [exact IH|].
      eapply Permutation_Forall; [symmetry; apply sort_insert_perm|].
      constructor; [lra|exact Hall].
    + apply descending_not_after in Hcmp.
      constructor; [now constructor|].
      constructor; [exact Hcmp|].
      eapply Forall_impl; [exact Hall|]. simpl. intros z Hz. lra.
Qed.

Lemma sort_insert_filter x l (q : Q) :
  List.filter (fun a => Qeq_bool (key a) q) (sort_insert (descending key) x l)
  = List.filter (fun a => Qeq_bool (key a) q) (x :: l).
Proof.
  induction l as [|y l IH]; [reflexivity|].
  cbn [sort_insert].
  destruct (JS.gtb (descending key x y) (JS.of_N 0)) eqn:Hcmp; [|reflexivity].
  apply descending_after in Hcmp.
  cbn [List.filter] in *. rewrite IH.
  destruct (Qeq_bool (key x) q) eqn:Hx; [|reflexivity].
  destruct (Qeq_bool (key y) q) eqn:Hy; [|reflexivity].
  apply Qeq_bool_iff in Hx, Hy. lra.
Qed.

Lemma Array_sort_descending l :
  stable_descending key l (Array_sort (descending key) l).
Proof.
  split; [apply Array_sort_perm|]. split.
  - induction l as [|x l IH]; simpl; [constructor|].
    now apply sort_insert_descending.
  - intros q. induction l as [|x l IH]; [reflexivity|].
    cbn [Array_sort fold_right]. rewrite sort_insert_filter.
    cbn [List.filter]. fold (Array_sort (descending key) l). now rewrite IH.
Qed.
End Descending.

Section Dict_facts.
Context {V : Type}.
Implicit Types (d : Dict.t V) (k : string) (v : V).

Lemma get_set_eq k v d : Dict.get k (Dict.set k v d) = Some v.
Proof.
  induction d as [|[k' v'] d IH]; simpl.
  - now rewrite String.eqb_refl.
  - destruct (String.eqb k' k) eqn:E; simpl; now rewrite E.
Qed.

Lemma get_set_ne k k' v d :
  k <> k' -> Dict.get k' (Dict.set k v d) = Dict.get k' d.
Proof.
  intros Hne. induction d as [|[k0 v0] d IH]; simpl.
  - destruct (String.eqb_spec k k'); [contradiction|reflexivity].
  - destruct (String.eqb_spec k0 k) as [->|Hk0]; simpl.
    + destruct (String.eqb_spec k k'); [contradiction|reflexivity].
    + now rewrite IH.
Qed.

Lemma get_Some_In k v d : Dict.get k d = Some v -> In (k, v) d.
Proof.
  induction d as [|[k' v'] d IH]; simpl; [discriminate|].
  destruct (String.eqb_spec k' k) as [->|Hne].
  - intros [= ->]. now left.
  - intros Hget. right. now apply IH.
Qed.

Lemma get_None_keys k d : Dict.get k d = None -> ~ In k (keys d).
Proof.
  induction d as [|[k' v'] d IH]; simpl; [tauto|].
  destruct (String.eqb_spec k' k) as [->|Hne]; [discriminate|].
  intros Hget [Heq|Hin]; [contradiction|]. now apply IH.
Qed.

Lemma keys_set_present k v v0 d :
  Dict.get k d = Some v0 -> keys (Dict.set k v d) = keys d.
Proof.
  induction d as [|[k' v'] d IH]; simpl; [discriminate|].
  destruct (String.eqb_spec k' k) as [->|Hne]; [reflexivity|].
  intros Hget. simpl. f_equal. now apply IH.
Qed.

Lemma keys_set_absent k v d :
  Dict.get k d = None -> keys (Dict.set k v d) = keys d ++ [k].
Proof.
  induction d as [|[k' v'] d IH]; simpl; [reflexivity|].
  destruct (String.eqb_spec k' k) as [->|Hne]; [discriminate|].
  intros Hget. simpl. f_equal. now apply IH.
Qed.

Lemma NoDup_keys_set k v d : NoDup (keys d) -> NoDup (keys (Dict.set k v d)).
Proof.
  intros Hnd. destruct (Dict.get k d) as [v0|] eqn:Hget.
  - now rewrite (keys_set_present _ _ _ _ Hget).
  - rewrite (keys_set_absent _ _ _ Hget).
    apply NoDup_app. repeat split; [exact Hnd| |apply NoDup_singleton].
    intros x Hx ->%list_elem_of_singleton. apply list_elem_of_In in Hx.
    now apply get_None_keys in Hget.
Qed.

Lemma Forall_set (P : string * V -> Prop) k v d :
  P (k, v) -> Forall P d -> Forall P (Dict.set k v d).
Proof.
  intros Hkv. induction 1 as [|[k' v'] d Hhead Htail IH]; simpl.
  - now repeat constructor.
  - destruct (String.eqb_spec k' k) as [->|Hne]; now constructor.
Qed.

Lemma own_properties_perm d : Permutation (Dict.own_properties d) d.
Proof.
  unfold Dict.own_properties. rewrite Array_sort_perm.
  induction d as [|e d IH]; simpl; [reflexivity|].
  destruct (Dict.is_index e); simpl.
  - now constructor.
  - rewrite <- Permutation_middle. now constructor.
Qed.
End Dict_facts.

(* ===================================================================== *)
(** * Aggregation: what the dictionary holds *)
(* ===================================================================== *)

Section Lookup_facts.
Implicit Types (l : list AggregatedPlayerStats.t) (k : string).

Lemma lookup_player_Some k l a :
  lookup_player k l = Some a -> In a l /\ AggregatedPlayerStats.steam_id a = k.
Proof.
  intros Hfind. apply find_some in Hfind as [Hin Heq].
  split; [exact Hin|]. now apply String.eqb_eq.
Qed.

Lemma lookup_player_In k l a :
  NoDup (List.map AggregatedPlayerStats.steam_id l) ->
  In a l -> AggregatedPlayerStats.steam_id a = k ->
  lookup_player k l = Some a.
Proof.
  induction l as [|b l IH]; simpl; [tauto|].
  intros Hnd Hin Hk. apply NoDup_cons in Hnd as [Hnotin Hnd].
  destruct (String.eqb_spec (AggregatedPlayerStats.steam_id b) k) as [Hb|Hb].
  - destruct Hin as [->|Hin]; [reflexivity|]. exfalso. apply Hnotin.
    apply list_elem_of_In, in_map_iff. exists a. split; [congruence|exact Hin].
  - destruct Hin as [->|Hin]; [contradiction|]. now apply IH.
Qed.

Lemma lookup_player_perm k l l' :
  NoDup (List.map AggregatedPlayerStats.steam_id l) ->
  Permutation l l' -> lookup_player k l = lookup_player k l'.
Proof.
  intros Hnd Hperm.
  assert (NoDup (List.map AggregatedPlayerStats.steam_id l')) as Hnd'.
  { eapply NoDup_Permutation_proper; [|exact Hnd].
    symmetry. now apply Permutation_map. }
  destruct (lookup_player k l) as [a|] eqn:Hl.
  - apply lookup_player_Some in Hl as [Hin Hk]. symmetry.
    apply lookup_player_In; [exact Hnd'| |exact Hk].
    eapply Permutation_in; [exact Hperm|exact Hin].
  - destruct (lookup_player k l') as [a|] eqn:Hl'; [|reflexivity].
    apply lookup_player_Some in Hl' as [Hin Hk].
    rewrite (lookup_player_In k l a) in Hl; [discriminate|exact Hnd| |exact Hk].
    eapply Permutation_in; [symmetry; exact Hperm|exact Hin].
Qed.
End Lookup_facts.

Lemma keyed_ids (d : Dict.t AggregatedPlayerStats.t) :
  keyed d -> List.map AggregatedPlayerStats.steam_id (List.map snd d) = keys d.
Proof.
  induction 1 as [|[k a] d Hhead _ IH]; simpl; [reflexivity|].
  simpl in Hhead. now rewrite Hhead, IH.
Qed.

Lemma lookup_player_entries (k : string) (d : Dict.t AggregatedPlayerStats.t) :
  keyed d -> lookup_player k (List.map snd d) = Dict.get k d.
Proof.
  induction 1 as [|[k' a] d Hhead _ IH]; simpl; [reflexivity|].
  simpl in Hhead. rewrite Hhead.
  destruct (String.eqb k' k); [reflexivity|exact IH].
Qed.

Lemma lookup_player_values (k : string) (d : Dict.t AggregatedPlayerStats.t) :
  keyed d -> NoDup (keys d) ->
  lookup_player k (Dict.values d) = Dict.get k d.
Proof.
  intros Hkeyed Hnd. rewrite <- (lookup_player_entries k d Hkeyed).
  symmetry. apply lookup_player_perm.
  - now rewrite keyed_ids.
  - unfold Dict.values. apply Permutation_map. symmetry.
    apply own_properties_perm.
Qed.

Lemma values_ids_NoDup (d : Dict.t AggregatedPlayerStats.t) :
  keyed d -> NoDup (keys d) ->
  NoDup (List.map AggregatedPlayerStats.steam_id (Dict.values d)).
Proof.
  intros Hkeyed Hnd. eapply NoDup_Permutation_proper.
  - unfold Dict.values. apply Permutation_map, Permutation_map.
    apply own_properties_perm.
  - now rewrite keyed_ids.
Qed.

(** One participant: the entry of its id is created if need be and
    accumulates the record; the other entries stay. *)
Lemma get_fold_player (k : string) (d : Dict.t AggregatedPlayerStats.t)
    (p : PlayerStats.t) :
  Dict.get k (fold_player d p)
  = if plays_as k p
    then Some (accumulate (default (new_entry k p) (Dict.get k d)) p)
    else Dict.get k d.
Proof.
  unfold fold_player, plays_as.
  set (s := toString (PlayerStats.steam_id p)).
  destruct (Dict.get s d) as [a|] eqn:Hget.
  - rewrite Hget. destruct (String.eqb_spec s k) as [<-|Hne].
    + now rewrite get_set_eq, Hget.
    + now rewrite get_set_ne.
  - rewrite get_set_eq. destruct (String.eqb_spec s k) as [<-|Hne].
    + now rewrite get_set_eq, Hget.
    + now rewrite !get_set_ne.
Qed.

Lemma fold_player_wf (d : Dict.t AggregatedPlayerStats.t) (p : PlayerStats.t) :
  keyed d /\ NoDup (keys d) ->
  keyed (fold_player d p) /\ NoDup (keys (fold_player d p)).
Proof.
  intros [Hkeyed Hnd]. unfold fold_player.
  set (s := toString (PlayerStats.steam_id p)).
  destruct (Dict.get s d) as [a|] eqn:Hget.
  - rewrite Hget. split; [|now apply NoDup_keys_set].
    apply Forall_set; [|exact Hkeyed]. simpl.
    apply get_Some_In, list_elem_of_In in Hget.
    unfold keyed in Hkeyed. rewrite Forall_forall in Hkeyed.
    exact (Hkeyed _ Hget).
  - rewrite get_set_eq. split; [|now do 2 apply NoDup_keys_set].
    apply Forall_set; [reflexivity|]. now apply Forall_set.
Qed.

Lemma fold_players_wf (ps : list PlayerStats.t)
    (d : Dict.t AggregatedPlayerStats.t) :
  keyed d /\ NoDup (keys d) ->
  keyed (fold_left fold_player ps d)
  /\ NoDup (keys (fold_left fold_player ps d)).
Proof.
  revert d. induction ps as [|p ps IH]; intros d Hwf; simpl; [exact Hwf|].
  now apply IH, fold_player_wf.
Qed.

Lemma playerMap_of_participants (matches : list Match.t) :
  playerMap_of matches = fold_left fold_player (participants matches) [].
Proof.
  unfold playerMap_of, participants. generalize (@nil (string * AggregatedPlayerStats.t)).
  induction matches as [|m ms IH]; intros d; simpl; [reflexivity|].
  now rewrite fold_left_app, IH.
Qed.

Lemma get_fold_players (k : string) (ps : list PlayerStats.t)
    (d : Dict.t AggregatedPlayerStats.t) :
  Dict.get k (fold_left fold_player ps d)
  = match List.filter (plays_as k) ps with
    | [] => Dict.get k d
    | p0 :: occs =>
        Some (fold_left accumulate (p0 :: occs)
                (default (new_entry k p0) (Dict.get k d)))
    end.
Proof.
  revert d. induction ps as [|p ps IH]; intros d; [reflexivity|].
  cbn [fold_left List.filter]. rewrite IH, get_fold_player.
  destruct (plays_as k p); [|reflexivity].
  now destruct (List.filter (plays_as k) ps).
Qed.

Lemma last_cons_default {A : Type} (x d : A) (l : list A) :
  List.last (x :: l) d = List.last l x.
Proof.
  revert x d. induction l as [|y l IH]; intros x d; [reflexivity|].
  change (List.last (x :: y :: l) d) with (List.last (y :: l) d).
  now rewrite !IH.
Qed.

(** A run of occurrences folded into a fresh entry gives the aggregate
    the specification describes. *)
Lemma fold_accumulate (k : string) (p0 : PlayerStats.t)
    (occs : list PlayerStats.t) :
  fold_left accumulate (p0 :: occs) (new_entry k p0)
  = aggregate_of k (p0 :: occs).
Proof.
  assert (forall l a,
    fold_left accumulate l a
    = {| AggregatedPlayerStats.steam_id := AggregatedPlayerStats.steam_id a;
         AggregatedPlayerStats.name :=
           List.last (List.map PlayerStats.name l) (AggregatedPlayerStats.name a);
         AggregatedPlayerStats.matches :=
           AggregatedPlayerStats.matches a + N.of_nat (List.length l);
         AggregatedPlayerStats.kills :=
           fold_left N.add (List.map PlayerStats.kills l)
                     (AggregatedPlayerStats.kills a);
         AggregatedPlayerStats.deaths :=
           fold_left N.add (List.map PlayerStats.deaths l)
                     (AggregatedPlayerStats.deaths a);
         AggregatedPlayerStats.assists :=
           fold_left N.add (List.map PlayerStats.assists l)
                     (AggregatedPlayerStats.assists a);
         AggregatedPlayerStats.rounds_played :=
           fold_left N.add (List.map PlayerStats.rounds_played l)
                     (AggregatedPlayerStats.rounds_played a);
         AggregatedPlayerStats.damage_total :=
           fold_left N.add (List.map PlayerStats.damage_total l)
                     (AggregatedPlayerStats.damage_total a);
         AggregatedPlayerStats.hltv_3_0_score :=
           fold_left (fun sum x => JS.binary64 (sum + x))
                     (List.map PlayerStats.hltv_3_0_score l)
                     (AggregatedPlayerStats.hltv_3_0_score a);
         AggregatedPlayerStats.sniper_kills :=
           fold_left N.add (List.map PlayerStats.sniper_kills l)
                     (AggregatedPlayerStats.sniper_kills a);
         AggregatedPlayerStats.utility_damage :=
           fold_left N.add (List.map PlayerStats.utility_damage l)
                     (AggregatedPlayerStats.utility_damage a);
         AggregatedPlayerStats.flashes_thrown :=
           fold_left N.add (List.map PlayerStats.flashes_thrown l)
                     (AggregatedPlayerStats.flashes_thrown a);
         AggregatedPlayerStats.opening_kills :=
           fold_left N.add (List.map PlayerStats.opening_kills l)
                     (AggregatedPlayerStats.opening_kills a);
         AggregatedPlayerStats.opening_deaths :=
           fold_left N.add (List.map PlayerStats.opening_deaths l)
                     (AggregatedPlayerStats.opening_deaths a);
         AggregatedPlayerStats.opening_attempts :=
           fold_left N.add (List.map PlayerStats.opening_attempts l)
                     (AggregatedPlayerStats.opening_attempts a);
         AggregatedPlayerStats.trade_kills :=
           fold_left N.add
             (List.map (fun p => default 0%N (PlayerStats.trade_kills p)) l)
             (AggregatedPlayerStats.trade_kills a);
         AggregatedPlayerStats.clutches_won :=
           fold_left N.add (List.map clutches l)
                     (AggregatedPlayerStats.clutches_won a) |}) as Hrun.
  { induction l as [|p l IH]; intros a.
    - destruct a; simpl. f_equal. lia.
    - cbn [fold_left]. rewrite IH. cbn [List.map List.length fold_left].
      rewrite last_cons_default. unfold accumulate at 1; simpl.
      f_equal. lia. }
  rewrite Hrun. unfold aggregate_of, new_entry.
  cbn [AggregatedPlayerStats.steam_id AggregatedPlayerStats.name
       AggregatedPlayerStats.matches].
  f_equal.
  cbn [List.map]. now rewrite !last_cons_default.
Qed.

Lemma playerMap_of_wf (matches : list Match.t) :
  keyed (playerMap_of matches) /\ NoDup (keys (playerMap_of matches)).
Proof.
  rewrite playerMap_of_participants. apply fold_players_wf.
  split; [constructor|apply NoDup_nil_2].
Qed.

Lemma aggregate_ids_NoDup (matches : list Match.t) :
  NoDup (List.map AggregatedPlayerStats.steam_id (aggregatePlayerStats matches)).
Proof.
  destruct (playerMap_of_wf matches) as [Hkeyed Hnd].
  now apply values_ids_NoDup.
Qed.

(** The entry of an id is the aggregate of its occurrences, and there is
    one as soon as there is an occurrence. *)
Lemma lookup_aggregate (k : string) (matches : list Match.t) :
  lookup_player k (aggregatePlayerStats matches)
  = match occurrences k matches with
    | [] => None
    | _ :: _ => Some (aggregate_of k (occurrences k matches))
    end.
Proof.
  destruct (playerMap_of_wf matches) as [Hkeyed Hnd].
  unfold aggregatePlayerStats. rewrite lookup_player_values by assumption.
  rewrite playerMap_of_participants, get_fold_players.
  unfold occurrences.
  destruct (List.filter (plays_as k) (participants matches)) as [|p0 occs];
    [reflexivity|].
  simpl Dict.get. cbn [default]. now rewrite fold_accumulate.
Qed.

Lemma occurrences_In (k : string) (matches : list Match.t) (p : PlayerStats.t) :
  In p (occurrences k matches)
  <-> In p (participants matches) /\ toString (PlayerStats.steam_id p) = k.
Proof.
  unfold occurrences, plays_as. rewrite filter_In, String.eqb_eq. tauto.
Qed.

Lemma aggregate_In (matches : list Match.t) (a : AggregatedPlayerStats.t) :
  In a (aggregatePlayerStats matches)
  <-> exists p, In p (participants matches)
        /\ a = aggregate_of (toString (PlayerStats.steam_id p))
                 (occurrences (toString (PlayerStats.steam_id p)) matches).
Proof.
  split.
  - intros Hin.
    pose proof (lookup_player_In _ _ _ (aggregate_ids_NoDup matches) Hin eq_refl)
      as Hlook.
    rewrite lookup_aggregate in Hlook.
    destruct (occurrences (AggregatedPlayerStats.steam_id a) matches)
      as [|p0 occs] eqn:Hocc; [discriminate|].
    injection Hlook as Ha.
    assert (In p0 (occurrences (AggregatedPlayerStats.steam_id a) matches))
      as Hp0 by (rewrite Hocc; now left).
    apply occurrences_In in Hp0 as [Hp0 Hk].
    exists p0. split; [exact Hp0|]. now rewrite Hk, Hocc.
  - intros (p & Hp & ->).
    set (k := toString (PlayerStats.steam_id p)).
    pose proof (lookup_aggregate k matches) as Hlook.
    assert (In p (occurrences k matches)) as Hocc
      by (apply occurrences_In; now split).
    destruct (occurrences k matches) as [|p0 occs] eqn:E; [destruct Hocc|].
    now apply lookup_player_Some in Hlook as [Hin _].
Qed.

(** An aggregated player has played: the counter is positive. *)
Lemma aggregate_played (matches : list Match.t) (a : AggregatedPlayerStats.t) :
  In a (aggregatePlayerStats matches) ->
  (0 < AggregatedPlayerStats.matches a)%N.
Proof.
  intros (p & Hp & ->)%aggregate_In.
  set (k := toString (PlayerStats.steam_id p)).
  assert (In p (occurrences k matches)) as Hocc
    by (apply occurrences_In; now split).
  destruct (occurrences k matches); [destruct Hocc|]. simpl. lia.
Qed.

(** ** Reordering the matches *)

Lemma filter_perm {A : Type} (f : A -> bool) (l l' : list A) :
  Permutation l l' -> Permutation (List.filter f l) (List.filter f l').
Proof.
  induction 1 as [|x l l' _ IH|x y l|l l' l'' _ IH1 _ IH2]; simpl.
  - reflexivity.
  - destruct (f x); [now constructor|exact IH].
  - destruct (f x), (f y); try reflexivity. apply perm_swap.
  - now rewrite IH1.
Qed.

Lemma occurrences_perm (k : string) (matches matches' : list Match.t) :
  Permutation matches matches' ->
  Permutation (occurrences k matches) (occurrences k matches').
Proof.
  intros Hperm. unfold occurrences, participants.
  now apply filter_perm, Permutation_flat_map.
Qed.

Lemma counters_aggregate_perm (k : string) (occs occs' : list PlayerStats.t) :
  Permutation occs occs' ->
  counters (aggregate_of k occs) = counters (aggregate_of k occs').
Proof.
  intros Hperm. unfold counters, aggregate_of; simpl.
  f_equal;
    try (apply sum_N_perm; now apply Permutation_map);
    try (apply sum_Q_perm; now apply Permutation_map).
  f_equal. now apply Permutation_length.
Qed.

Lemma lookup_counters_perm (k : string) (matches matches' : list Match.t) :
  Permutation matches matches' ->
  counters <$> lookup_player k (aggregatePlayerStats matches)
  = counters <$> lookup_player k (aggregatePlayerStats matches').
Proof.
  intros Hperm. rewrite !lookup_aggregate.
  pose proof (occurrences_perm k _ _ Hperm) as Hocc.
  destruct (occurrences k matches) as [|p occs] eqn:E,
           (occurrences k matches') as [|p' occs'] eqn:E'.
  - reflexivity.
  - apply Permutation_nil in Hocc. discriminate.
  - symmetry in Hocc. apply Permutation_nil in Hocc. discriminate.
  - simpl. f_equal. now apply counters_aggregate_perm.
Qed.

Lemma NoDup_map_inv {A B : Type} (f : A -> B) (l : list A) :
  NoDup (List.map f l) -> NoDup l.
Proof.
  induction l as [|x l IH]; simpl; intros Hnd; [apply NoDup_nil_2|].
  apply NoDup_cons in Hnd as [Hx Hnd]. apply NoDup_cons. split; [|now apply IH].
  intros Hin. apply Hx. apply list_elem_of_In, in_map. now apply list_elem_of_In.
Qed.

Lemma counters_ids (l : list AggregatedPlayerStats.t) :
  List.map AggregatedPlayerStats.steam_id (List.map counters l)
  = List.map AggregatedPlayerStats.steam_id l.
Proof. rewrite List.map_map. reflexivity. Qed.

Lemma participants_perm (matches matches' : list Match.t) :
  Permutation matches matches' ->
  Permutation (participants matches) (participants matches').
Proof. apply Permutation_flat_map. Qed.

Lemma aggregate_counters_perm (matches matches' : list Match.t) :
  Permutation matches matches' ->
  Permutation (List.map counters (aggregatePlayerStats matches))
              (List.map counters (aggregatePlayerStats matches')).
Proof.
  intros Hperm.
  assert (forall ms ms', Permutation ms ms' ->
            forall x, In x (List.map counters (aggregatePlayerStats ms)) ->
                      In x (List.map counters (aggregatePlayerStats ms'))) as Hincl.
  { intros ms ms' Hp x (a & <- & Ha)%in_map_iff.
    apply aggregate_In in Ha as (p & Hp0 & ->).
    apply in_map_iff.
    exists (aggregate_of (toString (PlayerStats.steam_id p))
              (occurrences (toString (PlayerStats.steam_id p)) ms')).
    split.
    - apply counters_aggregate_perm. symmetry. now apply occurrences_perm.
    - apply aggregate_In. exists p. split; [|reflexivity].
      eapply Permutation_in; [apply participants_perm; exact Hp|exact Hp0]. }
  apply NoDup_Permutation.
  - apply (NoDup_map_inv AggregatedPlayerStats.steam_id).
    rewrite counters_ids. apply aggregate_ids_NoDup.
  - apply (NoDup_map_inv AggregatedPlayerStats.steam_id).
    rewrite counters_ids. apply aggregate_ids_NoDup.
  - intros x. rewrite !list_elem_of_In. split.
    + now apply Hincl.
    + apply Hincl. now symmetry.
Qed.

(** C4. Aggregation yields exactly one aggregate per distinct normalized
    steam id: the ids of the result are pairwise distinct, they are the
    normalized ids of the participants of the matches, and the aggregate
    of an id is [aggregate_of] its occurrences, that is: [matches] counts
    the occurrences, every counting stat is the sum over them (an absent
    trade-kill or clutch field counting 0), [clutches_won] sums the five
    clutch brackets, and [name] is that of the last occurrence in fold
    order. *)
Theorem aggregate_one_per_steam_id (matches : list Match.t) :
  NoDup (List.map AggregatedPlayerStats.steam_id (aggregatePlayerStats matches))
  /\ (forall k : string,
        In k (List.map AggregatedPlayerStats.steam_id
                (aggregatePlayerStats matches))
        <-> exists p, In p (participants matches)
                      /\ toString (PlayerStats.steam_id p) = k)
  /\ (forall a, In a (aggregatePlayerStats matches) ->
        occurrences (AggregatedPlayerStats.steam_id a) matches <> []
        /\ a = aggregate_of (AggregatedPlayerStats.steam_id a)
                 (occurrences (AggregatedPlayerStats.steam_id a) matches)).
Proof.
  split; [apply aggregate_ids_NoDup|]. split.
  - intros k. rewrite in_map_iff. split.
    + intros (a & <- & (p & Hp & ->)%aggregate_In).
      exists p. split; [exact Hp|reflexivity].
    + intros (p & Hp & <-).
      eexists. split; [|apply aggregate_In; exists p; split; [exact Hp|reflexivity]].
      reflexivity.
  - intros a (p & Hp & ->)%aggregate_In. simpl. split; [|reflexivity].
    intros Hnil.
    assert (In p (occurrences (toString (PlayerStats.steam_id p)) matches)) as Hin
      by (apply occurrences_In; now split).
    rewrite Hnil in Hin. destruct Hin.
Qed.

(** C8 (amended). On a permutation of the match list every player keeps
    the same match counter and the same sums of counts: entry by entry,
    and as a collection.  The summed rating is not among them: it is a
    sum of binary64 numbers taken in match order, and a reordering can
    change its last bit.  It is unchanged, with the name and the whole
    aggregate of the player, when the reordering keeps the occurrences of
    the player in their order. *)
Theorem aggregate_order_independent (matches matches' : list Match.t) :
  Permutation matches matches' ->
  (forall k : string,
     counters <$> lookup_player k (aggregatePlayerStats matches)
     = counters <$> lookup_player k (aggregatePlayerStats matches'))
  /\ Permutation (List.map counters (aggregatePlayerStats matches))
                 (List.map counters (aggregatePlayerStats matches'))
  /\ (forall k : string,
        occurrences k matches = occurrences k matches' ->
        lookup_player k (aggregatePlayerStats matches)
        = lookup_player k (aggregatePlayerStats matches')).
Proof.
  intros Hperm. split; [|split].
  - intros k. now apply lookup_counters_perm.
  - now apply aggregate_counters_perm.
  - intros k Hocc. rewrite !lookup_aggregate. now rewrite Hocc.
Qed.

(** C8, as the specification has it, fails for the summed rating: one
    player rated 0.1, 0.2 and 0.3 in three matches sums to
    0.6000000000000001 in this order and to 0.6 in the reverse order. *)
Lemma rating_sum_order_dependent :
  Permutation [rated_01; rated_02; rated_03] [rated_03; rated_02; rated_01]
  /\ AggregatedPlayerStats.hltv_3_0_score
       <$> lookup_player "76561198000000040"
             (aggregatePlayerStats [rated_01; rated_02; rated_03])
     = Some (1351079888211149 # 2251799813685248)%Q
  /\ AggregatedPlayerStats.hltv_3_0_score
       <$> lookup_player "76561198000000040"
             (aggregatePlayerStats [rated_03; rated_02; rated_01])
     = Some (5404319552844595 # 9007199254740992)%Q
  /\ ~ (forall matches matches' : list Match.t,
          Permutation matches matches' ->
          forall k : string,
            AggregatedPlayerStats.hltv_3_0_score
              <$> lookup_player k (aggregatePlayerStats matches)
            = AggregatedPlayerStats.hltv_3_0_score
                <$> lookup_player k (aggregatePlayerStats matches')).
Proof.
  assert (Permutation [rated_01; rated_02; rated_03]
                      [rated_03; rated_02; rated_01]) as Hperm.
  { change [rated_03; rated_02; rated_01]
      with (rev [rated_01; rated_02; rated_03]). apply Permutation_rev. }
  split; [exact Hperm|]. split; [vm_compute; reflexivity|].
  split; [vm_compute; reflexivity|].
  intros Hall. specialize (Hall _ _ Hperm "76561198000000040").
  vm_compute in Hall. discriminate.
Qed.

(* ===================================================================== *)
(** * Derived metrics *)
(* ===================================================================== *)

Section JS_facts.
Implicit Types (a b : Q) (n : N).

Lemma Qof_pos n : (0 < n)%N -> (0 < Qof n)%Q.
Proof.
  intros Hn. unfold Qof. change 0%Q with (inject_Z 0).
  rewrite <- Zlt_Qlt. lia.
Qed.

Lemma Qof_nonneg n : (0 <= Qof n)%Q.
Proof.
  unfold Qof. change 0%Q with (inject_Z 0). rewrite <- Zle_Qle. lia.
Qed.

Lemma div_finite a b :
  ~ (b == 0)%Q -> JS.div (JS.Fin a) (JS.Fin b) = JS.Fin (quotient a b).
Proof.
  intros Hb. unfold JS.div.
  destruct (Qeq_bool b 0) eqn:E; [|reflexivity].
  now apply Qeq_bool_iff in E.
Qed.

Lemma div_count a n :
  (0 < n)%N -> JS.div (JS.Fin a) (JS.of_N n) = JS.Fin (quotient a (Qof n)).
Proof.
  intros Hn. apply div_finite. apply Qof_pos in Hn. intros Hz. lra.
Qed.

Lemma div_zero_count n :
  JS.div (JS.of_N n) (JS.of_N 0) = if (n =? 0)%N then JS.NaN else JS.PosInf.
Proof.
  unfold JS.div, JS.of_N, JS.of_Z. cbn [Z.of_N].
  change (Qeq_bool (inject_Z 0) 0) with true. cbv iota.
  destruct n as [|p]; reflexivity.
Qed.

Lemma leb_finite a b : JS.leb (JS.Fin a) (JS.Fin b) = true <-> (a <= b)%Q.
Proof.
  unfold JS.leb, JS.ltb, JS.eqb.
  rewrite orb_true_iff, negb_true_iff, <- not_true_iff_false,
          Qle_bool_iff, Qeq_bool_iff.
  split.
  - intros [Hlt|Heq]; [apply Qlt_le_weak, Qnot_le_lt, Hlt|lra].
  - intros Hle. destruct (Qlt_le_dec a b) as [Hlt|Hge].
    + left. intros Hba. lra.
    + right. lra.
Qed.

Lemma gtb_finite a b : JS.gtb (JS.Fin a) (JS.Fin b) = true <-> (b < a)%Q.
Proof.
  unfold JS.gtb, JS.ltb.
  rewrite negb_true_iff, <- not_true_iff_false, Qle_bool_iff. split.
  - apply Qnot_le_lt.
  - intros Hlt Hle. lra.
Qed.
End JS_facts.






(** Without kills the sniping score divides by zero: it is NaN, or 100
    when the record nevertheless counts sniper kills. *)
Lemma snipingScore_without_kills (stats : AggregatedPlayerStats.t) :
  AggregatedPlayerStats.kills stats = 0%N ->
  PlayerProfile.snipingScore stats
  = if (AggregatedPlayerStats.sniper_kills stats =? 0)%N
    then JS.NaN else JS.of_N 100.
Proof.
  intros Hzero. unfold PlayerProfile.snipingScore. rewrite Hzero, div_zero_count.
  now destruct (AggregatedPlayerStats.sniper_kills stats =? 0)%N.
Qed.

(** The ADR cell of a record without rounds is not a number. *)
Lemma MatchViewer_adr_without_rounds (p : PlayerStats.t) :
  PlayerStats.rounds_played p = 0%N ->
  MatchViewer.adr p
  = if (PlayerStats.damage_total p =? 0)%N then "NaN" else "Infinity".
Proof.
  intros Hzero. unfold MatchViewer.adr. rewrite Hzero, div_zero_count.
  now destruct (PlayerStats.damage_total p =? 0)%N.
Qed.

(** C1 (the code departs from it). The sniping score of a player whose
    matches hold no kill is NaN, not 0, and the ADR cell of a match record
    without rounds reads "NaN": two divisions the source leaves unguarded,
    where the neighbouring ones ([entryScore], [adr], [kpr]) test the
    denominator first, as the ADR of the profile page does on the same
    record. *)
Theorem zero_denominator_unguarded :
  PlayerProfile.snipingScore
    <$> PlayerProfile.playerAggregatedStats [idle_match] "76561198000000001"
  = Some JS.NaN
  /\ MatchViewer.adr absent_player = "NaN"
  /\ PlayerProfile.adr
       <$> PlayerProfile.playerAggregatedStats [idle_match] "76561198000000002"
     = Some "0.0".
Proof. repeat split; vm_compute; reflexivity. Qed.

(** C7. The rate stats of an aggregated player are the quotients of the
    sums, as the language computes a quotient (rounded to binary64),
    printed with two decimals (one for ADR): kills, deaths, assists and
    damage over the rounds played (and 0 without rounds), the summed
    rating over the matches; K/D is kills over deaths when there are
    deaths and the kill count itself when there are none, so that 10
    kills without a death read "10.00". *)
Theorem rate_stats (stats : AggregatedPlayerStats.t) :
  let kills := Qof (AggregatedPlayerStats.kills stats) in
  let deaths := Qof (AggregatedPlayerStats.deaths stats) in
  let assists := Qof (AggregatedPlayerStats.assists stats) in
  let rounds := Qof (AggregatedPlayerStats.rounds_played stats) in
  let damage := Qof (AggregatedPlayerStats.damage_total stats) in
  let score := AggregatedPlayerStats.hltv_3_0_score stats in
  let played := Qof (AggregatedPlayerStats.matches stats) in
  ((0 < AggregatedPlayerStats.rounds_played stats)%N ->
     PlayerProfile.kpr stats = JS.toFixed (JS.Fin (quotient kills rounds)) 2
     /\ PlayerProfile.dpr stats = JS.toFixed (JS.Fin (quotient deaths rounds)) 2
     /\ PlayerProfile.apr stats = JS.toFixed (JS.Fin (quotient assists rounds)) 2
     /\ PlayerProfile.adr stats = JS.toFixed (JS.Fin (quotient damage rounds)) 1
     /\ SortableTable.kpr stats = JS.Fin (quotient kills rounds)
     /\ SortableTable.adr stats = JS.Fin (quotient damage rounds))
  /\ (AggregatedPlayerStats.rounds_played stats = 0%N ->
     PlayerProfile.kpr stats = "0.00" /\ PlayerProfile.dpr stats = "0.00"
     /\ PlayerProfile.apr stats = "0.00" /\ PlayerProfile.adr stats = "0.0"
     /\ SortableTable.kpr stats = JS.of_N 0
     /\ SortableTable.adr stats = JS.of_N 0)
  /\ ((0 < AggregatedPlayerStats.matches stats)%N ->
     PlayerProfile.rating stats = JS.toFixed (JS.Fin (quotient score played)) 2
     /\ SortableTable.rating stats = JS.Fin (quotient score played)
     /\ TeamBuilder.averageRating stats = JS.Fin (quotient score played))
  /\ ((0 < AggregatedPlayerStats.deaths stats)%N ->
     PlayerProfile.kd stats = JS.toFixed (JS.Fin (quotient kills deaths)) 2
     /\ SortableTable.kd stats = JS.Fin (quotient kills deaths))
  /\ (AggregatedPlayerStats.deaths stats = 0%N ->
     PlayerProfile.kd stats = JS.toFixed (JS.Fin kills) 2
     /\ SortableTable.kd stats = JS.Fin kills)
  /\ (AggregatedPlayerStats.kills stats = 10%N ->
      AggregatedPlayerStats.deaths stats = 0%N ->
      PlayerProfile.kd stats = "10.00").
Proof.
  cbv zeta. repeat apply conj.
  - intros Hpos.
    unfold PlayerProfile.kpr, PlayerProfile.dpr, PlayerProfile.apr,
           PlayerProfile.adr, SortableTable.kpr, SortableTable.adr.
    apply N.ltb_lt in Hpos as Hltb. rewrite Hltb.
    destruct (N.eqb_spec (AggregatedPlayerStats.rounds_played stats) 0) as [E|_];
      [lia|].
    unfold JS.of_N at 1 3 5 7 9 11, JS.of_Z.
    rewrite !div_count by exact Hpos. repeat split; reflexivity.
  - intros Hzero.
    unfold PlayerProfile.kpr, PlayerProfile.dpr, PlayerProfile.apr,
           PlayerProfile.adr, SortableTable.kpr, SortableTable.adr.
    rewrite Hzero. repeat split; reflexivity.
  - intros Hpos.
    unfold PlayerProfile.rating, SortableTable.rating, TeamBuilder.averageRating.
    apply N.ltb_lt in Hpos as Hltb. rewrite Hltb.
    destruct (N.eqb_spec (AggregatedPlayerStats.matches stats) 0) as [E|_];
      [lia|].
    rewrite !div_count by exact Hpos. repeat split; reflexivity.
  - intros Hpos. unfold PlayerProfile.kd, SortableTable.kd.
    apply N.ltb_lt in Hpos as Hltb. rewrite Hltb.
    unfold JS.of_N at 1 3, JS.of_Z.
    rewrite !div_count by exact Hpos. split; reflexivity.
  - intros Hzero. unfold PlayerProfile.kd, SortableTable.kd.
    rewrite Hzero. split; reflexivity.
  - intros Hk Hd. unfold PlayerProfile.kd. rewrite Hk, Hd. reflexivity.
Qed.

(* ===================================================================== *)
(** * Duel reconciliation *)
(* ===================================================================== *)

Lemma existsb_find {A : Type} (f : A -> bool) (l : list A) :
  existsb f l = match List.find f l with Some _ => true | None => false end.
Proof.
  induction l as [|x l IH]; simpl; [reflexivity|].
  destruct (f x); [reflexivity|exact IH].
Qed.

(** Both players appear exactly when both lookups of the loop succeed. *)
Lemma contribution_records (idA idB : string) (m : Match.t) :
  contribution idA idB m
  = match Duels.findData idA m, Duels.findData idB m with
    | Some a, Some b =>
        match duel_record idA idB a b with
        | PreferA d => Some (DuelData.kills d, DuelData.deaths d)
        | FallbackB d => Some (DuelData.deaths d, DuelData.kills d)
        | NoRecord => None
        end
    | _, _ => None
    end.
Proof.
  unfold contribution, participant, record_of. rewrite !existsb_find.
  change (List.find (plays_as idA) (Match.data m)) with (Duels.findData idA m).
  change (List.find (plays_as idB) (Match.data m)) with (Duels.findData idB m).
  destruct (Duels.findData idA m), (Duels.findData idB m); reflexivity.
Qed.

(** One step of the loop adds the contribution of the match, if any. *)
Lemma visit_contribution (idA idB : string) (acc : Duels.totals) (m : Match.t) :
  match contribution idA idB m with
  | Some (ka, kb) =>
      exists e, entry_score e = (m, ka, kb)
        /\ Duels.visit idA idB acc m
           = {| Duels.acc_p1Kills := Duels.acc_p1Kills acc + ka;
                Duels.acc_p2Kills := Duels.acc_p2Kills acc + kb;
                Duels.acc_history := Duels.acc_history acc ++ [e] |}
  | None => Duels.visit idA idB acc m = acc
  end.
Proof.
  rewrite contribution_records. unfold Duels.visit, duel_record.
  destruct (Duels.findData idA m) as [a|]; [|reflexivity].
  destruct (Duels.findData idB m) as [b|]; [|reflexivity].
  destruct (PlayerStats.duels a !! idB) as [d|].
  - eexists. split; [|reflexivity]. reflexivity.
  - destruct (PlayerStats.duels b !! idA) as [d|]; [|reflexivity].
    eexists. split; [|reflexivity]. reflexivity.
Qed.

Lemma fold_visit (idA idB : string) (matches : list Match.t)
    (acc : Duels.totals) :
  let r := fold_left (Duels.visit idA idB) matches acc in
  Duels.acc_p1Kills r
  = fold_left N.add (List.map (fun t => snd (fst t)) (contributing idA idB matches))
              (Duels.acc_p1Kills acc)
  /\ Duels.acc_p2Kills r
     = fold_left N.add (List.map snd (contributing idA idB matches))
                 (Duels.acc_p2Kills acc)
  /\ List.map entry_score (Duels.acc_history r)
     = List.map entry_score (Duels.acc_history acc) ++ contributing idA idB matches.
Proof.
  revert acc. induction matches as [|m ms IH]; intros acc; cbn zeta.
  - simpl. now rewrite app_nil_r.
  - cbn [fold_left].
    assert (contributing idA idB (m :: ms)
            = match contribution idA idB m with
              | Some (ka, kb) => [(m, ka, kb)]
              | None => []
              end ++ contributing idA idB ms) as -> by reflexivity.
    pose proof (visit_contribution idA idB acc m) as Hvisit.
    destruct (contribution idA idB m) as [[ka kb]|].
    + destruct Hvisit as (e & He & ->).
      destruct (IH {| Duels.acc_p1Kills := Duels.acc_p1Kills acc + ka;
                      Duels.acc_p2Kills := Duels.acc_p2Kills acc + kb;
                      Duels.acc_history := Duels.acc_history acc ++ [e] |})
        as (IH1 & IH2 & IH3).
      cbn zeta in IH1, IH2, IH3. rewrite IH1, IH2, IH3. cbn.
      rewrite List.map_app. cbn. rewrite He, <- app_assoc. repeat split.
    + rewrite Hvisit. exact (IH acc).
Qed.

(** C2. For two ids that resolve, the reconciliation returns a result
    whose totals are the sums, over the matches in which both ids appear
    as participants, of what each match contributes: the kills and deaths
    of A's own entry for B when there is one, else the deaths and kills of
    B's entry for A, else nothing; and whose history holds exactly the
    contributing matches with their two scores. *)
Theorem duel_reconciliation (allPlayers : list AggregatedPlayerStats.t)
    (matches : list Match.t) (idA idB : string)
    (a b : AggregatedPlayerStats.t) :
  idA <> "" -> idB <> "" ->
  resolve allPlayers (Some idA) = Some a ->
  resolve allPlayers (Some idB) = Some b ->
  exists r,
    Duels.duelStats allPlayers matches (Some idA) (Some idB) = Some r
    /\ Duels.p1 r = a /\ Duels.p2 r = b
    /\ Duels.p1Kills r
       = sum_N (List.map (fun t => snd (fst t)) (contributing idA idB matches))
    /\ Duels.p2Kills r = sum_N (List.map snd (contributing idA idB matches))
    /\ Permutation (List.map entry_score (Duels.history r))
                   (contributing idA idB matches).
Proof.
  intros HA HB Ha Hb. unfold Duels.duelStats.
  assert (Duels.unset (Some idA) = false) as ->
    by (destruct idA; [contradiction|reflexivity]).
  assert (Duels.unset (Some idB) = false) as ->
    by (destruct idB; [contradiction|reflexivity]).
  cbn [orb].
  change (TeamBuilder.findPlayer allPlayers idA) with (resolve allPlayers (Some idA)).
  change (TeamBuilder.findPlayer allPlayers idB) with (resolve allPlayers (Some idB)).
  rewrite Ha, Hb. eexists. split; [reflexivity|]. cbn [Duels.p1 Duels.p2
    Duels.p1Kills Duels.p2Kills Duels.history].
  destruct (fold_visit idA idB matches
              {| Duels.acc_p1Kills := 0; Duels.acc_p2Kills := 0;
                 Duels.acc_history := [] |}) as (H1 & H2 & H3).
  cbn zeta in H1, H2, H3. simpl in H3.
  repeat split; [exact H1|exact H2|].
  rewrite <- H3. apply Permutation_map, Array_sort_perm.
Qed.

(** C9. When one of the two selected ids does not resolve to an aggregated
    player (or is not set), there is no result: [null], and no error. *)
Theorem duel_unresolved (allPlayers : list AggregatedPlayerStats.t)
    (matches : list Match.t) (player1Id player2Id : option string) :
  resolve allPlayers player1Id = None \/ resolve allPlayers player2Id = None ->
  Duels.duelStats allPlayers matches player1Id player2Id = None.
Proof.
  intros Hcase. unfold Duels.duelStats.
  destruct (Duels.unset player1Id || Duels.unset player2Id); [reflexivity|].
  destruct player1Id as [id1|]; [|reflexivity].
  destruct player2Id as [id2|]; [|reflexivity].
  change (TeamBuilder.findPlayer allPlayers id1) with (resolve allPlayers (Some id1)).
  change (TeamBuilder.findPlayer allPlayers id2) with (resolve allPlayers (Some id2)).
  destruct Hcase as [-> | ->]; [reflexivity|].
  now destruct (resolve allPlayers (Some id1)).
Qed.

(* ===================================================================== *)
(** * Team balancing *)
(* ===================================================================== *)

Lemma In_defined {A : Type} (l : list (option A)) (x : A) :
  In x (TeamBuilder.defined l) <-> In (Some x) l.
Proof.
  unfold TeamBuilder.defined. rewrite in_flat_map. split.
  - intros ([y|] & Hin & Hx); simpl in Hx; [|destruct Hx].
    destruct Hx as [->|[]]. exact Hin.
  - intros Hin. exists (Some x). split; [exact Hin|now left].
Qed.

Lemma NoDup_List_filter {A : Type} (f : A -> bool) (l : list A) :
  NoDup l -> NoDup (List.filter f l).
Proof.
  induction 1 as [|x l Hx Hnd IH]; simpl; [apply NoDup_nil_2|].
  destruct (f x); [|exact IH]. apply NoDup_cons. split; [|exact IH].
  rewrite list_elem_of_In, filter_In. intros [Hin _]. apply Hx.
  now apply list_elem_of_In.
Qed.

Lemma filter3_perm {A : Type} (f1 f2 f3 : A -> bool) (l : list A) :
  (forall x, In x l ->
     (f1 x = true /\ f2 x = false /\ f3 x = false)
     \/ (f1 x = false /\ f2 x = true /\ f3 x = false)
     \/ (f1 x = false /\ f2 x = false /\ f3 x = true)) ->
  Permutation (List.filter f1 l ++ List.filter f2 l ++ List.filter f3 l) l.
Proof.
  induction l as [|x l IH]; intros Hcases; [reflexivity|].
  assert (Permutation (List.filter f1 l ++ List.filter f2 l ++ List.filter f3 l) l)
    as IH' by (apply IH; intros; apply Hcases; now right).
  simpl. destruct (Hcases x (or_introl eq_refl))
    as [(-> & -> & ->)|[(-> & -> & ->)|(-> & -> & ->)]]; simpl.
  - now constructor.
  - rewrite <- Permutation_middle. now constructor.
  - rewrite app_assoc, <- Permutation_middle, <- app_assoc. now constructor.
Qed.

Section Balancer_facts.
Variable allPlayers : list AggregatedPlayerStats.t.
Variable st : TeamBuilder.state.

Let active := TeamBuilder.activePlayers allPlayers st.

Lemma findPlayer_Some (id : string) (p : AggregatedPlayerStats.t) :
  TeamBuilder.findPlayer allPlayers id = Some p ->
  In p allPlayers /\ AggregatedPlayerStats.steam_id p = id.
Proof. apply lookup_player_Some. Qed.

Lemma active_In (p : AggregatedPlayerStats.t) :
  In p active ->
  In p allPlayers
  /\ In (AggregatedPlayerStats.steam_id p) (TeamBuilder.lobbyPlayers st)
  /\ ~ pinned_to st Bench p.
Proof.
  unfold active, TeamBuilder.activePlayers.
  rewrite In_defined, in_map_iff. intros (id & Hfind & Hid).
  apply findPlayer_Some in Hfind as [Hin <-].
  apply filter_In in Hid as [Hlobby Hbench].
  repeat split; [exact Hin|exact Hlobby|].
  apply negb_true_iff, bool_decide_eq_false in Hbench. exact Hbench.
Qed.

Lemma resolved_ids_incl (ids : list string) (k : string) :
  In k (List.map AggregatedPlayerStats.steam_id
          (TeamBuilder.defined
             (List.map (TeamBuilder.findPlayer allPlayers) ids))) ->
  In k ids.
Proof.
  rewrite in_map_iff. intros (p & <- & Hp).
  apply In_defined, in_map_iff in Hp as (id & Hfind & Hid).
  apply findPlayer_Some in Hfind as [_ ->]. exact Hid.
Qed.

Lemma resolved_ids_NoDup (ids : list string) :
  NoDup ids ->
  NoDup (List.map AggregatedPlayerStats.steam_id
           (TeamBuilder.defined
              (List.map (TeamBuilder.findPlayer allPlayers) ids))).
Proof.
  induction 1 as [|id ids Hid Hnd IH]; simpl; [apply NoDup_nil_2|].
  destruct (TeamBuilder.findPlayer allPlayers id) as [p|] eqn:Hfind;
    simpl; [|exact IH].
  apply findPlayer_Some in Hfind as [_ Hp]. rewrite Hp.
  apply NoDup_cons. split; [|exact IH].
  intros Hin%list_elem_of_In%resolved_ids_incl. apply Hid.
  now apply list_elem_of_In.
Qed.

(** Distinct ids in the lobby resolve to distinct active players. *)
Lemma active_NoDup :
  NoDup (TeamBuilder.lobbyPlayers st) -> NoDup active.
Proof.
  intros Hnd. apply (NoDup_map_inv AggregatedPlayerStats.steam_id).
  apply resolved_ids_NoDup. now apply NoDup_List_filter.
Qed.

(** An active player is pinned to one of the teams or left to the
    balancer: the three lists the source filters make up the roster. *)
Lemma active_split :
  Permutation (pinned_members st Team1 active
               ++ pinned_members st Team2 active
               ++ unpinned_members st active)
              active.
Proof.
  apply filter3_perm. intros p Hp. apply active_In in Hp as (_ & _ & Hbench).
  unfold pinned_to in Hbench.
  destruct (TeamBuilder.manualAssignments st !! AggregatedPlayerStats.steam_id p)
    as [[| |]|] eqn:E;
    [left|right; left|contradiction|right; right];
    repeat split;
    (apply bool_decide_eq_true || apply bool_decide_eq_false);
    unfold pinned_to, unpinned; rewrite E; congruence.
Qed.
End Balancer_facts.

Section Greedy_facts.
Variable teamSize : nat.
Implicit Types (t : TeamBuilder.teams) (p : AggregatedPlayerStats.t).

Let size t : nat :=
  (List.length (TeamBuilder.team1 t) + List.length (TeamBuilder.team2 t))%nat.

(** The three outcomes of one step of the loop. *)
Lemma place_cases t p :
  ((List.length (TeamBuilder.team1 t) < teamSize)%nat
   /\ (JS.leb (TeamBuilder.teamRating (TeamBuilder.team1 t))
              (TeamBuilder.teamRating (TeamBuilder.team2 t)) = true
       \/ (teamSize <= List.length (TeamBuilder.team2 t))%nat)
   /\ TeamBuilder.place teamSize t p
      = TeamBuilder.mkTeams (TeamBuilder.team1 t ++ [p]) (TeamBuilder.team2 t))
  \/ (~ ((List.length (TeamBuilder.team1 t) < teamSize)%nat
         /\ (JS.leb (TeamBuilder.teamRating (TeamBuilder.team1 t))
                    (TeamBuilder.teamRating (TeamBuilder.team2 t)) = true
             \/ (teamSize <= List.length (TeamBuilder.team2 t))%nat))
      /\ (List.length (TeamBuilder.team2 t) < teamSize)%nat
      /\ TeamBuilder.place teamSize t p
         = TeamBuilder.mkTeams (TeamBuilder.team1 t) (TeamBuilder.team2 t ++ [p]))
  \/ ((teamSize <= List.length (TeamBuilder.team1 t))%nat
      /\ (teamSize <= List.length (TeamBuilder.team2 t))%nat
      /\ TeamBuilder.place teamSize t p = t).
Proof.
  unfold TeamBuilder.place.
  destruct (Nat.ltb_spec (List.length (TeamBuilder.team1 t)) teamSize) as [H1|H1];
  destruct (JS.leb (TeamBuilder.teamRating (TeamBuilder.team1 t))
                   (TeamBuilder.teamRating (TeamBuilder.team2 t))) eqn:Hle;
  destruct (Nat.leb_spec teamSize (List.length (TeamBuilder.team2 t))) as [H2|H2];
  destruct (Nat.ltb_spec (List.length (TeamBuilder.team2 t)) teamSize) as [H3|H3];
  cbn [andb orb];
  try lia;
  try (left; repeat split; [assumption|(now left) || (now right)]);
  try (right; left; repeat split; [|assumption]; intros [? [?|?]];
       (discriminate || lia));
  try (right; right; repeat split; lia).
Qed.

(** While a seat is left, the candidate is seated. *)
Lemma place_seats t p :
  (size t < 2 * teamSize)%nat ->
  Permutation (TeamBuilder.team1 (TeamBuilder.place teamSize t p)
               ++ TeamBuilder.team2 (TeamBuilder.place teamSize t p))
              (TeamBuilder.team1 t ++ TeamBuilder.team2 t ++ [p])
  /\ size (TeamBuilder.place teamSize t p) = S (size t).
Proof.
  unfold size. intros Hroom.
  destruct (place_cases t p)
    as [(_ & _ & ->)|[(_ & _ & ->)|(H1 & H2 & _)]]; [| |lia]; simpl.
  - rewrite length_app; simpl. split; [|lia].
    rewrite <- app_assoc. apply Permutation_app_head, Permutation_app_comm.
  - rewrite length_app; simpl. split; [|lia]. reflexivity.
Qed.

Lemma place_bounded t p :
  (List.length (TeamBuilder.team1 t) <= teamSize)%nat ->
  (List.length (TeamBuilder.team2 t) <= teamSize)%nat ->
  (List.length (TeamBuilder.team1 (TeamBuilder.place teamSize t p)) <= teamSize)%nat
  /\ (List.length (TeamBuilder.team2 (TeamBuilder.place teamSize t p))
      <= teamSize)%nat.
Proof.
  intros H1 H2.
  destruct (place_cases t p)
    as [(Hroom & _ & ->)|[(_ & Hroom & ->)|(_ & _ & ->)]]; simpl;
    rewrite ?length_app; simpl; lia.
Qed.

(** The whole loop: with no more candidates than seats, every candidate
    is seated. *)
Lemma fold_place_seats (candidates : list AggregatedPlayerStats.t) t :
  (size t + List.length candidates <= 2 * teamSize)%nat ->
  Permutation
    (TeamBuilder.team1 (fold_left (TeamBuilder.place teamSize) candidates t)
     ++ TeamBuilder.team2 (fold_left (TeamBuilder.place teamSize) candidates t))
    (TeamBuilder.team1 t ++ TeamBuilder.team2 t ++ candidates).
Proof.
  revert t. induction candidates as [|c cs IH]; intros t Hfit; simpl.
  - now rewrite app_nil_r.
  - simpl in Hfit.
    destruct (place_seats t c ltac:(lia)) as [Hperm Hsize].
    rewrite IH by lia. rewrite app_assoc, Hperm, <- !app_assoc. reflexivity.
Qed.

Lemma fold_place_bounded (candidates : list AggregatedPlayerStats.t) t :
  (List.length (TeamBuilder.team1 t) <= teamSize)%nat ->
  (List.length (TeamBuilder.team2 t) <= teamSize)%nat ->
  (List.length
     (TeamBuilder.team1 (fold_left (TeamBuilder.place teamSize) candidates t))
   <= teamSize)%nat
  /\ (List.length
        (TeamBuilder.team2 (fold_left (TeamBuilder.place teamSize) candidates t))
      <= teamSize)%nat.
Proof.
  revert t. induction candidates as [|c cs IH]; intros t H1 H2; simpl.
  - now split.
  - destruct (place_bounded t c H1 H2) as [H1' H2']. now apply IH.
Qed.

(** The pinned members stay at the head of their team. *)
Lemma fold_place_prefix (candidates : list AggregatedPlayerStats.t) t :
  (exists added,
     TeamBuilder.team1 (fold_left (TeamBuilder.place teamSize) candidates t)
     = TeamBuilder.team1 t ++ added)
  /\ (exists added,
        TeamBuilder.team2 (fold_left (TeamBuilder.place teamSize) candidates t)
        = TeamBuilder.team2 t ++ added).
Proof.
  revert t. induction candidates as [|c cs IH]; intros t; simpl.
  - split; exists []; now rewrite app_nil_r.
  - destruct (IH (TeamBuilder.place teamSize t c)) as [[a1 ->] [a2 ->]].
    destruct (place_cases t c)
      as [(_ & _ & ->)|[(_ & _ & ->)|(_ & _ & ->)]]; simpl;
      rewrite <- ?app_assoc; split; eexists; reflexivity.
Qed.

Lemma teamRating_played (team : list AggregatedPlayerStats.t) :
  Forall played team ->
  TeamBuilder.teamRating team = JS.Fin (summed_rating team).
Proof.
  unfold TeamBuilder.teamRating, summed_rating, sum_Q.
  change (JS.of_N 0) with (JS.Fin 0). intros Hall. generalize 0%Q as q0.
  induction Hall as [|p team Hp _ IH]; intros q0; simpl; [reflexivity|].
  unfold TeamBuilder.averageRating at 2. rewrite div_count by exact Hp.
  exact (IH _).
Qed.

(** The loop follows the greedy rule of the specification. *)
Lemma fold_place_greedy (candidates : list AggregatedPlayerStats.t) t :
  Forall played (TeamBuilder.team1 t) ->
  Forall played (TeamBuilder.team2 t) ->
  Forall played candidates ->
  (size t + List.length candidates <= 2 * teamSize)%nat ->
  greedy teamSize candidates t
         (fold_left (TeamBuilder.place teamSize) candidates t).
Proof.
  revert t. induction candidates as [|c cs IH]; intros [t1 t2] Hp1 Hp2 Hpc Hfit;
    simpl in *.
  - constructor.
  - apply Forall_cons in Hpc as [Hc Hcs]. unfold size in Hfit; simpl in Hfit.
    pose proof (teamRating_played t1 Hp1) as Hr1.
    pose proof (teamRating_played t2 Hp2) as Hr2.
    destruct (place_cases (TeamBuilder.mkTeams t1 t2) c)
      as [(Hroom & Hrule & Hplace)|[(Hnot & Hroom & Hplace)|(H1 & H2 & _)]];
      simpl in *; [| |lia]; rewrite Hplace, Hr1, Hr2, ?leb_finite in *.
    + apply greedy_team1; [exact Hroom|exact Hrule|].
      apply IH; simpl; [apply Forall_app; split; [exact Hp1|now constructor]
                       |exact Hp2|exact Hcs|].
      unfold size; simpl. rewrite length_app; simpl. lia.
    + apply greedy_team2; [exact Hnot|exact Hroom|].
      apply IH; simpl; [exact Hp1
                       |apply Forall_app; split; [exact Hp2|now constructor]
                       |exact Hcs|].
      unfold size; simpl. rewrite length_app; simpl. lia.
Qed.
End Greedy_facts.

Section Generate_facts.
Variable allPlayers : list AggregatedPlayerStats.t.
Variable st : TeamBuilder.state.

Let active := TeamBuilder.activePlayers allPlayers st.
Let teamSize := (List.length active / 2)%nat.
Let pinned :=
  TeamBuilder.mkTeams (pinned_members st Team1 active)
                      (pinned_members st Team2 active).
Let result :=
  fold_left (TeamBuilder.place teamSize) (TeamBuilder.pool allPlayers st) pinned.

Lemma pool_perm :
  Permutation (TeamBuilder.pool allPlayers st) (unpinned_members st active).
Proof. apply Array_sort_perm. Qed.

(** An odd or too small roster: the message, and the state as it was. *)
Lemma generateTeams_invalid :
  Nat.Odd (List.length active) \/ (List.length active < 2)%nat ->
  TeamBuilder.generateTeams allPlayers st = (st, Some TeamBuilder.alert_message).
Proof.
  intros Hbad. unfold TeamBuilder.generateTeams. fold active.
  assert (negb (List.length active mod 2 =? 0)%nat
          || (List.length active <? 2)%nat = true) as ->; [|reflexivity].
  apply orb_true_iff. destruct Hbad as [[m Hodd]|Hsmall].
  - left. apply negb_true_iff, Nat.eqb_neq. rewrite Hodd.
    rewrite Nat.add_comm, Nat.mul_comm, Nat.Div0.mod_add. discriminate.
  - right. now apply Nat.ltb_lt.
Qed.

(** An even roster of two or more: the loop runs from the pinned teams
    over the pool, and the roster fills the two teams exactly. *)
Lemma generateTeams_valid :
  Nat.Even (List.length active) -> (2 <= List.length active)%nat ->
  TeamBuilder.generateTeams allPlayers st = (with_teams st result, None)
  /\ (List.length (TeamBuilder.team1 pinned)
      + List.length (TeamBuilder.team2 pinned)
      + List.length (TeamBuilder.pool allPlayers st) = 2 * teamSize)%nat.
Proof.
  intros [m Heven] Hsize. split.
  - unfold TeamBuilder.generateTeams. fold active.
    assert (negb (List.length active mod 2 =? 0)%nat
            || (List.length active <? 2)%nat = false) as ->; [|reflexivity].
    apply orb_false_iff. split.
    + apply negb_false_iff, Nat.eqb_eq. rewrite Heven.
      rewrite Nat.mul_comm. apply Nat.Div0.mod_mul.
    + now apply Nat.ltb_ge.
  - pose proof (Permutation_length pool_perm) as Hpool.
    pose proof (Permutation_length (active_split allPlayers st)) as Hsplit.
    rewrite !length_app in Hsplit.
    unfold pinned, teamSize, active in *.
    cbn [TeamBuilder.team1 TeamBuilder.team2].
    rewrite Hpool, Heven, (Nat.mul_comm 2 m), Nat.div_mul by discriminate.
    lia.
Qed.

(** The teams of a valid roster hold every active player once. *)
Lemma result_perm :
  Nat.Even (List.length active) -> (2 <= List.length active)%nat ->
  Permutation (TeamBuilder.team1 result ++ TeamBuilder.team2 result) active.
Proof.
  intros Heven Hsize.
  destruct (generateTeams_valid Heven Hsize) as [_ Hseats].
  unfold result. rewrite fold_place_seats by lia.
  unfold pinned; simpl. rewrite pool_perm. apply active_split.
Qed.

(** Where every active player has played, the pool is the stable sort
    by average rating, best first. *)
Lemma averageRating_played (p : AggregatedPlayerStats.t) :
  played p -> TeamBuilder.averageRating p = JS.Fin (average_rating p).
Proof. intros Hp. unfold TeamBuilder.averageRating. now rewrite div_count. Qed.

Lemma pool_sorted :
  Forall played active ->
  stable_descending average_rating (unpinned_members st active)
                    (TeamBuilder.pool allPlayers st).
Proof.
  intros Hplayed.
  assert (TeamBuilder.pool allPlayers st
          = Array_sort (descending average_rating) (unpinned_members st active))
    as ->; [|apply Array_sort_descending].
  unfold TeamBuilder.pool. apply Array_sort_ext.
  intros x y Hx Hy. unfold descending.
  rewrite Forall_forall in Hplayed.
  apply filter_In in Hx as [Hx _]. apply filter_In in Hy as [Hy _].
  rewrite !averageRating_played by (apply Hplayed; now apply list_elem_of_In).
  reflexivity.
Qed.
End Generate_facts.

(** ** The lobby of a reachable state *)

Lemma includes_In (id : string) (l : list string) :
  TeamBuilder.includes id l = true <-> In id l.
Proof.
  unfold TeamBuilder.includes. rewrite existsb_exists. split.
  - intros (x & Hx & ->%String.eqb_eq). exact Hx.
  - intros Hin. exists id. split; [exact Hin|apply String.eqb_refl].
Qed.

Lemma step_lobby_NoDup (st st' : TeamBuilder.state) :
  step st st' ->
  NoDup (TeamBuilder.lobbyPlayers st) -> NoDup (TeamBuilder.lobbyPlayers st').
Proof.
  intros Hstep Hnd. destruct Hstep as [id st|id st|id team st|st|allPlayers st].
  - unfold TeamBuilder.addPlayerToLobby.
    destruct (TeamBuilder.includes id (TeamBuilder.lobbyPlayers st)) eqn:Hinc;
      simpl; [exact Hnd|].
    destruct (List.length (TeamBuilder.lobbyPlayers st) <? 10)%nat; simpl;
      [|exact Hnd].
    apply NoDup_app. repeat split; [exact Hnd| |apply NoDup_singleton].
    intros x Hx ->%list_elem_of_singleton.
    apply list_elem_of_In, includes_In in Hx. congruence.
  - simpl. now apply NoDup_List_filter.
  - exact Hnd.
  - apply NoDup_nil_2.
  - unfold TeamBuilder.generateTeams.
    destruct (negb _ || _); exact Hnd.
Qed.

Lemma reachable_lobby_NoDup (st : TeamBuilder.state) :
  reachable st -> NoDup (TeamBuilder.lobbyPlayers st).
Proof.
  unfold reachable. intros Hreach.
  apply (rtc_ind_r (R := step) (fun s => NoDup (TeamBuilder.lobbyPlayers s))
           TeamBuilder.initial); [apply NoDup_nil_2| |exact Hreach].
  intros y z _ Hstep IH. eapply step_lobby_NoDup; eassumption.
Qed.

Lemma filter_none {A : Type} (f : A -> bool) (l : list A) :
  List.filter f l = [] -> forall x, In x l -> f x = false.
Proof.
  induction l as [|y l IH]; simpl; [tauto|].
  destruct (f y) eqn:Hy; [discriminate|].
  intros Hnil x [<-|Hin]; [exact Hy|now apply IH].
Qed.

(** C3. With the aggregated players of any match list and an even roster
    of two or more active players, the balancer returns teams [t] such
    that: the candidates it works on are the unpinned active players
    sorted by average rating, best first, ties in roster order; from the
    teams made of the players pinned to team1 and to team2 it follows the
    greedy rule over the candidates with teamSize half the roster; and
    every player pinned to a team is in that team.  The average rating
    and the summed rating of a team are the numbers the source computes:
    the binary64 quotient, and the binary64 sum in team order. *)
Theorem balancer_greedy (matches : list Match.t) (st : TeamBuilder.state) :
  let allPlayers := aggregatePlayerStats matches in
  let active := TeamBuilder.activePlayers allPlayers st in
  let teamSize := (List.length active / 2)%nat in
  Nat.Even (List.length active) -> (2 <= List.length active)%nat ->
  exists t candidates,
    TeamBuilder.generateTeams allPlayers st = (with_teams st t, None)
    /\ stable_descending average_rating (unpinned_members st active) candidates
    /\ greedy teamSize candidates
         (TeamBuilder.mkTeams (pinned_members st Team1 active)
                              (pinned_members st Team2 active))
         t
    /\ (forall p, In p active -> pinned_to st Team1 p -> In p (TeamBuilder.team1 t))
    /\ (forall p, In p active -> pinned_to st Team2 p -> In p (TeamBuilder.team2 t)).
Proof.
  intros allPlayers active teamSize Heven Hsize.
  destruct (generateTeams_valid allPlayers st Heven Hsize) as [Hgen Hseats].
  assert (Forall played active) as Hplayed.
  { apply Forall_forall. intros p Hp%list_elem_of_In.
    apply active_In in Hp as (Hp & _). now apply aggregate_played in Hp. }
  assert (forall f, Forall played (List.filter f active)) as Hsub.
  { intros f. apply Forall_forall. intros p Hp%list_elem_of_In.
    apply filter_In in Hp as [Hp _]. rewrite Forall_forall in Hplayed.
    now apply Hplayed, list_elem_of_In. }
  eexists. exists (TeamBuilder.pool allPlayers st).
  split; [exact Hgen|]. split; [now apply pool_sorted|]. split.
  - apply fold_place_greedy; cbn [TeamBuilder.team1 TeamBuilder.team2];
      [apply Hsub|apply Hsub| |].
    + eapply Permutation_Forall; [symmetry; apply pool_perm|apply Hsub].
    + cbn [TeamBuilder.team1 TeamBuilder.team2] in Hseats.
      unfold teamSize, active in *. lia.
  - destruct (fold_place_prefix teamSize (TeamBuilder.pool allPlayers st)
                (TeamBuilder.mkTeams (pinned_members st Team1 active)
                                     (pinned_members st Team2 active)))
      as [[a1 H1] [a2 H2]].
    split; intros p Hp Hpin.
    + fold active teamSize. rewrite H1. apply in_or_app. left.
      apply filter_In. split; [exact Hp|now apply bool_decide_eq_true].
    + fold active teamSize. rewrite H2. apply in_or_app. left.
      apply filter_In. split; [exact Hp|now apply bool_decide_eq_true].
Qed.

(** C5. A roster whose active size is odd or below two makes the balancer
    alert the validation message and leave its state, the generated teams
    included, as it was; a roster of 8 active players none of which is
    pinned to a team gets two teams of 4. *)
Theorem balancer_validation (allPlayers : list AggregatedPlayerStats.t)
    (st : TeamBuilder.state) :
  let active := TeamBuilder.activePlayers allPlayers st in
  (Nat.Odd (List.length active) \/ (List.length active < 2)%nat ->
   TeamBuilder.generateTeams allPlayers st = (st, Some TeamBuilder.alert_message))
  /\ (List.length active = 8%nat ->
      pinned_members st Team1 active = [] ->
      pinned_members st Team2 active = [] ->
      exists t,
        TeamBuilder.generateTeams allPlayers st = (with_teams st t, None)
        /\ List.length (TeamBuilder.team1 t) = 4%nat
        /\ List.length (TeamBuilder.team2 t) = 4%nat).
Proof.
  intros active. split; [apply generateTeams_invalid|].
  intros Hlen Hno1 Hno2.
  assert (Nat.Even (List.length active)) as Heven by (exists 4%nat; now rewrite Hlen).
  assert (2 <= List.length active)%nat as Hsize by lia.
  destruct (generateTeams_valid allPlayers st Heven Hsize) as [Hgen Hseats].
  pose proof (result_perm allPlayers st Heven Hsize) as Hperm.
  apply Permutation_length in Hperm. rewrite length_app in Hperm.
  fold active in Hgen, Hseats, Hperm. rewrite Hno1, Hno2 in *.
  rewrite Hlen in *. change (8 / 2)%nat with 4%nat in *.
  destruct (fold_place_bounded 4 (TeamBuilder.pool allPlayers st)
              (TeamBuilder.mkTeams [] [])) as [Hb1 Hb2]; simpl; [lia|lia|].
  eexists. split; [exact Hgen|]. lia.
Qed.

(** C10. In every state the component can reach, with any aggregated
    players, an even roster of two or more active players is split into
    two disjoint teams that together hold every active player exactly
    once, however many players are pinned to one team. *)
Theorem balancer_partition (allPlayers : list AggregatedPlayerStats.t)
    (st : TeamBuilder.state) :
  let active := TeamBuilder.activePlayers allPlayers st in
  reachable st ->
  Nat.Even (List.length active) -> (2 <= List.length active)%nat ->
  exists t,
    TeamBuilder.generateTeams allPlayers st = (with_teams st t, None)
    /\ Permutation (TeamBuilder.team1 t ++ TeamBuilder.team2 t) active
    /\ NoDup (TeamBuilder.team1 t ++ TeamBuilder.team2 t)
    /\ (forall p, In p (TeamBuilder.team1 t) -> ~ In p (TeamBuilder.team2 t)).
Proof.
  intros active Hreach Heven Hsize.
  destruct (generateTeams_valid allPlayers st Heven Hsize) as [Hgen _].
  pose proof (result_perm allPlayers st Heven Hsize) as Hperm.
  assert (NoDup active) as Hnd
    by (apply active_NoDup; now apply reachable_lobby_NoDup).
  eexists. split; [exact Hgen|]. split; [exact Hperm|].
  assert (NoDup (TeamBuilder.team1
                   (fold_left (TeamBuilder.place (List.length active / 2))
                      (TeamBuilder.pool allPlayers st)
                      (TeamBuilder.mkTeams (pinned_members st Team1 active)
                                           (pinned_members st Team2 active)))
                 ++ TeamBuilder.team2
                   (fold_left (TeamBuilder.place (List.length active / 2))
                      (TeamBuilder.pool allPlayers st)
                      (TeamBuilder.mkTeams (pinned_members st Team1 active)
                                           (pinned_members st Team2 active)))))
    as Hboth.
  { eapply NoDup_Permutation_proper; [exact Hperm|exact Hnd]. }
  split; [exact Hboth|].
  apply NoDup_app in Hboth as (_ & Hdisj & _).
  intros p H1 H2. apply (Hdisj p); now apply list_elem_of_In.
Qed.

(* ===================================================================== *)
(** * The statements at work on the sample records *)
(* ===================================================================== *)

Lemma reachable_add (id : string) (st : TeamBuilder.state) :
  reachable st -> reachable (TeamBuilder.addPlayerToLobby id st).
Proof. intros Hreach. eapply rtc_r; [exact Hreach|apply step_add]. Qed.

Lemma reachable_assign (id : string) (team : option Assignment)
    (st : TeamBuilder.state) :
  reachable st -> reachable (TeamBuilder.assignPlayer id team st).
Proof. intros Hreach. eapply rtc_r; [exact Hreach|apply step_assign]. Qed.

Lemma reachable_lobby_of (ids : list string) : reachable (lobby_of ids).
Proof.
  unfold lobby_of.
  assert (forall st, reachable st ->
            reachable (fold_left (fun st id => TeamBuilder.addPlayerToLobby id st)
                                 ids st)) as Hfold.
  { induction ids as [|id ids IH]; intros st Hst; simpl; [exact Hst|].
    now apply IH, reachable_add. }
  apply Hfold. apply rtc_refl.
Qed.

(** The number model on a few values: rounding of halves, padding, the
    special values, and reading back what [toFixed] printed. *)
Example toFixed_values :
  JS.toFixed (JS.Fin (1 # 3)) 2 = "0.33"
  /\ JS.toFixed (JS.Fin (5 # 2)) 0 = "3"
  /\ JS.toFixed (JS.Fin (1 # 1000)) 2 = "0.00"
  /\ JS.toFixed (JS.div (JS.of_N 7) (JS.of_N 0)) 1 = "Infinity"
  /\ JS.parseFloat (JS.toFixed (JS.Fin (1234 # 7)) 1) = JS.lit (1763 # 10)
  /\ JS.parseFloat "NaN" = JS.NaN.
Proof. repeat split; vm_compute; reflexivity. Qed.

(** Binary64 at work: 0.1 is the nearest number to a tenth; 0.1 + 0.2 +
    0.3 is not 0.3 + 0.2 + 0.1; 3 / 40 is below 0.075 and prints as
    "0.07"; 6.72 / 6 and 7.84 / 7, the sums being those of six and seven
    ratings of 1.12, are one number; a steam id written as a number is
    held and printed as a neighbour. *)
Example binary64_values :
  JS.binary64 (1 # 10) = (3602879701896397 # 36028797018963968)%Q
  /\ sum_Q [JS.binary64 (1 # 10); JS.binary64 (2 # 10); JS.binary64 (3 # 10)]
     = (1351079888211149 # 2251799813685248)%Q
  /\ sum_Q [JS.binary64 (3 # 10); JS.binary64 (2 # 10); JS.binary64 (1 # 10)]
     = JS.binary64 (6 # 10)
  /\ JS.toFixed (JS.div (JS.of_N 3) (JS.of_N 40)) 2 = "0.07"
  /\ JS.toFixed (JS.lit (75 # 1000)) 2 = "0.07"
  /\ JS.toFixed (JS.Fin (75 # 1000)) 2 = "0.08"
  /\ JS.div (JS.Fin (sum_Q (repeat (JS.binary64 (112 # 100)) 6))) (JS.of_N 6)
     = JS.div (JS.Fin (sum_Q (repeat (JS.binary64 (112 # 100)) 7))) (JS.of_N 7)
  /\ JS.div (JS.lit (672 # 100)) (JS.of_N 6)
     = JS.div (JS.lit (784 # 100)) (JS.of_N 7)
  /\ TeamBuilder.teamRating
       [aggregate_of "a" [sample_player "a" (IdString "a") 0 0 0 0 (2 # 10) ∅];
        aggregate_of "b" [sample_player "b" (IdString "b") 0 0 0 0 (4 # 10) ∅]]
     = JS.Fin (1351079888211149 # 2251799813685248)
  /\ JS.binary64 76561198000000010 = 76561198000000016%Q
  /\ toString (IdNumber 76561198000000010) = "76561198000000020"
  /\ toString (IdNumber 76561198000000016) = "76561198000000020"
  /\ toString (IdNumber 9007199254740993) = "9007199254740992"
  /\ toString (IdNumber (2 ^ 60)) = "1152921504606847000"
  /\ toString (IdNumber 1010) = "1010"
  /\ toString (IdNumber 0) = "0"
  /\ toString (IdNumber (10 ^ 21)) = "1e+21"
  /\ toString (IdNumber 123456789012345678901234) = "1.2345678901234569e+23".
Proof. repeat split; vm_compute; reflexivity. Qed.

(** A steam id written as a number and the string the language prints
    for it are one player to the aggregation. *)
Example numeric_id_normalized :
  List.map (fun a => (AggregatedPlayerStats.steam_id a,
                      AggregatedPlayerStats.name a,
                      AggregatedPlayerStats.matches a,
                      AggregatedPlayerStats.kills a))
           (aggregatePlayerStats [numeric_id_match])
  = [("76561198000000020", "M", 2%N, 19%N)].
Proof. vm_compute. reflexivity. Qed.

(** The dictionary lists array-index keys first, in ascending order. *)
Example values_order :
  List.map fst
    (Dict.own_properties [("zed", 1%N); ("7", 2%N); ("07", 3%N); ("3", 4%N)])
  = ["3"; "7"; "zed"; "07"].
Proof. vm_compute. reflexivity. Qed.

(** The clutch brackets 2, 1, 0 and two absent ones add 3. *)
Example clutch_sum :
  clutches duel_A = 3%N
  /\ List.map AggregatedPlayerStats.clutches_won
       (aggregatePlayerStats [duel_match; duel_match]) = [6%N; 6%N].
Proof. split; vm_compute; reflexivity. Qed.

(** The duel only B recorded, 3 kills and 1 death against A, counts as
    1 kill for A and 3 for B. *)
Example duel_fallback :
  (fun r => (Duels.p1Kills r, Duels.p2Kills r))
    <$> Duels.duelStats (aggregatePlayerStats [duel_match; idle_match])
          [duel_match; idle_match]
          (Some "76561198000000010") (Some "76561198000000011")
  = Some (1%N, 3%N).
Proof. vm_compute. reflexivity. Qed.

(** The teams of the full lobby: the two players rated 1.05 are taken in
    roster order. *)
Example full_lobby_teams :
  (fun t => (List.map AggregatedPlayerStats.name (TeamBuilder.team1 t),
             List.map AggregatedPlayerStats.name (TeamBuilder.team2 t)))
    <$> TeamBuilder.generatedTeams
          (fst (TeamBuilder.generateTeams (aggregatePlayerStats [roster_match])
                                          full_lobby))
  = Some (["P2"; "P5"; "P6"; "P4"], ["P7"; "P3"; "P1"; "P8"]).
Proof. vm_compute. reflexivity. Qed.

(** A reordering of three matches, two of them with the same two
    players. *)
Lemma aggregate_order_independent_witness :
  Permutation [duel_match; idle_match; rematch] [rematch; duel_match; idle_match]
  /\ (forall k : string,
        counters
          <$> lookup_player k
                (aggregatePlayerStats [duel_match; idle_match; rematch])
        = counters
            <$> lookup_player k
                  (aggregatePlayerStats [rematch; duel_match; idle_match]))
  /\ Permutation
       (List.map counters
          (aggregatePlayerStats [duel_match; idle_match; rematch]))
       (List.map counters
          (aggregatePlayerStats [rematch; duel_match; idle_match]))
  /\ lookup_player "76561198000000001"
       (aggregatePlayerStats [duel_match; idle_match; rematch])
     = lookup_player "76561198000000001"
         (aggregatePlayerStats [rematch; duel_match; idle_match]).
Proof.
  assert (Permutation [duel_match; idle_match; rematch]
                      [rematch; duel_match; idle_match]) as Hperm.
  { symmetry. apply (Permutation_cons_append [duel_match; idle_match] rematch). }
  split; [exact Hperm|].
  destruct (aggregate_order_independent [duel_match; idle_match; rematch]
              [rematch; duel_match; idle_match] Hperm) as (Hk & Hall & Hsame).
  split; [exact Hk|]. split; [exact Hall|].
  apply Hsame. vm_compute. reflexivity.
Defined.


(** Among the instances: 3 deaths over 40 rounds, a quotient just below
    0.075 that prints as "0.07". *)
Lemma rate_stats_witness :
  PlayerProfile.dpr sparse_stats
  = JS.toFixed
      (JS.Fin (quotient (Qof (AggregatedPlayerStats.deaths sparse_stats))
                 (Qof (AggregatedPlayerStats.rounds_played sparse_stats)))) 2
  /\ PlayerProfile.dpr sparse_stats = "0.07"
  /\ PlayerProfile.kpr regular_stats
     = JS.toFixed
         (JS.Fin (quotient (Qof (AggregatedPlayerStats.kills regular_stats))
                    (Qof (AggregatedPlayerStats.rounds_played regular_stats)))) 2
  /\ PlayerProfile.rating regular_stats
     = JS.toFixed
         (JS.Fin (quotient (AggregatedPlayerStats.hltv_3_0_score regular_stats)
                    (Qof (AggregatedPlayerStats.matches regular_stats)))) 2
  /\ PlayerProfile.kd regular_stats
     = JS.toFixed
         (JS.Fin (quotient (Qof (AggregatedPlayerStats.kills regular_stats))
                    (Qof (AggregatedPlayerStats.deaths regular_stats)))) 2
  /\ SortableTable.kd flawless_stats
     = JS.Fin (Qof (AggregatedPlayerStats.kills flawless_stats))
  /\ PlayerProfile.kd flawless_stats = "10.00"
  /\ PlayerProfile.adr absent_stats = "0.0".
Proof.
  split; [|split; [|split; [|split; [|split; [|split; [|split]]]]]].
  - apply (proj1 (proj2 (proj1 (rate_stats sparse_stats) eq_refl))).
  - rewrite (proj1 (proj2 (proj1 (rate_stats sparse_stats) eq_refl))).
    vm_compute. reflexivity.
  - apply (proj1 (rate_stats regular_stats)). reflexivity.
  - apply (proj1 (proj2 (proj2 (rate_stats regular_stats)))). reflexivity.
  - apply (proj1 (proj2 (proj2 (proj2 (rate_stats regular_stats))))).
    reflexivity.
  - apply (proj1 (proj2 (proj2 (proj2 (proj2 (rate_stats flawless_stats)))))).
    reflexivity.
  - apply (proj2 (proj2 (proj2 (proj2 (proj2 (rate_stats flawless_stats))))));
      reflexivity.
  - apply (proj1 (proj2 (rate_stats absent_stats))). reflexivity.
Defined.

Lemma duel_reconciliation_witness :
  exists r,
    Duels.duelStats (aggregatePlayerStats [duel_match; idle_match])
      [duel_match; idle_match]
      (Some "76561198000000010") (Some "76561198000000011") = Some r
    /\ Duels.p1 r = aggregate_of "76561198000000010" [duel_A]
    /\ Duels.p2 r = aggregate_of "76561198000000011" [duel_B]
    /\ Duels.p1Kills r
       = sum_N (List.map (fun t => snd (fst t))
                  (contributing "76561198000000010" "76561198000000011"
                     [duel_match; idle_match]))
    /\ Duels.p2Kills r
       = sum_N (List.map snd
                  (contributing "76561198000000010" "76561198000000011"
                     [duel_match; idle_match]))
    /\ Permutation (List.map entry_score (Duels.history r))
         (contributing "76561198000000010" "76561198000000011"
            [duel_match; idle_match]).
Proof.
  apply (duel_reconciliation (aggregatePlayerStats [duel_match; idle_match])
           [duel_match; idle_match]
           "76561198000000010" "76561198000000011").
  - discriminate.
  - discriminate.
  - vm_compute. reflexivity.
  - vm_compute. reflexivity.
Defined.

Lemma duel_unresolved_witness :
  resolve (aggregatePlayerStats [duel_match]) (Some "76561198000000001") = None
  /\ Duels.duelStats (aggregatePlayerStats [duel_match]) [duel_match; idle_match]
       (Some "76561198000000010") (Some "76561198000000001") = None.
Proof.
  split; [vm_compute; reflexivity|].
  apply (duel_unresolved (aggregatePlayerStats [duel_match])
           [duel_match; idle_match]
           (Some "76561198000000010") (Some "76561198000000001")).
  right. vm_compute. reflexivity.
Defined.

(** On the squad the sum of the averages of team1, 0.2 + 0.4, is
    0.6000000000000001, above the 0.6 of team2: the best candidate goes
    to team2, the second to team1, the third to team2. *)
Lemma balancer_greedy_witness :
  exists t candidates,
    TeamBuilder.generateTeams (aggregatePlayerStats squad_matches) squad_lobby
    = (with_teams squad_lobby t, None)
    /\ stable_descending average_rating
         (unpinned_members squad_lobby
            (TeamBuilder.activePlayers (aggregatePlayerStats squad_matches)
                                       squad_lobby))
         candidates
    /\ greedy 3 candidates
         (TeamBuilder.mkTeams
            (pinned_members squad_lobby Team1
               (TeamBuilder.activePlayers (aggregatePlayerStats squad_matches)
                                          squad_lobby))
            (pinned_members squad_lobby Team2
               (TeamBuilder.activePlayers (aggregatePlayerStats squad_matches)
                                          squad_lobby)))
         t
    /\ (forall p,
          In p (TeamBuilder.activePlayers (aggregatePlayerStats squad_matches)
                                          squad_lobby) ->
          pinned_to squad_lobby Team1 p -> In p (TeamBuilder.team1 t))
    /\ (forall p,
          In p (TeamBuilder.activePlayers (aggregatePlayerStats squad_matches)
                                          squad_lobby) ->
          pinned_to squad_lobby Team2 p -> In p (TeamBuilder.team2 t))
    /\ List.map AggregatedPlayerStats.steam_id (TeamBuilder.team1 t)
       = ["76561198000000201"; "76561198000000202"; "76561198000000205"]
    /\ List.map AggregatedPlayerStats.steam_id (TeamBuilder.team2 t)
       = ["76561198000000203"; "76561198000000204"; "76561198000000206"].
Proof.
  destruct (balancer_greedy squad_matches squad_lobby)
    as (t & candidates & Hgen & Hsorted & Hgreedy & Hpin1 & Hpin2).
  - exists 3%nat. vm_compute. reflexivity.
  - vm_compute. lia.
  - exists t, candidates.
    split; [exact Hgen|]. split; [exact Hsorted|]. split; [exact Hgreedy|].
    split; [exact Hpin1|]. split; [exact Hpin2|].
    apply (f_equal (fun r => TeamBuilder.generatedTeams (fst r))) in Hgen.
    cbn [fst with_teams TeamBuilder.generatedTeams] in Hgen.
    vm_compute in Hgen. injection Hgen as <-.
    split; vm_compute; reflexivity.
Defined.

Lemma balancer_validation_witness :
  TeamBuilder.generateTeams (aggregatePlayerStats [roster_match]) benched_lobby
  = (benched_lobby, Some TeamBuilder.alert_message)
  /\ exists t,
       TeamBuilder.generateTeams (aggregatePlayerStats [roster_match]) full_lobby
       = (with_teams full_lobby t, None)
       /\ List.length (TeamBuilder.team1 t) = 4%nat
       /\ List.length (TeamBuilder.team2 t) = 4%nat.
Proof.
  split.
  - apply (proj1 (balancer_validation (aggregatePlayerStats [roster_match])
                    benched_lobby)).
    left. exists 3%nat. vm_compute. reflexivity.
  - apply (proj2 (balancer_validation (aggregatePlayerStats [roster_match])
                    full_lobby)); vm_compute; reflexivity.
Defined.

Lemma balancer_partition_witness :
  reachable crowded_lobby
  /\ exists t,
       TeamBuilder.generateTeams (aggregatePlayerStats [roster_match])
                                 crowded_lobby
       = (with_teams crowded_lobby t, None)
       /\ Permutation (TeamBuilder.team1 t ++ TeamBuilder.team2 t)
            (TeamBuilder.activePlayers (aggregatePlayerStats [roster_match])
                                       crowded_lobby)
       /\ NoDup (TeamBuilder.team1 t ++ TeamBuilder.team2 t)
       /\ (forall p, In p (TeamBuilder.team1 t) -> ~ In p (TeamBuilder.team2 t)).
Proof.
  assert (reachable crowded_lobby) as Hreach
    by (unfold crowded_lobby; do 3 apply reachable_assign;
        apply reachable_lobby_of).
  split; [exact Hreach|].
  apply (balancer_partition (aggregatePlayerStats [roster_match]) crowded_lobby).
  - exact Hreach.
  - exists 2%nat. vm_compute. reflexivity.
  - vm_compute. lia.
Defined.

(* ===================================================================== *)
(** * The match store *)
(* ===================================================================== *)

Section Find_facts.
Context {A : Type}.
Implicit Types (f g : A -> bool) (l : list A).

Lemma find_app f l l' :
  List.find f (l ++ l')
  = match List.find f l with Some x => Some x | None => List.find f l' end.
Proof.
  induction l as [|x l IH]; simpl; [reflexivity|].
  destruct (f x); [reflexivity|exact IH].
Qed.

Lemma find_filter_none f g l :
  (forall x, f x = true -> g x = false) -> List.find f (List.filter g l) = None.
Proof.
  intros Hfg. induction l as [|x l IH]; simpl; [reflexivity|].
  destruct (g x) eqn:Hg; simpl; [|exact IH].
  destruct (f x) eqn:Hf; [|exact IH]. apply Hfg in Hf. congruence.
Qed.

Lemma find_filter_same f g l :
  (forall x, f x = true -> g x = true) ->
  List.find f (List.filter g l) = List.find f l.
Proof.
  intros Hfg. induction l as [|x l IH]; simpl; [reflexivity|].
  destruct (g x) eqn:Hg; simpl.
  - destruct (f x); [reflexivity|exact IH].
  - destruct (f x) eqn:Hf; [|exact IH]. apply Hfg in Hf. congruence.
Qed.

Lemma filter_all f l :
  (forall x, In x l -> f x = true) -> List.filter f l = l.
Proof.
  induction l as [|x l IH]; intros Hall; simpl; [reflexivity|].
  rewrite (Hall x) by now left. f_equal. apply IH. intros; apply Hall; now right.
Qed.

Lemma filter_filter f g l :
  List.filter f (List.filter g l) = List.filter (fun x => g x && f x) l.
Proof.
  induction l as [|x l IH]; simpl; [reflexivity|].
  destruct (g x); simpl; [|exact IH]. destruct (f x); now rewrite IH.
Qed.
End Find_facts.

Section Store_facts.
Implicit Types (m : Match.t) (s : list Match.t) (id : string).

Lemma stored_Some id s m : stored id s = Some m -> In m s /\ Match.id m = id.
Proof.
  intros Hfind. apply find_some in Hfind as [Hin Heq].
  split; [exact Hin|now apply String.eqb_eq].
Qed.

Lemma stored_None id s : stored id s = None <-> ~ In id (match_ids s).
Proof.
  unfold stored, match_ids. induction s as [|m s IH]; simpl; [tauto|].
  destruct (String.eqb_spec (Match.id m) id) as [->|Hne].
  - split; [discriminate|]. intros Hnot. exfalso. apply Hnot. now left.
  - rewrite IH. tauto.
Qed.

Lemma stored_In id s m :
  NoDup (match_ids s) -> In m s -> Match.id m = id -> stored id s = Some m.
Proof.
  unfold stored, match_ids. induction s as [|x s IH]; simpl; [tauto|].
  intros Hnd Hin Hid. apply NoDup_cons in Hnd as [Hx Hnd].
  destruct (String.eqb_spec (Match.id x) id) as [Hxid|Hxid].
  - destruct Hin as [->|Hin]; [reflexivity|]. exfalso. apply Hx.
    apply list_elem_of_In, in_map_iff. exists m. split; [congruence|exact Hin].
  - destruct Hin as [->|Hin]; [contradiction|]. now apply IH.
Qed.

(** Two stores with distinct ids that hold the same match under every id
    hold the same matches. *)
Lemma stores_perm s s' :
  NoDup (match_ids s) -> NoDup (match_ids s') ->
  (forall id, stored id s = stored id s') -> Permutation s s'.
Proof.
  intros Hnd Hnd' Hsame. apply NoDup_Permutation.
  - now apply (NoDup_map_inv Match.id).
  - now apply (NoDup_map_inv Match.id).
  - intros m. rewrite !list_elem_of_In. split; intros Hin.
    + pose proof (stored_In _ _ _ Hnd Hin eq_refl) as Hst.
      rewrite Hsame in Hst. now apply stored_Some in Hst.
    + pose proof (stored_In _ _ _ Hnd' Hin eq_refl) as Hst.
      rewrite <- Hsame in Hst. now apply stored_Some in Hst.
Qed.

Lemma stored_app id s s' :
  stored id (s ++ s')
  = match stored id s with Some m => Some m | None => stored id s' end.
Proof. apply find_app. Qed.

Lemma stored_addMatch id m s :
  stored id (StatsProvider.addMatch m s)
  = if String.eqb (Match.id m) id then Some m else stored id s.
Proof.
  unfold stored, StatsProvider.addMatch. rewrite find_app.
  destruct (String.eqb_spec (Match.id m) id) as [<-|Hne].
  - rewrite find_filter_none; [simpl; now rewrite String.eqb_refl|].
    intros x ->%String.eqb_eq. now rewrite String.eqb_refl.
  - rewrite find_filter_same.
    + destruct (List.find _ s); [reflexivity|]. simpl.
      now destruct (String.eqb_spec (Match.id m) id).
    + intros x <-%String.eqb_eq. apply negb_true_iff.
      destruct (String.eqb_spec (Match.id x) (Match.id m)); congruence.
Qed.

Lemma addMatch_fresh m s :
  ~ In (Match.id m) (match_ids s) -> StatsProvider.addMatch m s = s ++ [m].
Proof.
  intros Hfresh. unfold StatsProvider.addMatch. f_equal. apply filter_all.
  intros x Hx. apply negb_true_iff, String.eqb_neq. intros Heq.
  apply Hfresh. unfold match_ids. rewrite <- Heq. now apply in_map.
Qed.

Lemma match_ids_filter (f : Match.t -> bool) s :
  NoDup (match_ids s) -> NoDup (match_ids (List.filter f s)).
Proof.
  unfold match_ids. induction s as [|m s IH]; simpl; intros Hnd;
    [apply NoDup_nil_2|].
  apply NoDup_cons in Hnd as [Hm Hnd]. destruct (f m); simpl; [|now apply IH].
  apply NoDup_cons. split; [|now apply IH].
  intros Hin. apply Hm. apply list_elem_of_In, in_map_iff in Hin as (x & Hx & Hin).
  apply filter_In in Hin as [Hin _].
  apply list_elem_of_In, in_map_iff. now exists x.
Qed.

Lemma addMatch_NoDup m s :
  NoDup (match_ids s) -> NoDup (match_ids (StatsProvider.addMatch m s)).
Proof.
  intros Hnd. unfold StatsProvider.addMatch, match_ids. rewrite List.map_app.
  apply NoDup_app. repeat split.
  - now apply match_ids_filter.
  - intros id Hin ->%list_elem_of_singleton.
    apply list_elem_of_In, in_map_iff in Hin as (x & Hx & Hin).
    apply filter_In in Hin as [_ Hne]. rewrite Hx, String.eqb_refl in Hne.
    discriminate.
  - apply NoDup_singleton.
Qed.

Lemma map_of_wf (l : list Match.t) (d : Dict.t Match.t) :
  map_keyed d /\ NoDup (keys d) ->
  map_keyed (StatsProvider.map_of l d) /\ NoDup (keys (StatsProvider.map_of l d)).
Proof.
  revert d. induction l as [|m l IH]; intros d [Hk Hnd]; simpl; [now split|].
  apply IH. split; [now apply Forall_set|now apply NoDup_keys_set].
Qed.

Lemma get_set (k k' : string) (m : Match.t) (d : Dict.t Match.t) :
  Dict.get k' (Dict.set k m d) = if String.eqb k k' then Some m else Dict.get k' d.
Proof.
  destruct (String.eqb_spec k k') as [<-|Hne];
    [apply get_set_eq|now apply get_set_ne].
Qed.

Lemma get_map_of id (l : list Match.t) (d : Dict.t Match.t) :
  Dict.get id (StatsProvider.map_of l d)
  = match stored id (rev l) with Some m => Some m | None => Dict.get id d end.
Proof.
  revert d. induction l as [|m l IH]; intros d; simpl; [reflexivity|].
  unfold StatsProvider.map_of in IH. rewrite IH, stored_app.
  destruct (stored id (rev l)); [reflexivity|]. simpl. rewrite get_set.
  now destruct (String.eqb (Match.id m) id).
Qed.

Lemma stored_entries id (d : Dict.t Match.t) :
  map_keyed d -> stored id (List.map snd d) = Dict.get id d.
Proof.
  unfold stored. induction 1 as [|[k m] d Hhead _ IH]; simpl; [reflexivity|].
  simpl in Hhead. rewrite Hhead. destruct (String.eqb k id); [reflexivity|exact IH].
Qed.

Lemma map_keyed_ids (d : Dict.t Match.t) :
  map_keyed d -> match_ids (List.map snd d) = keys d.
Proof.
  unfold match_ids, keys. induction 1 as [|[k m] d Hhead _ IH]; simpl;
    [reflexivity|].
  simpl in Hhead. now rewrite Hhead, IH.
Qed.

Lemma stored_rev id s : NoDup (match_ids s) -> stored id (rev s) = stored id s.
Proof.
  intros Hnd.
  assert (NoDup (match_ids (rev s))) as Hnd'.
  { unfold match_ids. rewrite map_rev.
    eapply NoDup_Permutation_proper; [symmetry; apply Permutation_rev|exact Hnd]. }
  destruct (stored id s) as [m|] eqn:Hs.
  - apply stored_Some in Hs as [Hin Hid].
    apply stored_In; [exact Hnd'|now apply in_rev in Hin|exact Hid].
  - apply stored_None. apply stored_None in Hs. unfold match_ids in *.
    rewrite map_rev, <- in_rev. exact Hs.
Qed.

Lemma addMatches_NoDup (newMatches s : list Match.t) :
  NoDup (match_ids (StatsProvider.addMatches newMatches s)).
Proof.
  unfold StatsProvider.addMatches.
  destruct (map_of_wf newMatches (StatsProvider.map_of s []))
    as [Hk Hnd].
  { apply map_of_wf. split; [constructor|apply NoDup_nil_2]. }
  now rewrite map_keyed_ids.
Qed.

Lemma stored_addMatches id (newMatches s : list Match.t) :
  stored id (StatsProvider.addMatches newMatches s)
  = match stored id (rev newMatches) with
    | Some m => Some m
    | None => stored id (rev s)
    end.
Proof.
  unfold StatsProvider.addMatches.
  rewrite stored_entries, !get_map_of.
  - simpl. now destruct (stored id (rev s)).
  - apply map_of_wf, map_of_wf. split; [constructor|apply NoDup_nil_2].
Qed.

Lemma stored_fold_addMatch id (newMatches s : list Match.t) :
  stored id (fold_left (fun st m => StatsProvider.addMatch m st) newMatches s)
  = match stored id (rev newMatches) with
    | Some m => Some m
    | None => stored id s
    end.
Proof.
  revert s. induction newMatches as [|m l IH]; intros s; simpl; [reflexivity|].
  rewrite IH, stored_app.
  destruct (stored id (rev l)); [reflexivity|]. simpl.
  rewrite stored_addMatch. now destruct (String.eqb (Match.id m) id).
Qed.

Lemma fold_addMatch_NoDup (newMatches s : list Match.t) :
  NoDup (match_ids s) ->
  NoDup (match_ids
           (fold_left (fun st m => StatsProvider.addMatch m st) newMatches s)).
Proof.
  revert s. induction newMatches as [|m l IH]; intros s Hnd; simpl; [exact Hnd|].
  now apply IH, addMatch_NoDup.
Qed.
End Store_facts.

(** X1. Adding a match files it under its id, replacing whatever was
    stored under that id and leaving the other ids alone; the store then
    holds exactly one match with that id. *)
Theorem addMatch_replaces (m : Match.t) (s : list Match.t) (id : string) :
  stored id (StatsProvider.addMatch m s)
  = (if String.eqb (Match.id m) id then Some m else stored id s)
  /\ List.length
       (List.filter (fun x => String.eqb (Match.id x) (Match.id m))
                    (StatsProvider.addMatch m s)) = 1%nat.
Proof.
  split; [apply stored_addMatch|].
  unfold StatsProvider.addMatch. rewrite List.filter_app, length_app.
  rewrite filter_filter.
  rewrite (List.filter_ext _ (fun _ => false)).
  - simpl. rewrite String.eqb_refl. simpl.
    assert (List.filter (fun _ : Match.t => false) s = []) as ->; [|reflexivity].
    clear. induction s as [|x s IH]; [reflexivity|exact IH].
  - intros x. now destruct (String.eqb (Match.id x) (Match.id m)).
Qed.

(** X2. The ids of the store stay pairwise distinct: a bulk upload makes
    them so whatever the store held, and adding one match, deleting one id
    or several keeps them so. *)
Theorem store_ids_distinct (m : Match.t) (matchId : string)
    (matchIds : list string) (newMatches s : list Match.t) :
  NoDup (match_ids (StatsProvider.addMatches newMatches s))
  /\ (NoDup (match_ids s) ->
      NoDup (match_ids (StatsProvider.addMatch m s))
      /\ NoDup (match_ids (StatsProvider.deleteMatch matchId s))
      /\ NoDup (match_ids (StatsProvider.deleteMatches matchIds s))).
Proof.
  split; [apply addMatches_NoDup|]. intros Hnd. repeat split.
  - now apply addMatch_NoDup.
  - now apply match_ids_filter.
  - now apply match_ids_filter.
Qed.

(** X3. Deleting the id of a match just added undoes the addition and
    what the id held before; when the id was not in the store, the match
    went last, the store is back as it was, and so are the aggregated
    players. *)
Theorem addMatch_deleteMatch (m : Match.t) (s : list Match.t) :
  StatsProvider.deleteMatch (Match.id m) (StatsProvider.addMatch m s)
  = StatsProvider.deleteMatch (Match.id m) s
  /\ (~ In (Match.id m) (match_ids s) ->
      StatsProvider.addMatch m s = s ++ [m]
      /\ StatsProvider.deleteMatch (Match.id m) (StatsProvider.addMatch m s) = s
      /\ aggregatePlayerStats
           (StatsProvider.deleteMatch (Match.id m) (StatsProvider.addMatch m s))
         = aggregatePlayerStats s).
Proof.
  assert (StatsProvider.deleteMatch (Match.id m) (StatsProvider.addMatch m s)
          = StatsProvider.deleteMatch (Match.id m) s) as Hdel.
  { unfold StatsProvider.deleteMatch, StatsProvider.addMatch.
    rewrite List.filter_app, filter_filter. simpl. rewrite String.eqb_refl. simpl.
    rewrite app_nil_r. apply List.filter_ext. intros x.
    now destruct (String.eqb (Match.id x) (Match.id m)). }
  split; [exact Hdel|]. intros Hfresh.
  assert (StatsProvider.deleteMatch (Match.id m) s = s) as Hsame.
  { apply filter_all. intros x Hx. apply negb_true_iff, String.eqb_neq.
    intros Heq. apply Hfresh. unfold match_ids. rewrite <- Heq. now apply in_map. }
  split; [now apply addMatch_fresh|]. rewrite Hdel, Hsame. now split.
Qed.

(** X4. On a store with distinct ids, a bulk upload holds the same
    matches as adding the new matches one by one, so the aggregated
    players have the same match counters and sums of counts either way
    (the summed rating, a sum of binary64 numbers in store order, is not
    among them). *)
Theorem addMatches_as_addMatch (newMatches s : list Match.t) :
  NoDup (match_ids s) ->
  Permutation (StatsProvider.addMatches newMatches s)
              (fold_left (fun st m => StatsProvider.addMatch m st) newMatches s)
  /\ Permutation
       (List.map counters
          (aggregatePlayerStats (StatsProvider.addMatches newMatches s)))
       (List.map counters
          (aggregatePlayerStats
             (fold_left (fun st m => StatsProvider.addMatch m st) newMatches s))).
Proof.
  intros Hnd.
  assert (Permutation (StatsProvider.addMatches newMatches s)
            (fold_left (fun st m => StatsProvider.addMatch m st) newMatches s))
    as Hperm.
  { apply stores_perm.
    - apply addMatches_NoDup.
    - now apply fold_addMatch_NoDup.
    - intros id. rewrite stored_addMatches, stored_fold_addMatch.
      now rewrite (stored_rev id s Hnd). }
  split; [exact Hperm|now apply aggregate_counters_perm].
Qed.

(** X5. Deleting several ids at once is deleting them one after the
    other, and afterwards nothing is stored under a deleted id while every
    other id holds what it held. *)
Theorem deleteMatches_each (matchIds : list string) (s : list Match.t)
    (id : string) :
  StatsProvider.deleteMatches matchIds s
  = fold_left (fun st i => StatsProvider.deleteMatch i st) matchIds s
  /\ stored id (StatsProvider.deleteMatches matchIds s)
     = if TeamBuilder.includes id matchIds then None else stored id s.
Proof.
  split.
  - revert s. induction matchIds as [|i ids IH]; intros s; simpl.
    + apply filter_all. reflexivity.
    + rewrite <- IH. unfold StatsProvider.deleteMatches, StatsProvider.deleteMatch.
      rewrite filter_filter. apply List.filter_ext. intros x.
      unfold TeamBuilder.includes. simpl. now rewrite negb_orb.
  - unfold stored, StatsProvider.deleteMatches.
    destruct (TeamBuilder.includes id matchIds) eqn:Hinc.
    + apply find_filter_none. intros x ->%String.eqb_eq. now rewrite Hinc.
    + apply find_filter_same. intros x ->%String.eqb_eq. now rewrite Hinc.
Qed.

(* ===================================================================== *)
(** * More on aggregation *)
(* ===================================================================== *)

Lemma fold_left_add_from (l : list N) (a : N) :
  fold_left N.add l a = (a + sum_N l)%N.
Proof.
  unfold sum_N. revert a. induction l as [|y l IH]; intros a; simpl; [lia|].
  rewrite (IH (a + y)%N), (IH (0 + y)%N). lia.
Qed.

Lemma sum_N_cons (x : N) (l : list N) : sum_N (x :: l) = (x + sum_N l)%N.
Proof. unfold sum_N at 1. simpl. apply fold_left_add_from. Qed.

Lemma sum_N_app (l l' : list N) : sum_N (l ++ l') = (sum_N l + sum_N l')%N.
Proof.
  unfold sum_N at 1. rewrite fold_left_app. fold (sum_N l).
  apply fold_left_add_from.
Qed.

(** A quantity that starts at 0 in a new entry and grows by [g] of each
    record folded in adds up, over the dictionary, to the sum of [g]. *)
Section Conservation.
Variable f : AggregatedPlayerStats.t -> N.
Variable g : PlayerStats.t -> N.
Hypothesis f_new : forall k p, f (new_entry k p) = 0%N.
Hypothesis f_accumulate : forall a p, f (accumulate a p) = (f a + g p)%N.

Lemma total_set (k : string) (v : AggregatedPlayerStats.t)
    (d : Dict.t AggregatedPlayerStats.t) :
  (sum_N (List.map (fun e => f (snd e)) (Dict.set k v d))
   + default 0 (f <$> Dict.get k d)
   = sum_N (List.map (fun e => f (snd e)) d) + f v)%N.
Proof.
  induction d as [|[k' v'] d IH]; simpl.
  - rewrite sum_N_cons. unfold sum_N; simpl. lia.
  - destruct (String.eqb k' k); simpl; rewrite !sum_N_cons; simpl; lia.
Qed.

Lemma total_fold_player (d : Dict.t AggregatedPlayerStats.t)
    (p : PlayerStats.t) :
  sum_N (List.map (fun e => f (snd e)) (fold_player d p))
  = (sum_N (List.map (fun e => f (snd e)) d) + g p)%N.
Proof.
  unfold fold_player. set (s := toString (PlayerStats.steam_id p)).
  destruct (Dict.get s d) as [a|] eqn:Hget.
  - rewrite Hget. pose proof (total_set s (accumulate a p) d) as Hset.
    rewrite Hget, f_accumulate in Hset. simpl in Hset. lia.
  - rewrite get_set_eq.
    pose proof (total_set s (new_entry s p) d) as H1.
    pose proof (total_set s (accumulate (new_entry s p) p)
                  (Dict.set s (new_entry s p) d)) as H2.
    rewrite Hget in H1. rewrite get_set_eq, f_accumulate in H2.
    simpl in H1, H2. rewrite f_new in *. lia.
Qed.

Lemma total_fold_players (ps : list PlayerStats.t)
    (d : Dict.t AggregatedPlayerStats.t) :
  sum_N (List.map (fun e => f (snd e)) (fold_left fold_player ps d))
  = (sum_N (List.map (fun e => f (snd e)) d) + sum_N (List.map g ps))%N.
Proof.
  revert d. induction ps as [|p ps IH]; intros d; simpl.
  - unfold sum_N at 3; simpl. lia.
  - rewrite IH, total_fold_player, sum_N_cons. lia.
Qed.

Lemma total_aggregate (matches : list Match.t) :
  sum_N (List.map f (aggregatePlayerStats matches))
  = sum_N (List.map g (participants matches)).
Proof.
  unfold aggregatePlayerStats, Dict.values.
  rewrite List.map_map.
  rewrite (sum_N_perm _ (List.map (fun e => f (snd e)) (playerMap_of matches)))
    by apply Permutation_map, own_properties_perm.
  rewrite playerMap_of_participants, total_fold_players. reflexivity.
Qed.
End Conservation.

Lemma occurrences_cons (k : string) (m : Match.t) (matches : list Match.t) :
  occurrences k (m :: matches)
  = List.filter (plays_as k) (Match.data m) ++ occurrences k matches.
Proof. unfold occurrences, participants. simpl. apply List.filter_app. Qed.

Lemma occurrences_app (k : string) (matches matches' : list Match.t) :
  occurrences k (matches ++ matches')
  = occurrences k matches ++ occurrences k matches'.
Proof.
  unfold occurrences, participants. now rewrite flat_map_app, List.filter_app.
Qed.

Lemma filter_nil_existsb {A : Type} (f : A -> bool) (l : list A) :
  existsb f l = false -> List.filter f l = [].
Proof.
  induction l as [|x l IH]; simpl; [reflexivity|].
  destruct (f x); simpl; [discriminate|exact IH].
Qed.

Lemma filter_cons_existsb {A : Type} (f : A -> bool) (l : list A) :
  existsb f l = true -> (1 <= List.length (List.filter f l))%nat.
Proof.
  induction l as [|x l IH]; simpl; [discriminate|].
  destruct (f x); simpl; [lia|exact IH].
Qed.

(** The occurrences of a player in the matches the player is in are the
    occurrences in all the matches. *)
Lemma occurrences_own_matches (k : string) (matches : list Match.t) :
  occurrences k (List.filter (participant k) matches) = occurrences k matches.
Proof.
  induction matches as [|m ms IH]; [reflexivity|]. simpl.
  destruct (participant k m) eqn:Hp.
  - now rewrite !occurrences_cons, IH.
  - rewrite occurrences_cons, IH. unfold participant in Hp.
    now rewrite (filter_nil_existsb _ _ Hp).
Qed.

(** X6. The total kills of the dashboard is the sum of the kills of all
    the participant records of all the matches, and the match counters of
    the aggregated players add up to the number of those records: the
    aggregation loses nothing and counts nothing twice. *)
Theorem aggregation_conserves_totals (matches : list Match.t) :
  Dashboard.totalKills (aggregatePlayerStats matches)
  = sum_N (List.map PlayerStats.kills (participants matches))
  /\ sum_N (List.map AggregatedPlayerStats.matches (aggregatePlayerStats matches))
     = N.of_nat (List.length (participants matches)).
Proof.
  split.
  - rewrite <- (total_aggregate AggregatedPlayerStats.kills PlayerStats.kills)
      by reflexivity.
    unfold Dashboard.totalKills, sum_N.
    generalize 0%N. induction (aggregatePlayerStats matches) as [|a l IH];
      intros n; simpl; [reflexivity|apply IH].
  - rewrite (total_aggregate AggregatedPlayerStats.matches (fun _ => 1%N))
      by reflexivity.
    induction (participants matches) as [|p ps IH]; [reflexivity|].
    cbn [List.map List.length]. rewrite sum_N_cons, IH. lia.
Qed.

(** X7. Appending matches never lowers a counter: a player aggregated
    from [matches] is still there after [matches'] are appended, with
    every counter and counting sum at least what it was. *)
Theorem aggregates_grow (matches matches' : list Match.t)
    (a : AggregatedPlayerStats.t) :
  In a (aggregatePlayerStats matches) ->
  exists a',
    lookup_player (AggregatedPlayerStats.steam_id a)
                  (aggregatePlayerStats (matches ++ matches')) = Some a'
    /\ Forall2 N.le (tallies a) (tallies a').
Proof.
  intros (p & Hp & ->)%aggregate_In.
  set (k := toString (PlayerStats.steam_id p)).
  assert (In p (occurrences k matches)) as Hocc
    by (apply occurrences_In; now split).
  cbn [aggregate_of AggregatedPlayerStats.steam_id].
  rewrite lookup_aggregate, occurrences_app.
  destruct (occurrences k matches) as [|p0 occs] eqn:E; [destruct Hocc|].
  cbn [app]. eexists. split; [reflexivity|].
  unfold tallies, aggregate_of.
  cbn [AggregatedPlayerStats.matches AggregatedPlayerStats.kills
       AggregatedPlayerStats.deaths AggregatedPlayerStats.assists
       AggregatedPlayerStats.rounds_played AggregatedPlayerStats.damage_total
       AggregatedPlayerStats.sniper_kills AggregatedPlayerStats.utility_damage
       AggregatedPlayerStats.flashes_thrown AggregatedPlayerStats.opening_kills
       AggregatedPlayerStats.opening_deaths
       AggregatedPlayerStats.opening_attempts
       AggregatedPlayerStats.trade_kills AggregatedPlayerStats.clutches_won].
  change (p0 :: occs ++ occurrences k matches')
    with ((p0 :: occs) ++ occurrences k matches').
  rewrite !List.map_app, !sum_N_app, length_app.
  repeat constructor; lia.
Qed.

Lemma playerAggregatedStats_entry (matches : list Match.t) (steamId : string) :
  PlayerProfile.playerAggregatedStats matches steamId
  = lookup_player steamId (aggregatePlayerStats matches).
Proof.
  assert (PlayerProfile.playerAggregatedStats matches steamId
          = lookup_player steamId
              (aggregatePlayerStats (List.filter (participant steamId) matches)))
    as -> by reflexivity.
  rewrite !lookup_aggregate. now rewrite occurrences_own_matches.
Qed.

(** X8. The aggregate the profile page computes, from the matches the
    player is in, is the entry of the player among the aggregated players
    of all the matches: profile and leaderboard show the same numbers. *)
Theorem profile_is_leaderboard_entry (matches : list Match.t)
    (steamId : string) :
  PlayerProfile.playerAggregatedStats matches steamId
  = lookup_player steamId (aggregatePlayerStats matches).
Proof. apply playerAggregatedStats_entry. Qed.

(* ===================================================================== *)
(** * Sorted views *)
(* ===================================================================== *)

Lemma StronglySorted_weaken {A : Type} (R R' : A -> A -> Prop) (l : list A) :
  (forall x y, R x y -> R' x y) -> StronglySorted R l -> StronglySorted R' l.
Proof.
  intros Himpl. induction 1 as [|x l _ IH Hall]; constructor; [exact IH|].
  eapply Forall_impl; [exact Hall|]. intros y. apply Himpl.
Qed.

(** Sorting with [(a, b) => key(b) - key(a)] for an integer key. *)
Lemma Array_sort_Z_descending {A : Type} (key : A -> Z) (l : list A) :
  stable_descending_Z key l
    (Array_sort (fun a b => JS.sub (JS.of_Z (key b)) (JS.of_Z (key a))) l).
Proof.
  change (fun a b => JS.sub (JS.of_Z (key b)) (JS.of_Z (key a)))
    with (descending (fun x => inject_Z (key x))).
  destruct (Array_sort_descending (fun x => inject_Z (key x)) l)
    as (Hperm & Hsorted & Hstable).
  split; [exact Hperm|]. split.
  - eapply StronglySorted_weaken; [|exact Hsorted].
    intros x y Hle. simpl in Hle. now rewrite Zle_Qle.
  - intros z. specialize (Hstable (inject_Z z)).
    assert (forall a, Z.eqb (key a) z = Qeq_bool (inject_Z (key a)) (inject_Z z))
      as Hsame.
    { intros a. apply eq_true_iff_eq.
      now rewrite Z.eqb_eq, Qeq_bool_iff, inject_Z_injective. }
    rewrite !(List.filter_ext _ _ Hsame). exact Hstable.
Qed.

Lemma rating_sort_descending (l : list AggregatedPlayerStats.t) :
  Forall played l ->
  stable_descending average_rating l
    (Array_sort (fun a b => JS.sub (TeamBuilder.averageRating b)
                                   (TeamBuilder.averageRating a)) l).
Proof.
  intros Hplayed.
  rewrite (Array_sort_ext _ (descending average_rating)).
  - apply Array_sort_descending.
  - intros x y Hx Hy. unfold descending. rewrite Forall_forall in Hplayed.
    rewrite !averageRating_played by (apply Hplayed; now apply list_elem_of_In).
    reflexivity.
Qed.

(** Sorting with a comparison function that never asks for a swap
    leaves the list as it is. *)
Lemma Array_sort_indifferent {A : Type} (compareFn : A -> A -> JS.number)
    (l : list A) :
  (forall x y, JS.gtb (compareFn x y) (JS.of_N 0) = false) ->
  Array_sort compareFn l = l.
Proof.
  intros Hnever. induction l as [|x l IH]; [reflexivity|].
  cbn [Array_sort fold_right]. fold (Array_sort compareFn l). rewrite IH.
  destruct l as [|y l]; [reflexivity|]. cbn [sort_insert]. now rewrite Hnever.
Qed.

Lemma sort_value_finite (key : SortKey) (a : AggregatedPlayerStats.t) :
  key <> key_adr ->
  sort_value key a
  = JS.Fin match key with
           | key_matches => Qof (AggregatedPlayerStats.matches a)
           | _ => leaderboard_rating a
           end.
Proof.
  intros Hkey. destruct key; [|contradiction|reflexivity].
  unfold sort_value, leaderboard_rating, average_rating.
  destruct (N.ltb_spec 0 (AggregatedPlayerStats.matches a)) as [Hpos|_];
    [|reflexivity].
  now rewrite div_count.
Qed.

Lemma ltb_finite (a b : Q) : JS.ltb (JS.Fin a) (JS.Fin b) = true <-> (a < b)%Q.
Proof. apply (gtb_finite b a). Qed.

(** When the two values are finite, a swap is asked for exactly when the
    directed keys are in the wrong order. *)
Lemma compare_players_after (key : SortKey) (direction : Direction)
    (x y : AggregatedPlayerStats.t) (qx qy : Q) :
  sort_value key x = JS.Fin qx -> sort_value key y = JS.Fin qy ->
  JS.gtb (compare_players key direction x y) (JS.of_N 0) = true
  <-> (directed direction qx < directed direction qy)%Q.
Proof.
  intros Hx Hy. unfold compare_players. rewrite Hx, Hy.
  destruct (JS.ltb (JS.Fin qx) (JS.Fin qy)) eqn:Hlt;
    [apply ltb_finite in Hlt
    |apply not_true_iff_false in Hlt; rewrite ltb_finite in Hlt];
  (destruct (JS.gtb (JS.Fin qx) (JS.Fin qy)) eqn:Hgt;
    [apply gtb_finite in Hgt
    |apply not_true_iff_false in Hgt; rewrite gtb_finite in Hgt]);
  destruct direction; simpl;
  (split; [intros Hc; try discriminate Hc; try lra
          |intros Hc; try reflexivity; try lra]).
Qed.

(** X9. The leaderboard never loses or repeats a player, whatever the
    sort; sorted by rating or by maps it lists the players by that key in
    the chosen direction, players with equal keys in the order they came
    in.  The rating is the binary64 quotient the source compares: two
    players whose quotients round to the same number are tied. *)
Theorem leaderboard_sorted (sortConfig : option (SortKey * Direction))
    (direction : Direction) (players : list AggregatedPlayerStats.t) :
  Permutation (sortedPlayers sortConfig players) players
  /\ stable_descending (fun p => directed direction (leaderboard_rating p))
       players
       (sortedPlayers (Some (key_hltv_3_0_score, direction)) players)
  /\ stable_descending
       (fun p => directed direction (Qof (AggregatedPlayerStats.matches p)))
       players
       (sortedPlayers (Some (key_matches, direction)) players).
Proof.
  split.
  - destruct sortConfig as [[key dir]|]; [apply Array_sort_perm|reflexivity].
  - assert (forall key keyQ,
              (forall a, sort_value key a = JS.Fin (keyQ a)) ->
              stable_descending (fun p => directed direction (keyQ p)) players
                (sortedPlayers (Some (key, direction)) players)) as Hsorted.
    { intros key keyQ Hvalue. unfold sortedPlayers.
      rewrite (Array_sort_ext _
                 (descending (fun p => directed direction (keyQ p)))).
      - apply Array_sort_descending.
      - intros x y _ _. apply eq_true_iff_eq.
        rewrite (compare_players_after key direction x y _ _
                   (Hvalue x) (Hvalue y)).
        now rewrite descending_after. }
    split; apply Hsorted; intros a.
    + now rewrite sort_value_finite.
    + now rewrite sort_value_finite.
Qed.

(** Summed ratings of 6.72 over 6 matches and 7.84 over 7: the exact
    quotients differ, the numbers compared are the same, and the
    leaderboard keeps the two players in the order it was given. *)
Example leaderboard_tie :
  ~ (AggregatedPlayerStats.hltv_3_0_score tied_a / 6
     == AggregatedPlayerStats.hltv_3_0_score tied_b / 7)%Q
  /\ leaderboard_rating tied_a = leaderboard_rating tied_b
  /\ sortedPlayers (Some (key_hltv_3_0_score, desc)) [tied_a; tied_b]
     = [tied_a; tied_b]
  /\ sortedPlayers (Some (key_hltv_3_0_score, desc)) [tied_b; tied_a]
     = [tied_b; tied_a].
Proof. repeat split; vm_compute; try reflexivity; discriminate. Qed.

(** X10. Sorting the leaderboard by ADR changes nothing, in either
    direction: an aggregate has no [adr] property, every comparison of
    the two undefined values is false, and the stable sort keeps the order
    it was given. *)
Theorem leaderboard_adr_unsorted (direction : Direction)
    (players : list AggregatedPlayerStats.t) :
  sortedPlayers (Some (key_adr, direction)) players = players.
Proof.
  unfold sortedPlayers. apply Array_sort_indifferent.
  intros x y. reflexivity.
Qed.

(** X11. The dashboard lists at most five matches, the newest first, and
    no match it leaves out is newer than one it lists. *)
Theorem recent_matches_newest (matches : list Match.t) :
  List.length (Dashboard.recentMatches matches)
  = Nat.min 5 (List.length matches)
  /\ newest_first (Dashboard.recentMatches matches)
  /\ exists rest,
       Permutation (Dashboard.recentMatches matches ++ rest) matches
       /\ forall m m',
            In m (Dashboard.recentMatches matches) -> In m' rest ->
            (Match.timestamp m' <= Match.timestamp m)%Z.
Proof.
  unfold Dashboard.recentMatches.
  destruct (Array_sort_Z_descending Match.timestamp matches)
    as (Hperm & Hsorted & _).
  change (fun a b => JS.sub (JS.of_Z (Match.timestamp b))
                            (JS.of_Z (Match.timestamp a)))
    with Dashboard.by_timestamp_desc in *.
  set (sorted := Array_sort Dashboard.by_timestamp_desc matches) in *.
  rewrite <- (firstn_skipn 5 sorted) in Hsorted, Hperm.
  split; [|split].
  - rewrite length_take. now rewrite <- (Permutation_length Hperm), firstn_skipn.
  - now apply StronglySorted_app_1_l in Hsorted.
  - exists (skipn 5 sorted). split; [exact Hperm|].
    intros m m' Hm Hm'.
    apply (StronglySorted_app_1_elem_of _ _ _ m m' Hsorted);
      now apply list_elem_of_In.
Qed.

(** X12. The top player of the dashboard is an aggregated player whose
    average rating no other aggregated player exceeds; there is none only
    when no player is aggregated. *)
Theorem top_player_best (matches : list Match.t) :
  match Dashboard.topPlayer (aggregatePlayerStats matches) with
  | Some p =>
      In p (aggregatePlayerStats matches)
      /\ forall q, In q (aggregatePlayerStats matches) ->
                   (average_rating q <= average_rating p)%Q
  | None => aggregatePlayerStats matches = []
  end.
Proof.
  unfold Dashboard.topPlayer.
  assert (Forall played (aggregatePlayerStats matches)) as Hplayed.
  { apply Forall_forall. intros p Hp%list_elem_of_In.
    now apply aggregate_played in Hp. }
  destruct (rating_sort_descending _ Hplayed) as (Hperm & Hsorted & _).
  destruct (aggregatePlayerStats matches) as [|a l] eqn:E; [reflexivity|].
  cbn [List.length Nat.eqb].
  destruct (Array_sort _ (a :: l)) as [|p sorted] eqn:Hs.
  - apply Permutation_nil in Hperm. discriminate.
  - cbn [head]. split.
    + eapply Permutation_in; [exact Hperm|now left].
    + intros q Hq. apply StronglySorted_inv in Hsorted as [_ Hall].
      eapply Permutation_in in Hq; [|symmetry; exact Hperm].
      destruct Hq as [<-|Hq]; [apply Qle_refl|].
      rewrite Forall_forall in Hall. now apply Hall, list_elem_of_In.
Qed.

(** X13. The scoreboard of a match lists its participant records by
    kills, most first, records with equal kills in the order of the
    match. *)
Theorem scoreboard_by_kills (m : Match.t) :
  stable_descending_Z (fun p => Z.of_N (PlayerStats.kills p)) (Match.data m)
                      (sortedScoreboard m).
Proof. apply (Array_sort_Z_descending (fun p => Z.of_N (PlayerStats.kills p))). Qed.

(** X14. The history of a head-to-head lists its entries newest match
    first. *)
Theorem duel_history_newest_first (allPlayers : list AggregatedPlayerStats.t)
    (matches : list Match.t) (player1Id player2Id : option string)
    (r : Duels.result) :
  Duels.duelStats allPlayers matches player1Id player2Id = Some r ->
  newest_first (List.map HistoryEntry.match_ (Duels.history r)).
Proof.
  unfold Duels.duelStats. intros Hstats.
  destruct (Duels.unset player1Id || Duels.unset player2Id); [discriminate|].
  destruct player1Id as [id1|], player2Id as [id2|]; try discriminate.
  destruct (TeamBuilder.findPlayer allPlayers id1); [|discriminate].
  destruct (TeamBuilder.findPlayer allPlayers id2); [|discriminate].
  injection Hstats as <-. cbn [Duels.history].
  destruct (Array_sort_Z_descending
              (fun e => Match.timestamp (HistoryEntry.match_ e))
              (Duels.acc_history
                 (fold_left (Duels.visit id1 id2) matches
                    {| Duels.acc_p1Kills := 0; Duels.acc_p2Kills := 0;
                       Duels.acc_history := [] |})))
    as (_ & Hsorted & _).
  unfold newest_first.
  change (fun a b => JS.sub
            (JS.of_Z (Match.timestamp (HistoryEntry.match_ b)))
            (JS.of_Z (Match.timestamp (HistoryEntry.match_ a))))
    with Duels.by_timestamp_desc in Hsorted.
  induction Hsorted as [|e l _ IH Hall]; simpl; constructor; [exact IH|].
  apply Forall_fmap. exact Hall.
Qed.

(* ===================================================================== *)
(** * The profile page *)
(* ===================================================================== *)

Lemma participating_le_occurrences (k : string) (matches : list Match.t) :
  (List.length (List.filter (participant k) matches)
   <= List.length (occurrences k matches))%nat.
Proof.
  induction matches as [|m ms IH]; [reflexivity|].
  rewrite occurrences_cons, length_app. simpl.
  destruct (participant k m) eqn:Hp; simpl; [|lia].
  apply filter_cons_existsb in Hp. lia.
Qed.

Lemma one_record_each (k : string) (data : list PlayerStats.t) :
  NoDup (List.map (fun p => toString (PlayerStats.steam_id p)) data) ->
  (List.length (List.filter (plays_as k) data) <= 1)%nat.
Proof.
  induction data as [|p data IH]; simpl; intros Hnd; [lia|].
  apply NoDup_cons in Hnd as [Hp Hnd].
  destruct (plays_as k p) eqn:Hk; simpl; [|now apply IH].
  assert (List.filter (plays_as k) data = []) as ->; [|simpl; lia].
  apply filter_nil_existsb. apply not_true_iff_false.
  rewrite existsb_exists. intros (x & Hx & Hkx). apply Hp.
  apply list_elem_of_In, in_map_iff. exists x. split; [|exact Hx].
  unfold plays_as in *. apply String.eqb_eq in Hk, Hkx. congruence.
Qed.

Lemma participating_eq_occurrences (k : string) (matches : list Match.t) :
  Forall distinct_participants matches ->
  List.length (List.filter (participant k) matches)
  = List.length (occurrences k matches).
Proof.
  induction 1 as [|m ms Hm _ IH]; [reflexivity|].
  rewrite occurrences_cons, length_app. simpl.
  pose proof (one_record_each k _ Hm) as Hone.
  destruct (participant k m) eqn:Hp; simpl.
  - apply filter_cons_existsb in Hp. lia.
  - unfold participant in Hp. rewrite (filter_nil_existsb _ _ Hp). simpl. lia.
Qed.

Lemma StronglySorted_map {A B : Type} (f : A -> B) (R : B -> B -> Prop)
    (l : list A) :
  StronglySorted (fun a b => R (f a) (f b)) l ->
  StronglySorted R (List.map f l).
Proof.
  induction 1 as [|e l _ IH Hall]; simpl; constructor; [exact IH|].
  apply Forall_fmap. exact Hall.
Qed.

Lemma history_rows_filter (matches : list Match.t) (steamId : string) :
  List.filter (fun item : Match.t * option PlayerStats.t =>
                 bool_decide (is_Some (snd item)))
    (List.map (fun m => (m, Duels.findData steamId m)) matches)
  = List.map (fun m => (m, record_of steamId m))
      (List.filter (participant steamId) matches).
Proof.
  change (fun m => (m, record_of steamId m))
    with (fun m => (m, Duels.findData steamId m)).
  induction matches as [|m ms IH]; [reflexivity|]. cbn [List.map List.filter].
  unfold participant at 1. rewrite existsb_find.
  change (List.find (plays_as steamId) (Match.data m))
    with (Duels.findData steamId m).
  cbn [snd]. destruct (Duels.findData steamId m) eqn:Hfind;
    cbn [bool_decide decide_rel List.map]; rewrite IH.
  - rewrite bool_decide_eq_true_2 by (eexists; reflexivity).
    cbn [List.map]. now rewrite Hfind.
  - rewrite bool_decide_eq_false_2 by (intros [? ?]; discriminate). reflexivity.
Qed.

(** X15. The match history of the profile page is the list of the
    matches the player is in, each exactly as often as the match list
    has it and each with the first record of the player in it, sorted
    newest match first, matches of the same time in the order of the
    match list; the rows never outnumber the maps the profile counts,
    and are as many when no match lists a player twice. *)
Theorem player_history_rows (matches : list Match.t) (steamId : string)
    (stats : AggregatedPlayerStats.t) :
  PlayerProfile.playerAggregatedStats matches steamId = Some stats ->
  let played_in := List.filter (participant steamId) matches in
  let rows := playerMatchHistory matches steamId in
  stable_descending_Z (fun row => Match.timestamp (fst row))
    (List.map (fun m => (m, record_of steamId m)) played_in) rows
  /\ Permutation (List.map fst rows) played_in
  /\ newest_first (List.map fst rows)
  /\ (forall row, In row rows ->
        exists p, snd row = Some p /\ record_of steamId (fst row) = Some p)
  /\ (N.of_nat (List.length rows) <= AggregatedPlayerStats.matches stats)%N
  /\ (Forall distinct_participants matches ->
      N.of_nat (List.length rows) = AggregatedPlayerStats.matches stats).
Proof.
  intros Hstats played_in rows.
  rewrite playerAggregatedStats_entry, lookup_aggregate in Hstats.
  destruct (occurrences steamId matches) as [|p0 occs] eqn:Hocc; [discriminate|].
  injection Hstats as <-. cbn [aggregate_of AggregatedPlayerStats.matches].
  assert (stable_descending_Z (fun row => Match.timestamp (fst row))
            (List.map (fun m => (m, record_of steamId m)) played_in) rows)
    as Hstable.
  { unfold rows, playerMatchHistory. rewrite history_rows_filter.
    apply (Array_sort_Z_descending
             (fun item : Match.t * option PlayerStats.t =>
                Match.timestamp (fst item))). }
  destruct Hstable as (Hperm & Hsorted & Hties).
  assert (Permutation (List.map fst rows) played_in) as Hmatches.
  { rewrite (Permutation_map fst Hperm), List.map_map. cbn [fst].
    now rewrite List.map_id. }
  assert (List.length rows = List.length played_in) as Hlen.
  { rewrite <- (Permutation_length Hmatches). now rewrite length_map. }
  split; [now repeat split|]. split; [exact Hmatches|].
  split; [unfold newest_first; apply StronglySorted_map; exact Hsorted|].
  rewrite Hlen, <- Hocc. unfold played_in. repeat split.
  - intros row Hrow. eapply Permutation_in in Hrow; [|exact Hperm].
    apply in_map_iff in Hrow as (m & <- & Hm). cbn [fst snd].
    apply filter_In in Hm as [_ Hpart]. unfold participant in Hpart.
    rewrite existsb_find in Hpart. unfold record_of.
    destruct (List.find (plays_as steamId) (Match.data m)) as [p|];
      [|discriminate].
    exists p. now split.
  - pose proof (participating_le_occurrences steamId matches). lia.
  - intros Hdistinct. now rewrite participating_eq_occurrences.
Qed.

(** A score whose value is not negative and whose target is positive is
    an integer from 0 to 100. *)
Lemma calcScore_percent (v t : Q) :
  (0 <= v)%Q -> (0 < t)%Q ->
  percent_score (PlayerProfile.calcScore (JS.Fin v) (JS.Fin t)).
Proof.
  intros Hv Ht. unfold PlayerProfile.calcScore.
  rewrite div_finite by (intros Hz; lra).
  unfold JS.mul, JS.of_N at 2, JS.of_Z, JS.round.
  set (z := Qfloor (JS.binary64 (quotient v t * inject_Z (Z.of_N 100))
                    + (1 # 2))).
  assert (0 <= z)%Z as Hz.
  { change 0%Z with (Qfloor 0). apply Qfloor_resp_le.
    assert (0 <= v / t)%Q by (apply Qle_shift_div_l; lra).
    assert (0 <= quotient v t)%Q by now apply binary64_nonneg.
    assert (0 <= JS.binary64 (quotient v t * inject_Z (Z.of_N 100)))%Q.
    { apply binary64_nonneg. change (inject_Z (Z.of_N 100)) with 100%Q. lra. }
    lra. }
  unfold JS.min, JS.of_N, JS.of_Z.
  destruct (JS.ltb (JS.Fin (inject_Z z)) (JS.Fin (inject_Z (Z.of_N 100))))
    eqn:Hlt.
  - exists z. split; [reflexivity|]. apply ltb_finite in Hlt.
    rewrite <- Zlt_Qlt in Hlt. lia.
  - exists 100%Z. split; [reflexivity|lia].
Qed.

Lemma ratio_nonneg (x n : N) : (0 < n)%N -> (0 <= Qof x / Qof n)%Q.
Proof.
  intros Hn. apply Qle_shift_div_l; [now apply Qof_pos|].
  pose proof (Qof_nonneg x). lra.
Qed.

Lemma ratio_score_percent (x n : N) (t : Q) :
  (0 < n)%N -> (0 < t)%Q ->
  percent_score
    (PlayerProfile.calcScore (JS.div (JS.of_N x) (JS.of_N n)) (JS.Fin t)).
Proof.
  intros Hn Ht. unfold JS.of_N at 1, JS.of_Z. rewrite div_count by exact Hn.
  apply calcScore_percent; [|exact Ht].
  apply binary64_nonneg. now apply ratio_nonneg.
Qed.

(** X16. For every aggregated player the entry, opening, trading,
    clutching and utility scores are integers from 0 to 100, and so is
    the sniping score of a player with at least one kill. *)
Theorem playstyle_scores_percent (matches : list Match.t)
    (stats : AggregatedPlayerStats.t) :
  In stats (aggregatePlayerStats matches) ->
  percent_score (PlayerProfile.entryScore stats)
  /\ percent_score (PlayerProfile.openingScore stats)
  /\ percent_score (PlayerProfile.tradingScore stats)
  /\ percent_score (PlayerProfile.clutchingScore stats)
  /\ percent_score (PlayerProfile.utilityScore stats)
  /\ ((0 < AggregatedPlayerStats.kills stats)%N ->
      percent_score (PlayerProfile.snipingScore stats)).
Proof.
  intros Hplayed%aggregate_played.
  unfold PlayerProfile.entryScore, PlayerProfile.openingScore,
         PlayerProfile.tradingScore, PlayerProfile.clutchingScore,
         PlayerProfile.utilityScore, PlayerProfile.snipingScore.
  repeat split.
  - destruct (N.ltb_spec 0 (AggregatedPlayerStats.opening_attempts stats))
      as [Hpos|_].
    + apply ratio_score_percent; [exact Hpos|now apply binary64_pos].
    + exists 0%Z. split; [reflexivity|lia].
  - apply ratio_score_percent; [exact Hplayed|now apply binary64_pos].
  - apply (ratio_score_percent _ _ 3); [exact Hplayed|reflexivity].
  - apply (ratio_score_percent _ _ 1); [exact Hplayed|reflexivity].
  - apply (ratio_score_percent _ _ 300); [exact Hplayed|reflexivity].
  - intros Hkills. apply ratio_score_percent; [exact Hkills|now apply binary64_pos].
Qed.

(* ===================================================================== *)
(** * The lobby and the sizes of the teams *)
(* ===================================================================== *)

Lemma step_lobby_small (st st' : TeamBuilder.state) :
  step st st' ->
  (List.length (TeamBuilder.lobbyPlayers st) <= 10)%nat ->
  (List.length (TeamBuilder.lobbyPlayers st') <= 10)%nat.
Proof.
  intros Hstep Hlen. destruct Hstep as [id st|id st|id team st|st|allPlayers st].
  - unfold TeamBuilder.addPlayerToLobby.
    destruct (negb (TeamBuilder.includes id (TeamBuilder.lobbyPlayers st)));
      simpl; [|exact Hlen].
    destruct (Nat.ltb_spec (List.length (TeamBuilder.lobbyPlayers st)) 10);
      simpl; [|exact Hlen].
    rewrite length_app. simpl. lia.
  - simpl. etransitivity; [apply List.filter_length_le|exact Hlen].
  - exact Hlen.
  - simpl. lia.
  - unfold TeamBuilder.generateTeams.
    destruct (negb _ || _); simpl; exact Hlen.
Qed.

Lemma defined_length_le {A : Type} (l : list (option A)) :
  (List.length (TeamBuilder.defined l) <= List.length l)%nat.
Proof.
  induction l as [|[x|] l IH]; simpl; lia.
Qed.

Lemma active_length_le (allPlayers : list AggregatedPlayerStats.t)
    (st : TeamBuilder.state) :
  (List.length (TeamBuilder.activePlayers allPlayers st)
   <= List.length (TeamBuilder.lobbyPlayers st))%nat.
Proof.
  unfold TeamBuilder.activePlayers.
  etransitivity; [apply defined_length_le|].
  rewrite length_map. apply List.filter_length_le.
Qed.

(** X17. In every state the component can reach the lobby holds no id
    twice and at most ten ids, so whatever the aggregated players are at
    most ten of them are active. *)
Theorem lobby_invariant (st : TeamBuilder.state) :
  reachable st ->
  NoDup (TeamBuilder.lobbyPlayers st)
  /\ (List.length (TeamBuilder.lobbyPlayers st) <= 10)%nat
  /\ (forall allPlayers,
        (List.length (TeamBuilder.activePlayers allPlayers st) <= 10)%nat).
Proof.
  intros Hreach. split; [now apply reachable_lobby_NoDup|].
  assert (List.length (TeamBuilder.lobbyPlayers st) <= 10)%nat as Hsmall.
  { apply (rtc_ind_r (R := step)
             (fun s => (List.length (TeamBuilder.lobbyPlayers s) <= 10)%nat)
             TeamBuilder.initial); [simpl; lia| |exact Hreach].
    intros y z _ Hstep IH. eapply step_lobby_small; eassumption. }
  split; [exact Hsmall|].
  intros allPlayers. etransitivity; [apply active_length_le|exact Hsmall].
Qed.

(** X18. Removing a player from the lobby takes the id out of the lobby
    and forgets its assignment; every other id stays in the lobby with
    its assignment; removing an id just added gives the lobby back; the
    teams generated before stay as they were, the removed player
    included. *)
Theorem removePlayerFromLobby_forgets (steamId : string)
    (st : TeamBuilder.state) :
  let st' := TeamBuilder.removePlayerFromLobby steamId st in
  (forall id, In id (TeamBuilder.lobbyPlayers st')
              <-> In id (TeamBuilder.lobbyPlayers st) /\ id <> steamId)
  /\ (forall id, TeamBuilder.manualAssignments st' !! id
                 = if decide (id = steamId) then None
                   else TeamBuilder.manualAssignments st !! id)
  /\ (~ In steamId (TeamBuilder.lobbyPlayers st) ->
      TeamBuilder.lobbyPlayers
        (TeamBuilder.removePlayerFromLobby steamId
           (TeamBuilder.addPlayerToLobby steamId st))
      = TeamBuilder.lobbyPlayers st)
  /\ TeamBuilder.generatedTeams st' = TeamBuilder.generatedTeams st.
Proof.
  cbn zeta. cbn [TeamBuilder.removePlayerFromLobby TeamBuilder.lobbyPlayers
                 TeamBuilder.manualAssignments TeamBuilder.generatedTeams].
  split; [|split; [|split; [|reflexivity]]].
  - intros id. rewrite filter_In, negb_true_iff, String.eqb_neq. reflexivity.
  - intros id. destruct (decide (id = steamId)) as [->|Hne].
    + apply lookup_delete_eq.
    + now apply lookup_delete_ne.
  - intros Hfresh.
    assert (List.filter (fun id => negb (String.eqb id steamId))
              (TeamBuilder.lobbyPlayers st) = TeamBuilder.lobbyPlayers st) as Hkept.
    { apply filter_all. intros x Hx. apply negb_true_iff, String.eqb_neq.
      congruence. }
    unfold TeamBuilder.addPlayerToLobby.
    destruct (negb _ && _); cbn [TeamBuilder.lobbyPlayers]; [|exact Hkept].
    rewrite List.filter_app, Hkept. simpl. rewrite String.eqb_refl. simpl.
    apply app_nil_r.
Qed.

Section Full_team.
Variable teamSize : nat.


End Full_team.

Lemma even_half (n : nat) : Nat.Even n -> n = (2 * (n / 2))%nat.
Proof.
  intros [m ->]. rewrite (Nat.mul_comm 2 m), Nat.div_mul by lia. lia.
Qed.

(** X19. With an even roster of two or more active players of which no
    more than half are pinned to team1 and no more than half to team2,
    the two teams generated have the same size, half the roster. *)
Theorem teams_equal_size (allPlayers : list AggregatedPlayerStats.t)
    (st : TeamBuilder.state) :
  let active := TeamBuilder.activePlayers allPlayers st in
  let teamSize := (List.length active / 2)%nat in
  Nat.Even (List.length active) -> (2 <= List.length active)%nat ->
  (List.length (pinned_members st Team1 active) <= teamSize)%nat ->
  (List.length (pinned_members st Team2 active) <= teamSize)%nat ->
  exists t,
    TeamBuilder.generateTeams allPlayers st = (with_teams st t, None)
    /\ List.length (TeamBuilder.team1 t) = teamSize
    /\ List.length (TeamBuilder.team2 t) = teamSize.
Proof.
  intros active teamSize Heven Hsize Hpin1 Hpin2.
  destruct (generateTeams_valid allPlayers st Heven Hsize) as [Hgen _].
  pose proof (result_perm allPlayers st Heven Hsize) as Hperm.
  apply Permutation_length in Hperm. rewrite length_app in Hperm.
  destruct (fold_place_bounded teamSize (TeamBuilder.pool allPlayers st)
              (TeamBuilder.mkTeams (pinned_members st Team1 active)
                                   (pinned_members st Team2 active)))
    as [Hb1 Hb2]; [exact Hpin1|exact Hpin2|].
  pose proof (even_half _ Heven) as Hhalf.
  eexists. split; [exact Hgen|].
  fold active teamSize in Hperm, Hhalf |- *. lia.
Qed.


(** X21. The players of the generated teams are the players the lobby
    ids resolve to among the aggregated players, the benched ones left
    out: nobody outside the lobby and nobody benched is in a team, and
    nobody else is left out. *)
Theorem teams_from_lobby (allPlayers : list AggregatedPlayerStats.t)
    (st : TeamBuilder.state) :
  let active := TeamBuilder.activePlayers allPlayers st in
  Nat.Even (List.length active) -> (2 <= List.length active)%nat ->
  exists t,
    TeamBuilder.generateTeams allPlayers st = (with_teams st t, None)
    /\ forall p,
         In p (TeamBuilder.team1 t ++ TeamBuilder.team2 t)
         <-> exists id,
               In id (TeamBuilder.lobbyPlayers st)
               /\ TeamBuilder.manualAssignments st !! id <> Some Bench
               /\ List.find
                    (fun q => String.eqb (AggregatedPlayerStats.steam_id q) id)
                    allPlayers = Some p.
Proof.
  intros active Heven Hsize.
  destruct (generateTeams_valid allPlayers st Heven Hsize) as [Hgen _].
  pose proof (result_perm allPlayers st Heven Hsize) as Hperm.
  eexists. split; [exact Hgen|]. intros p.
  transitivity (In p active).
  - split; intros Hin; eapply Permutation_in; try exact Hin;
      [exact Hperm|symmetry; exact Hperm].
  - unfold active, TeamBuilder.activePlayers.
    rewrite In_defined, in_map_iff. split.
    + intros (id & Hfind & Hid). apply filter_In in Hid as [Hlobby Hbench].
      apply negb_true_iff, bool_decide_eq_false in Hbench.
      exists id. repeat split; assumption.
    + intros (id & Hlobby & Hbench & Hfind). exists id. split; [exact Hfind|].
      apply filter_In. split; [exact Hlobby|].
      now apply negb_true_iff, bool_decide_eq_false.
Qed.

(* ===================================================================== *)
(** * The face-off seen from the other side *)
(* ===================================================================== *)

Lemma sort_insert_map {A B : Type} (f : A -> B)
    (cmp : A -> A -> JS.number) (cmp' : B -> B -> JS.number)
    (x : A) (l : list A) :
  (forall a b, cmp' (f a) (f b) = cmp a b) ->
  sort_insert cmp' (f x) (List.map f l) = List.map f (sort_insert cmp x l).
Proof.
  intros Hcmp. induction l as [|y l IH]; simpl; [reflexivity|].
  rewrite Hcmp. destruct (JS.gtb (cmp x y) (JS.of_N 0)); simpl;
    [now rewrite IH|reflexivity].
Qed.

Lemma Array_sort_map {A B : Type} (f : A -> B)
    (cmp : A -> A -> JS.number) (cmp' : B -> B -> JS.number) (l : list A) :
  (forall a b, cmp' (f a) (f b) = cmp a b) ->
  Array_sort cmp' (List.map f l) = List.map f (Array_sort cmp l).
Proof.
  intros Hcmp. unfold Array_sort. induction l as [|x l IH]; simpl; [reflexivity|].
  rewrite IH. now apply sort_insert_map.
Qed.

Lemma visit_swap (idA idB : string) (acc : Duels.totals) (m : Match.t) :
  mirrored idA idB [m] ->
  Duels.visit idB idA (swap_totals acc) m
  = swap_totals (Duels.visit idA idB acc m).
Proof.
  intros Hmirror. unfold Duels.visit.
  pose proof (Hmirror m) as Hm. unfold record_of in Hm.
  change (List.find (plays_as idA) (Match.data m))
    with (Duels.findData idA m) in Hm.
  change (List.find (plays_as idB) (Match.data m))
    with (Duels.findData idB m) in Hm.
  destruct (Duels.findData idA m) as [a|], (Duels.findData idB m) as [b|];
    try reflexivity.
  specialize (Hm a b).
  destruct (PlayerStats.duels a !! idB) as [dA|],
           (PlayerStats.duels b !! idA) as [dB|]; try reflexivity.
  - destruct (Hm dA dB) as [Hk Hd]; try reflexivity; [now left|].
    unfold swap_totals; cbn [Duels.acc_p1Kills Duels.acc_p2Kills
                             Duels.acc_history].
    rewrite List.map_app, Hk, Hd. reflexivity.
  - unfold swap_totals; cbn [Duels.acc_p1Kills Duels.acc_p2Kills
                             Duels.acc_history].
    rewrite List.map_app. reflexivity.
  - unfold swap_totals; cbn [Duels.acc_p1Kills Duels.acc_p2Kills
                             Duels.acc_history].
    rewrite List.map_app. reflexivity.
Qed.

Lemma fold_visit_swap (idA idB : string) (matches : list Match.t)
    (acc : Duels.totals) :
  mirrored idA idB matches ->
  fold_left (Duels.visit idB idA) matches (swap_totals acc)
  = swap_totals (fold_left (Duels.visit idA idB) matches acc).
Proof.
  revert acc. induction matches as [|m ms IH]; intros acc Hmirror; simpl;
    [reflexivity|].
  rewrite visit_swap.
  - apply IH. intros m' a b dA dB Hin. apply Hmirror. now right.
  - intros m' a b dA dB [<-|[]]. apply Hmirror. now left.
Qed.

(** X22. When, in every match in which the two players each recorded
    their duel with the other, the two records agree (the kills of one
    are the deaths of the other), the face-off of B against A is the
    face-off of A against B seen from the other side: players, totals and
    every match of the history mirrored, in the same order. *)
Theorem duel_mirror (allPlayers : list AggregatedPlayerStats.t)
    (matches : list Match.t) (idA idB : string) :
  mirrored idA idB matches ->
  Duels.duelStats allPlayers matches (Some idB) (Some idA)
  = swap_result <$> Duels.duelStats allPlayers matches (Some idA) (Some idB).
Proof.
  intros Hmirror. unfold Duels.duelStats.
  rewrite (orb_comm (Duels.unset (Some idB))).
  destruct (Duels.unset (Some idA) || Duels.unset (Some idB)); [reflexivity|].
  destruct (TeamBuilder.findPlayer allPlayers idA) as [a|],
           (TeamBuilder.findPlayer allPlayers idB) as [b|]; try reflexivity.
  cbn [fmap option_fmap option_map]. f_equal.
  change {| Duels.acc_p1Kills := 0; Duels.acc_p2Kills := 0;
            Duels.acc_history := [] |}
    with (swap_totals {| Duels.acc_p1Kills := 0; Duels.acc_p2Kills := 0;
                         Duels.acc_history := [] |}) at 1 2 3.
  rewrite (fold_visit_swap idA idB matches _ Hmirror).
  unfold swap_result; cbn [Duels.p1 Duels.p2 Duels.p1Kills Duels.p2Kills
                           Duels.history swap_totals Duels.acc_p1Kills
                           Duels.acc_p2Kills Duels.acc_history].
  f_equal. apply Array_sort_map. reflexivity.
Qed.

(* ===================================================================== *)
(** * The selection of the data manager *)
(* ===================================================================== *)

(** X23. Toggling an id in the selection of the data manager takes it
    out when it is selected and puts it in when it is not, leaves every
    other id as it was, and keeps a selection without repetition so. *)
Theorem toggleSelection_flips (id : string) (prev : list string) :
  (In id (toggleSelection id prev) <-> ~ In id prev)
  /\ (forall x, x <> id -> (In x (toggleSelection id prev) <-> In x prev))
  /\ (NoDup prev -> NoDup (toggleSelection id prev)).
Proof.
  unfold toggleSelection.
  destruct (TeamBuilder.includes id prev) eqn:Hinc.
  - assert (In id prev) as Hin by now apply includes_In.
    split; [|split].
    + rewrite filter_In, negb_true_iff, String.eqb_neq. tauto.
    + intros x Hx. rewrite filter_In, negb_true_iff, String.eqb_neq. tauto.
    + apply NoDup_List_filter.
  - assert (~ In id prev) as Hnot.
    { intros Hin. apply includes_In in Hin. congruence. }
    split; [|split].
    + rewrite in_app_iff. simpl. tauto.
    + intros x Hx. rewrite in_app_iff. simpl. split; [|tauto].
      intros [Hin|[Heq|[]]]; [exact Hin|congruence].
    + intros Hnd. apply NoDup_app. repeat split;
        [exact Hnd| |apply NoDup_singleton].
      intros x Hx ->%list_elem_of_singleton.
      now apply list_elem_of_In in Hx.
Qed.

(* ===================================================================== *)
(** * The further statements at work on the sample records *)
(* ===================================================================== *)

Lemma store_ids_distinct_witness :
  NoDup (match_ids [idle_match; duel_match])
  /\ NoDup (match_ids (StatsProvider.addMatch duel_match [idle_match; duel_match]))
  /\ NoDup (match_ids (StatsProvider.deleteMatch "m0" [idle_match; duel_match]))
  /\ NoDup (match_ids
              (StatsProvider.deleteMatches ["m0"; "m1"] [idle_match; duel_match])).
Proof.
  assert (NoDup (match_ids [idle_match; duel_match])) as Hnd by compute_done.
  split; [exact Hnd|].
  apply (proj2 (store_ids_distinct duel_match "m0" ["m0"; "m1"] [roster_match]
                  [idle_match; duel_match])).
  exact Hnd.
Defined.

Lemma addMatch_deleteMatch_witness :
  ~ In (Match.id roster_match) (match_ids [idle_match; duel_match])
  /\ StatsProvider.addMatch roster_match [idle_match; duel_match]
     = [idle_match; duel_match] ++ [roster_match]
  /\ StatsProvider.deleteMatch (Match.id roster_match)
       (StatsProvider.addMatch roster_match [idle_match; duel_match])
     = [idle_match; duel_match]
  /\ aggregatePlayerStats
       (StatsProvider.deleteMatch (Match.id roster_match)
          (StatsProvider.addMatch roster_match [idle_match; duel_match]))
     = aggregatePlayerStats [idle_match; duel_match].
Proof.
  assert (~ In (Match.id roster_match) (match_ids [idle_match; duel_match]))
    as Hfresh by (intros [H|[H|[]]]; discriminate).
  split; [exact Hfresh|].
  apply (proj2 (addMatch_deleteMatch roster_match [idle_match; duel_match])).
  exact Hfresh.
Defined.

Lemma addMatches_as_addMatch_witness :
  Permutation
    (StatsProvider.addMatches [duel_match; roster_match] [idle_match; duel_match])
    (fold_left (fun st m => StatsProvider.addMatch m st)
       [duel_match; roster_match] [idle_match; duel_match])
  /\ Permutation
       (List.map counters
          (aggregatePlayerStats
             (StatsProvider.addMatches [duel_match; roster_match]
                [idle_match; duel_match])))
       (List.map counters
          (aggregatePlayerStats
             (fold_left (fun st m => StatsProvider.addMatch m st)
                [duel_match; roster_match] [idle_match; duel_match]))).
Proof.
  apply (addMatches_as_addMatch [duel_match; roster_match]
           [idle_match; duel_match]).
  compute_done.
Defined.

Lemma aggregates_grow_witness :
  exists a',
    lookup_player "76561198000000001"
      (aggregatePlayerStats ([idle_match] ++ [duel_match; idle_match])) = Some a'
    /\ Forall2 N.le
         (tallies (aggregate_of "76561198000000001" [idle_player]))
         (tallies a').
Proof.
  apply (aggregates_grow [idle_match] [duel_match; idle_match]
           (aggregate_of "76561198000000001" [idle_player])).
  left. vm_compute. reflexivity.
Defined.

Lemma duel_history_newest_first_witness :
  exists r,
    Duels.duelStats (aggregatePlayerStats [duel_match; rematch])
      [duel_match; rematch]
      (Some "76561198000000010") (Some "76561198000000011") = Some r
    /\ List.length (Duels.history r) = 2%nat
    /\ newest_first (List.map HistoryEntry.match_ (Duels.history r)).
Proof.
  destruct (Duels.duelStats (aggregatePlayerStats [duel_match; rematch])
              [duel_match; rematch]
              (Some "76561198000000010") (Some "76561198000000011"))
    as [r|] eqn:Hr; [|vm_compute in Hr; discriminate].
  exists r. split; [reflexivity|]. split.
  - vm_compute in Hr. injection Hr as <-. reflexivity.
  - apply (duel_history_newest_first
             (aggregatePlayerStats [duel_match; rematch]) [duel_match; rematch]
             (Some "76561198000000010") (Some "76561198000000011") r).
    exact Hr.
Defined.

Lemma player_history_rows_witness :
  exists stats,
    PlayerProfile.playerAggregatedStats [idle_match; duel_match; rematch]
      "76561198000000010" = Some stats
    /\ N.of_nat (List.length
                   (playerMatchHistory [idle_match; duel_match; rematch]
                      "76561198000000010"))
       = AggregatedPlayerStats.matches stats
    /\ AggregatedPlayerStats.matches stats = 2%N.
Proof.
  destruct (PlayerProfile.playerAggregatedStats
              [idle_match; duel_match; rematch] "76561198000000010")
    as [stats|] eqn:Hstats; [|vm_compute in Hstats; discriminate].
  exists stats. split; [reflexivity|]. split.
  - apply (proj2 (proj2 (proj2 (proj2 (proj2 (player_history_rows
                           [idle_match; duel_match; rematch]
                           "76561198000000010" stats Hstats)))))).
    repeat constructor; unfold distinct_participants; compute_done.
  - vm_compute in Hstats. injection Hstats as <-. reflexivity.
Defined.

Lemma playstyle_scores_percent_witness :
  percent_score
    (PlayerProfile.entryScore (aggregate_of "76561198000000011" [duel_B]))
  /\ percent_score
       (PlayerProfile.utilityScore (aggregate_of "76561198000000011" [duel_B]))
  /\ percent_score
       (PlayerProfile.snipingScore (aggregate_of "76561198000000011" [duel_B])).
Proof.
  assert (In (aggregate_of "76561198000000011" [duel_B])
             (aggregatePlayerStats [duel_match])) as Hin
    by (vm_compute; right; left; reflexivity).
  destruct (playstyle_scores_percent [duel_match]
              (aggregate_of "76561198000000011" [duel_B]) Hin)
    as (Hentry & _ & _ & _ & Hutility & Hsniping).
  split; [exact Hentry|]. split; [exact Hutility|].
  apply Hsniping. vm_compute. reflexivity.
Defined.

Lemma lobby_invariant_witness :
  NoDup (TeamBuilder.lobbyPlayers crowded_lobby)
  /\ (List.length (TeamBuilder.lobbyPlayers crowded_lobby) <= 10)%nat
  /\ (forall allPlayers,
        (List.length (TeamBuilder.activePlayers allPlayers crowded_lobby)
         <= 10)%nat).
Proof.
  apply (lobby_invariant crowded_lobby).
  unfold crowded_lobby. do 3 apply reachable_assign. apply reachable_lobby_of.
Defined.

Lemma removePlayerFromLobby_forgets_witness :
  TeamBuilder.lobbyPlayers
    (TeamBuilder.removePlayerFromLobby "76561198000000105"
       (TeamBuilder.addPlayerToLobby "76561198000000105" crowded_lobby))
  = TeamBuilder.lobbyPlayers crowded_lobby.
Proof.
  apply (proj1 (proj2 (proj2 (removePlayerFromLobby_forgets
                                "76561198000000105" crowded_lobby)))).
  vm_compute. intros [H|[H|[H|[H|[]]]]]; discriminate.
Defined.

Lemma teams_equal_size_witness :
  exists t,
    TeamBuilder.generateTeams (aggregatePlayerStats [roster_match]) pinned_lobby
    = (with_teams pinned_lobby t, None)
    /\ List.length (TeamBuilder.team1 t) = 4%nat
    /\ List.length (TeamBuilder.team2 t) = 4%nat.
Proof.
  apply (teams_equal_size (aggregatePlayerStats [roster_match]) pinned_lobby).
  - exists 4%nat. vm_compute. reflexivity.
  - vm_compute. lia.
  - vm_compute. lia.
  - vm_compute. lia.
Defined.


Lemma teams_from_lobby_witness :
  exists t,
    TeamBuilder.generateTeams (aggregatePlayerStats [roster_match]) benched_pair
    = (with_teams benched_pair t, None)
    /\ forall p,
         In p (TeamBuilder.team1 t ++ TeamBuilder.team2 t)
         <-> exists id,
               In id (TeamBuilder.lobbyPlayers benched_pair)
               /\ TeamBuilder.manualAssignments benched_pair !! id <> Some Bench
               /\ List.find
                    (fun q => String.eqb (AggregatedPlayerStats.steam_id q) id)
                    (aggregatePlayerStats [roster_match]) = Some p.
Proof.
  apply (teams_from_lobby (aggregatePlayerStats [roster_match]) benched_pair).
  - exists 3%nat. vm_compute. reflexivity.
  - vm_compute. lia.
Defined.

Lemma duel_mirror_witness :
  mirrored "76561198000000010" "76561198000000011"
    [duel_match; rematch; idle_match]
  /\ Duels.duelStats (aggregatePlayerStats [duel_match; rematch; idle_match])
       [duel_match; rematch; idle_match]
       (Some "76561198000000011") (Some "76561198000000010")
     = swap_result
         <$> Duels.duelStats
               (aggregatePlayerStats [duel_match; rematch; idle_match])
               [duel_match; rematch; idle_match]
               (Some "76561198000000010") (Some "76561198000000011")
  /\ (fun r => (Duels.p1Kills r, Duels.p2Kills r, List.length (Duels.history r)))
       <$> Duels.duelStats
             (aggregatePlayerStats [duel_match; rematch; idle_match])
             [duel_match; rematch; idle_match]
             (Some "76561198000000010") (Some "76561198000000011")
     = Some (6%N, 5%N, 2%nat).
Proof.
  assert (mirrored "76561198000000010" "76561198000000011"
            [duel_match; rematch; idle_match]) as Hmirror.
  { intros m a b dA dB [<-|[<-|[<-|[]]]] Ha Hb HdA HdB;
      vm_compute in Ha; try discriminate; injection Ha as <-;
      vm_compute in Hb; injection Hb as <-;
      vm_compute in HdA; try discriminate; injection HdA as <-;
      vm_compute in HdB; injection HdB as <-.
    split; reflexivity. }
  split; [exact Hmirror|]. split; [|vm_compute; reflexivity].
  apply (duel_mirror (aggregatePlayerStats [duel_match; rematch; idle_match])
           [duel_match; rematch; idle_match]
           "76561198000000010" "76561198000000011").
  exact Hmirror.
Defined.

Lemma toggleSelection_flips_witness :
  NoDup (toggleSelection "m1" ["m0"; "m1"; "m2"])
  /\ NoDup (toggleSelection "m3" ["m0"; "m1"; "m2"]).
Proof.
  split.
  - apply (proj2 (proj2 (toggleSelection_flips "m1" ["m0"; "m1"; "m2"]))).
    compute_done.
  - apply (proj2 (proj2 (toggleSelection_flips "m3" ["m0"; "m1"; "m2"]))).
    compute_done.
Defined.
